(** * Payment-to-order reconciliation of the storefront

    A shallow embedding of the checkout and webhook code:
    - [src/lib/actions/checkout.ts]   (createCheckoutSession, getCheckoutSession)
    - [src/lib/actions/customer.ts]   (getOrCreateStripeCustomer)
    - [src/app/api/webhooks/stripe/route.ts] (POST, handleCheckoutCompleted)
    - the GROQ queries of [src/sanity/queries] these call.

    The content store (Sanity), the payment provider (Stripe) and the
    authentication provider (Clerk) are modelled as explicit state and
    environment; every [await]ed call can fail, as decided by the
    environment of the run.

    Counts (quantities, stock, pence) are integers in [Z]. An amount in
    pounds is a rational in [Q] that stands for the decimal the code reads
    or prints; where the code computes with such amounts ([price * 100],
    the sum of the order totals) the arithmetic is that of binary64,
    [JS.mul] and [JS.add]. *)

From Stdlib Require Import ZArith QArith Qround Lia Lqa.
From Stdlib Require Import Ascii String Decimal DecimalString DecimalFacts DecimalPos DecimalZ.
From stdpp Require Import base option list strings gmap sorting.

Local Open Scope string_scope.
Local Open Scope Z_scope.
Local Open Scope list_scope.

(** ** JavaScript values and built-ins used by the code *)
Module JS.

(** A JS number as the code uses it for counts: an integer or NaN.
    Integers are exact in binary64 up to 2^53; counts stay far below. *)
Inductive number :=
| Num (z : Z)
| NaN.

(** Truthiness of a [string | undefined]: the empty string is falsy. *)
Definition truthy (v : option string) : bool :=
  match v with
  | Some (String _ _) => true
  | _ => false
  end.

(** [a ?? b] *)
Definition nullish {A} (v : option A) (d : A) : A :=
  match v with
  | Some a => a
  | None => d
  end.

(** [Array.prototype.join] *)
Fixpoint join (sep : string) (l : list string) : string :=
  match l with
  | [] => ""
  | [x] => x
  | x :: rest => x +:+ sep +:+ join sep rest
  end.

(** [String.prototype.split] with a one-character separator. *)
Fixpoint split (sep : ascii) (s : string) : list string :=
  match s with
  | EmptyString => [""]
  | String c s' =>
      if Ascii.eqb c sep then "" :: split sep s'
      else match split sep s' with
           | hd :: tl => String c hd :: tl
           | [] => [String c ""]
           end
  end.

(** [String(n)] for an integer: decimal digits, ["-"] for negatives.
    This is the rendering of integers below 10^21 in absolute value;
    beyond that JavaScript switches to exponent notation. *)
Definition toString (z : Z) : string :=
  NilZero.string_of_int (Z.to_int z).

(** Template-literal rendering of a [number | null]. *)
Definition show_number (v : option Z) : string :=
  match v with
  | Some z => toString z
  | None => "null"
  end.

Definition digits (s : string) : number :=
  match NilZero.uint_of_string s with
  | Some d => Num (Z.of_uint d)
  | None => NaN
  end.

Definition negate (n : number) : number :=
  match n with
  | Num z => Num (- z)
  | NaN => NaN
  end.

(** [Number(s)] on the decimal-integer fragment of StringToNumber:
    the empty string is 0, an optional sign is followed by at least one
    digit, and any other text is NaN. The fragment holds every string that
    [String(n)] writes for an integer below 10^21; surrounding white
    space, fractions, exponents and hexadecimal are not read. *)
Definition Number (s : string) : number :=
  match s with
  | EmptyString => Num 0
  | String "-" s' => negate (digits s')
  | String "+" s' => digits s'
  | _ => digits s
  end.

(** [Math.round]: the nearest integer, ties towards +infinity. *)
Definition Math_round (q : Q) : Z := Qfloor (q + (1 # 2))%Q.

(** *** Binary64 arithmetic

    A finite double is a rational. [binary64 q] is the double nearest to
    the real [q], ties to the even significand, as IEEE 754 rounds the
    result of an operation and as a decimal literal is read. The reals are
    scaled by 2^1074, so that the doubles become the integers of at most
    53 significant bits: an integer below 2^53 is one, and above that the
    multiples of [2^s] are, where [s] is the number of bits beyond 53.
    The exponent is not bounded above: a result beyond the largest double
    is [Infinity] in JavaScript and is outside this model. *)

(** The nearest integer, ties to the even one. *)
Definition round_half_even (x : Q) : Z :=
  let f := Qfloor x in
  match (x - inject_Z f ?= 1 # 2)%Q with
  | Lt => f
  | Gt => f + 1
  | Eq => if Z.even f then f else f + 1
  end.

Definition binary64_nonneg (q : Q) : Q :=
  let t := (q * inject_Z (2 ^ 1074))%Q in
  let s := Z.max 0 (Z.log2 (Qfloor t) - 52) in
  let m := round_half_even (t / inject_Z (2 ^ s)) in
  Qred (inject_Z (m * 2 ^ s) / inject_Z (2 ^ 1074)).

Definition binary64 (q : Q) : Q :=
  if Qle_bool 0 q then binary64_nonneg q else (- binary64_nonneg (- q))%Q.

(** [a * b] and [a + b] on numbers: the operands are doubles, the result
    is the double nearest to the exact one. *)
Definition mul (a b : Q) : Q := binary64 (binary64 a * binary64 b).


(** The unit roundoff of binary64, 2^-53. *)
Definition unit_roundoff : Q := 1 # (2 ^ 53).

(** [String.prototype.trim] on ASCII text: the white space of ASCII is
    the space, the tab and the four line terminators and feeds. The
    Unicode white space beyond ASCII, which [trim] strips as well, is not
    covered; only the display name of a customer passes through [trim]. *)
Definition is_space (c : ascii) : bool :=
  match c with
  | " " | "009" | "010" | "011" | "012" | "013" => true
  | _ => false
  end%char.

Fixpoint trimStart (s : string) : string :=
  match s with
  | String c s' => if is_space c then trimStart s' else s
  | EmptyString => EmptyString
  end.

(** [trimEnd], right to left: a suffix of white space is dropped. *)
Fixpoint trimEnd (s : string) : string :=
  match s with
  | EmptyString => EmptyString
  | String c s' =>
      match trimEnd s' with
      | EmptyString => if is_space c then EmptyString else String c EmptyString
      | t => String c t
      end
  end.

Definition trim (s : string) : string := trimEnd (trimStart s).

End JS.

(** ** Data model *)

(** [CartItem] of [checkout.ts]: what the client sends. The quantity is
    a count, so an integer; nothing here bounds it from below. *)
Module CartItem.
Record t := mk {
  productId : string;
  name : string;
  price : Q;
  quantity : Z;
  image : option string;
}.
End CartItem.

(** A product document of the content store, keyed by its [_id]. *)
Module ProductDoc.
Record t := mk {
  name : option string;
  price : option Q;
  stock : option Z;
  image_url : option string;
}.
End ProductDoc.

(** The projection of [PRODUCTS_BY_IDS_QUERY]: one product snapshot. *)
Module Product.
Record t := mk {
  _id : string;
  name : option string;
  price : option Q;
  image_url : option string;
  stock : option Z;
}.
End Product.

(** A customer document ([customerType.ts]). *)
Module Customer.
Record t := mk {
  _id : string;
  email : string;
  name : option string;
  clerkUserId : option string;
  stripeCustomerId : option string;
  createdAt : option string;
}.
End Customer.

(** A customer object of the payment provider. *)
Module StripeCustomer.
Record t := mk {
  id : string;
  email : string;
  name : string;
  metadata_clerkUserId : string;
}.
End StripeCustomer.

(** The session metadata: a flat map of strings, every key optional
    for the reader in the webhook. *)
Module Metadata.
Record t := mk {
  clerkUserId : option string;
  userEmail : option string;
  sanityCustomerId : option string;
  productIds : option string;
  quantities : option string;
}.
Definition empty : t := mk None None None None None.
End Metadata.

Module Address.
Record t := mk {
  line1 : option string;
  line2 : option string;
  city : option string;
  postal_code : option string;
  country : option string;
}.
End Address.

Module CustomerDetails.
Record t := mk {
  email : option string;
  name : option string;
  address : option Address.t;
}.
End CustomerDetails.

(** A line item as the provider lists it; [amount_total] is in pence. *)
Module LineItem.
Record t := mk {
  description : option string;
  quantity : option Z;
  amount_total : Z;
}.
End LineItem.

(** [Stripe.Checkout.Session]. [payment_intent] is read [as string] by
    the webhook; [line_items] is what [listLineItems] and the
    [expand] of [retrieve] give for the session. *)
Module Session.
Record t := mk {
  id : string;
  url : option string;
  payment_intent : string;
  metadata : option Metadata.t;
  amount_total : option Z;
  payment_status : string;
  customer : option string;
  customer_details : option CustomerDetails.t;
  line_items : list LineItem.t;
}.
End Session.

(** The address stored on an order. *)
Module OrderAddress.
Record t := mk {
  name : string;
  line1 : string;
  line2 : string;
  city : string;
  postcode : string;
  country : string;
}.
End OrderAddress.

Module OrderItem.
Record t := mk {
  _key : string;
  product_ref : string;
  quantity : option JS.number;
  priceAtPurchase : Q;
}.
End OrderItem.

(** An order document. Money is in pounds: the webhook divides the
    provider's pence by 100 before it stores them. *)
Module Order.
Record t := mk {
  _id : string;
  orderNumber : string;
  customer_ref : option string;
  clerkUserId : string;
  email : string;
  items : list OrderItem.t;
  total : Q;
  status : string;
  stripePaymentId : string;
  address : option OrderAddress.t;
  createdAt : string;
}.
End Order.

(** [Stripe.Event], as far as the route reads it. *)
Module Event.
Record t := mk {
  type : string;
  data_object : Session.t;
}.
End Event.

(** The signed-in user of the authentication provider. *)
Module ClerkUser.
Record t := mk {
  emailAddresses : list string;
  firstName : option string;
  lastName : option string;
}.
End ClerkUser.


(** ** The stores and the environment of a run *)

(** The content store: order and customer documents in creation order,
    product documents by [_id], and the counter behind generated ids. *)
Record Sanity := mkSanity {
  orders : list Order.t;
  products : gmap string ProductDoc.t;
  customers : list Customer.t;
  sanity_seq : nat;
}.

(** The payment provider: customers newest first, sessions by id. *)
Record Stripe := mkStripe {
  stripe_customers : list StripeCustomer.t;
  sessions : gmap string Session.t;
  stripe_seq : nat;
}.

Record World := mkWorld {
  sanity : Sanity;
  stripe : Stripe;
}.

(** The awaited calls to the three services. *)
Inductive Call :=
| sanity_fetch
| sanity_create
| sanity_patch
| sanity_transaction
| stripe_customers_list
| stripe_customers_create
| stripe_sessions_create
| stripe_sessions_retrieve
| stripe_listLineItems
| clerk_auth
| clerk_currentUser.

(** What a run reads from outside the stores: which calls fail, the
    signed-in user, the clock and the random source (already rendered as
    the code renders them), the process environment, and the SDK's
    signature check ([inl] is the message of the error it throws). *)
Record Env := mkEnv {
  unavailable : Call → bool;
  auth_userId : option string;
  clerk_user : option ClerkUser.t;
  Date_now_base36 : string;
  Math_random_base36 : string;
  Date_toISOString : string;
  NEXT_PUBLIC_BASE_URL : option string;
  VERCEL_URL : option string;
  STRIPE_WEBHOOK_SECRET : string;
  constructEvent : string → string → string → string + Event.t;
}.

(** ** A monad for [async] code: environment, state and exceptions *)

Inductive result (A : Type) :=
| Ok (a : A)
| Throw (e : string).
Arguments Ok {A} a.
Arguments Throw {A} e.

Definition M (A : Type) : Type := Env → World → result A * World.

#[global] Instance M_ret : MRet M := λ A a _ w, (Ok a, w).

#[global] Instance M_bind : MBind M := λ A B f m env w,
  match m env w with
  | (Ok a, w') => f a env w'
  | (Throw e, w') => (Throw e, w')
  end.

Definition throw {A} (e : string) : M A := λ _ w, (Throw e, w).

(** [try { m } catch (e) { h e }]: writes made before the throw stay. *)
Definition try_catch {A} (m : M A) (h : string → M A) : M A := λ env w,
  match m env w with
  | (Ok a, w') => (Ok a, w')
  | (Throw e, w') => h e env w'
  end.

Definition ask : M Env := λ env w, (Ok env, w).

(** An awaited call to a service: it rejects when the service is down. *)
Definition await {A} (c : Call) (op : World → result A * World) : M A := λ env w,
  if unavailable env c then (Throw "service unavailable", w) else op w.

Definition set_sanity (s : Sanity) (w : World) : World :=
  mkWorld s (stripe w).

Definition set_stripe (s : Stripe) (w : World) : World :=
  mkWorld (sanity w) s.

(** ** The content store's client *)

Definition str_eqb (a b : string) : bool := bool_decide (a = b).

(** [*[_type == "order" && stripePaymentId == $stripePaymentId][0]{ _id }] *)
Definition ORDER_BY_STRIPE_PAYMENT_ID_QUERY (stripePaymentId : string) (s : Sanity)
  : option string :=
  Order._id <$> List.find (λ o, str_eqb (Order.stripePaymentId o) stripePaymentId) (orders s).

(** [*[_type == "customer" && email == $email][0]{...}] *)
Definition CUSTOMER_BY_EMAIL_QUERY (email : string) (s : Sanity) : option Customer.t :=
  List.find (λ c, str_eqb (Customer.email c) email) (customers s).

Definition snapshot (kv : string * ProductDoc.t) : Product.t :=
  Product.mk kv.1 (ProductDoc.name kv.2) (ProductDoc.price kv.2)
             (ProductDoc.image_url kv.2) (ProductDoc.stock kv.2).

(** [*[_type == "product" && _id in $ids]{ _id, name, price, image, stock }] *)
Definition PRODUCTS_BY_IDS_QUERY (ids : list string) (s : Sanity) : list Product.t :=
  snapshot <$> map_to_list (filter (λ kv, kv.1 ∈ ids) (products s)).

(** [client.fetch(query, params)] *)
Definition client_fetch {A} (query : Sanity → A) : M A :=
  await sanity_fetch (λ w, (Ok (query (sanity w)), w)).

Definition fresh_doc_id (s : Sanity) : string :=
  "doc-" +:+ JS.toString (Z.of_nat (sanity_seq s)).

(** The store after one more order document. *)
Definition order_created (o : Order.t) (w : World) : World :=
  let s := sanity w in
  set_sanity (mkSanity (orders s ++ [o]) (products s) (customers s) (S (sanity_seq s))) w.

(** [writeClient.create({_type: "order", ...})]: the store gives the id. *)
Definition writeClient_create_order (doc : string → Order.t) : M Order.t :=
  await sanity_create (λ w,
    let o := doc (fresh_doc_id (sanity w)) in (Ok o, order_created o w)).

(** The store after one more customer document. *)
Definition customer_created (c : Customer.t) (w : World) : World :=
  let s := sanity w in
  set_sanity (mkSanity (orders s) (products s) (customers s ++ [c]) (S (sanity_seq s))) w.

(** [writeClient.create({_type: "customer", ...})] *)
Definition writeClient_create_customer (doc : string → Customer.t) : M Customer.t :=
  await sanity_create (λ w,
    let c := doc (fresh_doc_id (sanity w)) in (Ok c, customer_created c w)).

Definition set_customer_link (stripeCustomerId clerkUserId name : string)
  (c : Customer.t) : Customer.t :=
  Customer.mk (Customer._id c) (Customer.email c) (Some name) (Some clerkUserId)
              (Some stripeCustomerId) (Customer.createdAt c).

(** The store after the link fields are set on the documents with this id. *)
Definition customer_linked (id stripeCustomerId clerkUserId name : string) (w : World)
  : World :=
  let s := sanity w in
  set_sanity (mkSanity (orders s) (products s)
                ((λ c, if str_eqb (Customer._id c) id
                       then set_customer_link stripeCustomerId clerkUserId name c else c)
                   <$> customers s)
                (sanity_seq s)) w.

(** [writeClient.patch(id).set({stripeCustomerId, clerkUserId, name}).commit()];
    patching a document that does not exist is an error. *)
Definition writeClient_patch_customer (id stripeCustomerId clerkUserId name : string)
  : M unit :=
  await sanity_patch (λ w,
    if existsb (λ c, str_eqb (Customer._id c) id) (customers (sanity w))
    then (Ok tt, customer_linked id stripeCustomerId clerkUserId name w)
    else (Throw "document not found", w)).

(** One [tx.patch(id, p => p.dec({stock: amount}))] of a transaction. *)
Definition Patch : Type := string * option JS.number.

(** [dec({stock: amount})] on one document. An [undefined] amount is
    dropped when the mutation is serialised, so nothing is decremented;
    NaN serialises to [null] and the store rejects the mutation ([None]);
    a document without a stock field has nothing to decrement. *)
Definition dec_stock (amount : option JS.number) (p : ProductDoc.t) : option ProductDoc.t :=
  match amount with
  | None => Some p
  | Some JS.NaN => None
  | Some (JS.Num q) =>
      Some (ProductDoc.mk (ProductDoc.name p) (ProductDoc.price p)
                          ((λ s, s - q) <$> ProductDoc.stock p) (ProductDoc.image_url p))
  end.

(** A patch of a transaction; patching a missing document is an error. *)
Definition apply_patch (docs : option (gmap string ProductDoc.t)) (patch : Patch)
  : option (gmap string ProductDoc.t) :=
  m ← docs;
  p ← m !! patch.1;
  p' ← dec_stock patch.2 p;
  Some (<[patch.1 := p']> m).

Definition apply_transaction (tx : list Patch) (docs : gmap string ProductDoc.t)
  : option (gmap string ProductDoc.t) :=
  foldl apply_patch (Some docs) tx.

(** The store with its product documents replaced. *)
Definition stock_adjusted (docs : gmap string ProductDoc.t) (w : World) : World :=
  let s := sanity w in
  set_sanity (mkSanity (orders s) docs (customers s) (sanity_seq s)) w.

(** [transaction.commit()]: every patch applies, or none does. *)
Definition transaction_commit (tx : list Patch) : M unit :=
  await sanity_transaction (λ w,
    match apply_transaction tx (products (sanity w)) with
    | Some docs => (Ok tt, stock_adjusted docs w)
    | None => (Throw "transaction failed", w)
    end).

(** ** The payment provider's client *)

(** The parameters of [stripe.checkout.sessions.create]. *)
Module SessionCreateParams.
Record PriceData := mkPriceData {
  currency : string;
  product_data_name : string;
  product_data_images : list string;
  product_data_metadata_productId : string;
  unit_amount : Z;
}.
Record LineItem := mkLineItem {
  price_data : PriceData;
  quantity : Z;
}.
Record t := mk {
  mode : string;
  payment_method_types : list string;
  line_items : list LineItem;
  customer : string;
  allowed_countries : list string;
  metadata : Metadata.t;
  success_url : string;
  cancel_url : string;
}.
End SessionCreateParams.

(** [stripe.customers.list({email, limit})] *)
Definition stripe_customers_list_call (email : string) (limit : nat)
  : M (list StripeCustomer.t) :=
  await stripe_customers_list (λ w,
    (Ok (take limit (filter (λ c, StripeCustomer.email c = email)
                            (stripe_customers (stripe w)))), w)).

(** The customer object the provider makes for these parameters. *)
Definition new_stripe_customer (email name clerkUserId : string) (w : World)
  : StripeCustomer.t :=
  StripeCustomer.mk ("cus_" +:+ JS.toString (Z.of_nat (stripe_seq (stripe w))))
                    email name clerkUserId.

(** The provider after one more customer. *)
Definition stripe_customer_created (c : StripeCustomer.t) (w : World) : World :=
  let p := stripe w in
  set_stripe (mkStripe (c :: stripe_customers p) (sessions p) (S (stripe_seq p))) w.

(** [stripe.customers.create({email, name, metadata: {clerkUserId}})] *)
Definition stripe_customers_create_call (email name clerkUserId : string)
  : M StripeCustomer.t :=
  await stripe_customers_create (λ w,
    let c := new_stripe_customer email name clerkUserId w in
    (Ok c, stripe_customer_created c w)).

(** The provider prices a line as unit amount times quantity; the code
    configures neither discounts nor taxes nor shipping rates. *)
Definition provider_line (li : SessionCreateParams.LineItem) : LineItem.t :=
  LineItem.mk
    (Some (SessionCreateParams.product_data_name (SessionCreateParams.price_data li)))
    (Some (SessionCreateParams.quantity li))
    (SessionCreateParams.unit_amount (SessionCreateParams.price_data li)
       * SessionCreateParams.quantity li).

Definition sum_amounts (l : list LineItem.t) : Z :=
  foldr (λ li acc, LineItem.amount_total li + acc) 0 l.

(** [stripe.checkout.sessions.create(params)]. The stored session carries
    the id of the payment intent that will pay it. *)
Definition stripe_sessions_create_call (params : SessionCreateParams.t) : M Session.t :=
  await stripe_sessions_create (λ w,
    let p := stripe w in
    let n := JS.toString (Z.of_nat (stripe_seq p)) in
    let lines := provider_line <$> SessionCreateParams.line_items params in
    let s := Session.mk ("cs_" +:+ n) (Some ("https://checkout.stripe.com/c/pay/cs_" +:+ n))
               ("pi_" +:+ n) (Some (SessionCreateParams.metadata params))
               (Some (sum_amounts lines)) "unpaid"
               (Some (SessionCreateParams.customer params)) None lines in
    (Ok s, set_stripe (mkStripe (stripe_customers p) (<[Session.id s := s]> (sessions p))
                                (S (stripe_seq p))) w)).

(** [stripe.checkout.sessions.retrieve(id, {expand})] *)
Definition stripe_sessions_retrieve_call (sessionId : string) : M Session.t :=
  await stripe_sessions_retrieve (λ w,
    match sessions (stripe w) !! sessionId with
    | Some s => (Ok s, w)
    | None => (Throw "No such checkout.session", w)
    end).

(** A list call of the provider without a [limit] returns one page of at
    most ten objects. *)
Definition first_page {A} (objects : list A) : list A := take 10 objects.

(** [stripe.checkout.sessions.listLineItems(id)]: the [data] array of the
    answer. The code passes no [limit] and reads no further page, so these
    are the first ten lines of the session. *)
Definition stripe_listLineItems_call (sessionId : string) : M (list LineItem.t) :=
  await stripe_listLineItems (λ w,
    match sessions (stripe w) !! sessionId with
    | Some s => (Ok (first_page (Session.line_items s)), w)
    | None => (Throw "No such checkout.session", w)
    end).

(** ** [src/lib/actions/customer.ts] *)

(** Step 2 of [getOrCreateStripeCustomer]: the provider's customer with
    this email, created when there is none. *)
Definition resolve_stripe_customer (email name clerkUserId : string) : M string :=
  existingStripeCustomers ← stripe_customers_list_call email 1;
  match existingStripeCustomers with
  | sc :: _ => mret (StripeCustomer.id sc)
  | [] =>
      newStripeCustomer ← stripe_customers_create_call email name clerkUserId;
      mret (StripeCustomer.id newStripeCustomer)
  end.

(** Returns [(stripeCustomerId, sanityCustomerId)]. *)
Definition getOrCreateStripeCustomer (email name clerkUserId : string)
  : M (string * string) :=
  existingCustomer ← client_fetch (CUSTOMER_BY_EMAIL_QUERY email);
  match existingCustomer with
  | Some c =>
      if JS.truthy (Customer.stripeCustomerId c)
      then mret (JS.nullish (Customer.stripeCustomerId c) "", Customer._id c)
      else
        stripeCustomerId ← resolve_stripe_customer email name clerkUserId;
        writeClient_patch_customer (Customer._id c) stripeCustomerId clerkUserId name;;
        mret (stripeCustomerId, Customer._id c)
  | None =>
      stripeCustomerId ← resolve_stripe_customer email name clerkUserId;
      env ← ask;
      newSanityCustomer ← writeClient_create_customer (λ id,
        Customer.mk id email (Some name) (Some clerkUserId) (Some stripeCustomerId)
                    (Some (Date_toISOString env)));
      mret (stripeCustomerId, Customer._id newSanityCustomer)
  end.

(** ** [src/lib/actions/checkout.ts] *)

Record CheckoutResult := mkCheckoutResult {
  success : bool;
  url : option string;
  error : option string;
}.

(** An item that passed validation: the authoritative snapshot and the
    requested quantity. The client's name and price are not kept. *)
Record ValidatedItem := mkValidatedItem {
  product : Product.t;
  quantity : Z;
}.

(** The double-quote character of the messages. *)
Definition dquote : string := String (ascii_of_nat 34) EmptyString.

Definition quoted (s : string) : string := dquote +:+ s +:+ dquote.

(** A [string | null] inside a template literal. *)
Definition show_string (v : option string) : string := JS.nullish v "null".

Definition msg_unavailable (item : CartItem.t) : string :=
  "Product " +:+ quoted (CartItem.name item) +:+ " is no longer available".

Definition msg_out_of_stock (p : Product.t) : string :=
  quoted (show_string (Product.name p)) +:+ " is out of stock".

Definition msg_insufficient (p : Product.t) : string :=
  "Only " +:+ JS.show_number (Product.stock p) +:+ " of "
  +:+ quoted (show_string (Product.name p)) +:+ " available".

(** [products.find(p => p._id === item.productId)] *)
Definition find_product (products : list Product.t) (item : CartItem.t) : option Product.t :=
  List.find (λ p, str_eqb (Product._id p) (CartItem.productId item)) products.

(** One turn of the [for (const item of items)] loop of step 4, on the
    pair [(validationErrors, validatedItems)]. *)
Definition validate_item (products : list Product.t)
  (acc : list string * list ValidatedItem) (item : CartItem.t)
  : list string * list ValidatedItem :=
  match find_product products item with
  | None => (acc.1 ++ [msg_unavailable item], acc.2)
  | Some p =>
      if (JS.nullish (Product.stock p) 0 =? 0)%Z
      then (acc.1 ++ [msg_out_of_stock p], acc.2)
      else if (JS.nullish (Product.stock p) 0 <? CartItem.quantity item)%Z
      then (acc.1 ++ [msg_insufficient p], acc.2)
      else (acc.1, acc.2 ++ [mkValidatedItem p (CartItem.quantity item)])
  end.

Definition validate_cart (products : list Product.t) (items : list CartItem.t)
  : list string * list ValidatedItem :=
  foldl (validate_item products) ([], []) items.

(** Step 5: the provider's line item of a validated item. *)
Definition to_line_item (v : ValidatedItem) : SessionCreateParams.LineItem :=
  SessionCreateParams.mkLineItem
    (SessionCreateParams.mkPriceData
       "gbp"
       (JS.nullish (Product.name (product v)) "Product")
       (if JS.truthy (Product.image_url (product v))
        then [JS.nullish (Product.image_url (product v)) ""] else [])
       (Product._id (product v))
       (JS.Math_round (JS.mul (JS.nullish (Product.price (product v)) 0%Q) 100)))
    (quantity v).

(** Step 7: the metadata the webhook will read back. *)
Definition session_metadata (userId userEmail sanityCustomerId : string)
  (validatedItems : list ValidatedItem) : Metadata.t :=
  Metadata.mk (Some userId) (Some userEmail) (Some sanityCustomerId)
    (Some (JS.join "," ((λ i, Product._id (product i)) <$> validatedItems)))
    (Some (JS.join "," ((λ i, JS.toString (quantity i)) <$> validatedItems))).

Definition allowed_countries : list string :=
  ["GB"; "US"; "CA"; "AU"; "NZ"; "IE"; "DE"; "FR"; "ES"; "IT"; "NL"; "BE"; "AT";
   "CH"; "SE"; "NO"; "DK"; "FI"; "PT"; "PL"; "CZ"; "GR"; "HU"; "RO"; "BG"; "HR";
   "SI"; "SK"; "LT"; "LV"; "EE"; "LU"; "MT"; "CY"; "JP"; "SG"; "HK"; "KR"; "TW";
   "MY"; "TH"; "IN"; "AE"; "SA"; "IL"; "ZA"; "BR"; "MX"; "AR"; "CL"; "CO"].

(** [NEXT_PUBLIC_BASE_URL || (VERCEL_URL ? `https://${VERCEL_URL}` : null)
     || "http://localhost:3000"] *)
Definition baseUrl (env : Env) : string :=
  if JS.truthy (NEXT_PUBLIC_BASE_URL env) then JS.nullish (NEXT_PUBLIC_BASE_URL env) ""
  else if JS.truthy (VERCEL_URL env) then "https://" +:+ JS.nullish (VERCEL_URL env) ""
  else "http://localhost:3000".

Definition session_params (env : Env) (stripeCustomerId : string) (metadata : Metadata.t)
  (validatedItems : list ValidatedItem) : SessionCreateParams.t :=
  SessionCreateParams.mk "payment" ["card"] (to_line_item <$> validatedItems)
    stripeCustomerId allowed_countries metadata
    (baseUrl env +:+ "/checkout/success?session_id={CHECKOUT_SESSION_ID}")
    (baseUrl env +:+ "/checkout").

(** [`${user.firstName ?? ""} ${user.lastName ?? ""}`.trim() || userEmail] *)
Definition user_name (user : ClerkUser.t) (userEmail : string) : string :=
  match JS.trim (JS.nullish (ClerkUser.firstName user) "" +:+ " "
                 +:+ JS.nullish (ClerkUser.lastName user) "") with
  | EmptyString => userEmail
  | n => n
  end.

Definition failure (msg : string) : CheckoutResult :=
  mkCheckoutResult false None (Some msg).

(** The body of the [try] block of [createCheckoutSession]. *)
Definition createCheckoutSession_try (items : list CartItem.t) : M CheckoutResult :=
  env ← ask;
  userId ← await clerk_auth (λ w, (Ok (auth_userId env), w));
  user ← await clerk_currentUser (λ w, (Ok (clerk_user env), w));
  match userId, user with
  | Some (String _ _ as userId), Some user =>
      match items with
      | [] => mret (failure "Your cart is empty")
      | _ =>
          let productIds := CartItem.productId <$> items in
          products ← client_fetch (PRODUCTS_BY_IDS_QUERY productIds);
          let '(validationErrors, validatedItems) := validate_cart products items in
          match validationErrors with
          | _ :: _ => mret (failure (JS.join ". " validationErrors))
          | [] =>
              let userEmail := JS.nullish (head (ClerkUser.emailAddresses user)) "" in
              let userName := user_name user userEmail in
              ids ← getOrCreateStripeCustomer userEmail userName userId;
              let metadata := session_metadata userId userEmail ids.2 validatedItems in
              session ← stripe_sessions_create_call
                          (session_params env ids.1 metadata validatedItems);
              mret (mkCheckoutResult true (Session.url session) None)
          end
      end
  | _, _ => mret (failure "Please sign in to checkout")
  end.

Definition createCheckoutSession (items : list CartItem.t) : M CheckoutResult :=
  try_catch (createCheckoutSession_try items)
            (λ _, mret (failure "Something went wrong. Please try again.")).

(** What [getCheckoutSession] shows of a session. *)
Module SessionView.
Record line := mkLine {
  name : option string;
  quantity : option Z;
  amount : Z;
}.
Record t := mk {
  id : string;
  customerEmail : option string;
  customerName : option string;
  amountTotal : option Z;
  paymentStatus : string;
  shippingAddress : option Address.t;
  lineItems : list line;
}.
End SessionView.

(** The result of [getCheckoutSession]: [{success, error}] or
    [{success, session}]. *)
Module SessionResult.
Record t := mk {
  success : bool;
  error : option string;
  session : option SessionView.t;
}.
End SessionResult.

Definition session_view (s : Session.t) : SessionView.t :=
  SessionView.mk (Session.id s)
    (Session.customer_details s ≫= CustomerDetails.email)
    (Session.customer_details s ≫= CustomerDetails.name)
    (Session.amount_total s)
    (Session.payment_status s)
    (Session.customer_details s ≫= CustomerDetails.address)
    ((λ item, SessionView.mkLine (LineItem.description item) (LineItem.quantity item)
                                 (LineItem.amount_total item))
       <$> Session.line_items s).

(** [session.metadata?.clerkUserId] *)
Definition metadata_clerkUserId (s : Session.t) : option string :=
  Session.metadata s ≫= Metadata.clerkUserId.

Definition getCheckoutSession_try (sessionId : string) : M SessionResult.t :=
  env ← ask;
  userId ← await clerk_auth (λ w, (Ok (auth_userId env), w));
  match userId with
  | Some (String _ _ as userId) =>
      session ← stripe_sessions_retrieve_call sessionId;
      if bool_decide (metadata_clerkUserId session = Some userId)
      then mret (SessionResult.mk true None (Some (session_view session)))
      else mret (SessionResult.mk false (Some "Session not found") None)
  | _ => mret (SessionResult.mk false (Some "Not authenticated") None)
  end.

Definition getCheckoutSession (sessionId : string) : M SessionResult.t :=
  try_catch (getCheckoutSession_try sessionId)
            (λ _, mret (SessionResult.mk false (Some "Could not retrieve order details") None)).

(** ** [src/app/api/webhooks/stripe/route.ts] *)

Module Response.
Inductive body :=
| error_body (message : string)
| received_body.
Record t := mk {
  status : Z;
  json : body;
}.
End Response.

(** Pence to pounds. *)
Definition pounds (pence : Z) : Q := (inject_Z pence / 100)%Q.

(** [lineItems.data[index]?.amount_total ? amount_total / 100 : 0] *)
Definition price_at_purchase (lineItems : list LineItem.t) (index : nat) : Q :=
  match lineItems !! index with
  | Some li => if LineItem.amount_total li =? 0 then 0%Q else pounds (LineItem.amount_total li)
  | None => 0%Q
  end.

(** [productIds.map((productId, index) => ({...}))] *)
Definition order_items (productIds : list string) (quantities : list JS.number)
  (lineItems : list LineItem.t) : list OrderItem.t :=
  imap (λ index productId,
          OrderItem.mk ("item-" +:+ JS.toString (Z.of_nat index)) productId
                       (quantities !! index) (price_at_purchase lineItems index))
       productIds.

Definition order_address (session : Session.t) : option OrderAddress.t :=
  shippingAddress ← Session.customer_details session ≫= CustomerDetails.address;
  Some (OrderAddress.mk
          (JS.nullish (Session.customer_details session ≫= CustomerDetails.name) "")
          (JS.nullish (Address.line1 shippingAddress) "")
          (JS.nullish (Address.line2 shippingAddress) "")
          (JS.nullish (Address.city shippingAddress) "")
          (JS.nullish (Address.postal_code shippingAddress) "")
          (JS.nullish (Address.country shippingAddress) "")).

(** [userEmail ?? session.customer_details?.email ?? ""] *)
Definition order_email (userEmail : option string) (session : Session.t) : string :=
  JS.nullish userEmail
    (JS.nullish (Session.customer_details session ≫= CustomerDetails.email) "").

(** The patches of the stock transaction, one per product id in order. *)
Definition stock_transaction (productIds : list string) (quantities : list JS.number)
  : list Patch :=
  imap (λ i productId, (productId, quantities !! i)) productIds.

(** The three metadata fields the handler insists on. *)
Definition metadata_complete (md : Metadata.t) : bool :=
  JS.truthy (Metadata.clerkUserId md) && JS.truthy (Metadata.productIds md)
  && JS.truthy (Metadata.quantities md).

(** [session.metadata ?? {}] *)
Definition session_metadata_or_empty (session : Session.t) : Metadata.t :=
  JS.nullish (Session.metadata session) Metadata.empty.

(** [productIdsString.split(",")] *)
Definition decode_productIds (md : Metadata.t) : list string :=
  JS.split "," (JS.nullish (Metadata.productIds md) "").

(** [quantitiesString.split(",").map(Number)] *)
Definition decode_quantities (md : Metadata.t) : list JS.number :=
  JS.Number <$> JS.split "," (JS.nullish (Metadata.quantities md) "").

(** [`ORD-${Date.now().toString(36).toUpperCase()}-${Math.random()...}`] *)
Definition order_number (env : Env) : string :=
  "ORD-" +:+ Date_now_base36 env +:+ "-" +:+ Math_random_base36 env.

(** The document given to [writeClient.create], for the id the store
    chooses. *)
Definition new_order (env : Env) (session : Session.t) (lineItems : list LineItem.t)
  (id : string) : Order.t :=
  let md := session_metadata_or_empty session in
  Order.mk id (order_number env)
    (if JS.truthy (Metadata.sanityCustomerId md) then Metadata.sanityCustomerId md else None)
    (JS.nullish (Metadata.clerkUserId md) "")
    (order_email (Metadata.userEmail md) session)
    (order_items (decode_productIds md) (decode_quantities md) lineItems)
    (pounds (JS.nullish (Session.amount_total session) 0))
    "paid" (Session.payment_intent session) (order_address session) (Date_toISOString env).

(** The body of the [try] block of [handleCheckoutCompleted]. *)
Definition handleCheckoutCompleted_try (session : Session.t) : M unit :=
  let stripePaymentId := Session.payment_intent session in
  existingOrder ← client_fetch (ORDER_BY_STRIPE_PAYMENT_ID_QUERY stripePaymentId);
  match existingOrder with
  | Some _ => mret tt
  | None =>
      let md := session_metadata_or_empty session in
      if negb (metadata_complete md) then mret tt
      else
        let productIds := decode_productIds md in
        let quantities := decode_quantities md in
        lineItems ← stripe_listLineItems_call (Session.id session);
        env ← ask;
        order ← writeClient_create_order (new_order env session lineItems);
        transaction_commit (stock_transaction productIds quantities)
  end.

(** [catch (error) { console.error(...); throw error }] *)
Definition handleCheckoutCompleted (session : Session.t) : M unit :=
  try_catch (handleCheckoutCompleted_try session) throw.

Definition POST (body : string) (signature : option string) : M Response.t :=
  match signature with
  | Some (String _ _ as signature) =>
      env ← ask;
      match constructEvent env body signature (STRIPE_WEBHOOK_SECRET env) with
      | inl message =>
          mret (Response.mk 400 (Response.error_body ("Webhook Error: " +:+ message)))
      | inr event =>
          (if str_eqb (Event.type event) "checkout.session.completed"
           then handleCheckoutCompleted (Event.data_object event)
           else mret tt);;
          mret (Response.mk 200 Response.received_body)
      end
  | _ => mret (Response.mk 400 (Response.error_body "Missing stripe-signature header"))
  end.

(** What the provider sees: the framework answers 500 when the route
    handler throws. *)
Definition http_status (r : result Response.t) : Z :=
  match r with
  | Ok resp => Response.status resp
  | Throw _ => 500
  end.

(** ** A small shop, for concrete runs *)
Module Demo.

(** The SDK's check, reduced to its interface: an event is built only
    when the header is the tag of exactly this body under the secret. *)
Definition tag (secret body : string) : string := "v1=" +:+ secret +:+ "/" +:+ body.

Definition signed_event (parse : string → Event.t) (body signature secret : string)
  : string + Event.t :=
  if str_eqb signature (tag secret body) then inr (parse body)
  else inl "No signatures found matching the expected signature for payload".

Definition blank_session : Session.t :=
  Session.mk "cs_0" None "pi_0" None None "unpaid" None None [].

Definition parse_other (body : string) : Event.t :=
  Event.mk "customer.created" blank_session.

Definition ann : ClerkUser.t := ClerkUser.mk ["ann@shop.test"] (Some "Ann") (Some "Lee").

Definition all_up : Call → bool := λ _, false.

Definition env_of (userId : option string) (user : option ClerkUser.t)
  (down : Call → bool) (parse : string → Event.t) : Env :=
  mkEnv down userId user "MB2K9XQ1" "7F3A" "2026-03-01T10:00:00.000Z"
        None None "whsec_demo" (signed_event parse).

Definition env : Env := env_of (Some "user_ann") (Some ann) all_up parse_other.
Definition env_anonymous : Env := env_of None None all_up parse_other.
Definition env_bob : Env := env_of (Some "user_bob") (Some ann) all_up parse_other.

Definition chair : ProductDoc.t := ProductDoc.mk (Some "Chair") (Some (10 # 1)%Q) (Some 5) None.
Definition lamp : ProductDoc.t := ProductDoc.mk (Some "Lamp") (Some (1999 # 100)%Q) (Some 7) None.
Definition desk : ProductDoc.t := ProductDoc.mk (Some "Desk") (Some (120 # 1)%Q) (Some 4) None.
Definition sofa : ProductDoc.t := ProductDoc.mk (Some "Sofa") (Some (300 # 1)%Q) (Some 0) None.

Definition catalog : gmap string ProductDoc.t :=
  <["p1" := chair]> (<["p2" := lamp]> (<["p3" := desk]> (<["p4" := sofa]> ∅))).

Definition world : World := mkWorld (mkSanity [] catalog [] 0) (mkStripe [] ∅ 0).

(** One chair twice; the client claims a price of one penny. *)
Definition cart : list CartItem.t := [CartItem.mk "p1" "Chair" (1 # 100)%Q 2 None].

(** The shop after Ann's checkout of [cart], and the session it made. *)
Definition world_checked_out : World := (createCheckoutSession cart env world).2.

Definition session : Session.t :=
  default blank_session (sessions (stripe world_checked_out) !! "cs_1").

(** The provider's delivery for Ann's paid session: the body, its
    signature header, and the same body with one byte altered. *)
Definition parse_checkout (body : string) : Event.t :=
  Event.mk "checkout.session.completed" session.

Definition env_webhook : Env := env_of None None all_up parse_checkout.
Definition body : string := "{evt_1:checkout.session.completed:cs_1}".
Definition tampered_body : string := "{evt_1:checkout.session.completed:cs_2}".
Definition signature : string := tag "whsec_demo" body.

(** The shop after the first delivery of that event. *)
Definition world_paid : World := (handleCheckoutCompleted session env_webhook world_checked_out).2.

(** A run in which the store refuses transactions. *)
Definition transactions_down (c : Call) : bool :=
  match c with
  | sanity_transaction => true
  | _ => false
  end.

Definition env_stock_down : Env := env_of None None transactions_down parse_checkout.

(** An event of another kind, and its header. *)
Definition env_other_kind : Env := env_of None None all_up parse_other.

(** A session whose metadata lacks the email and the customer record id. *)
Definition session_without_email : Session.t :=
  Session.mk "cs_1" None "pi_1"
    (Some (Metadata.mk (Some "user_ann") None None (Some "p1") (Some "2")))
    (Some 2000) "paid" None None [].

(** A session without metadata. *)
Definition session_without_metadata : Session.t :=
  Session.mk "cs_1" None "pi_1" None (Some 2000) "paid" None None [].

(** A cart with one problem of each kind, and one good item. *)
Definition ghost : CartItem.t := CartItem.mk "p9" "Ghost" (5 # 1)%Q 1 None.

Definition cart_with_problems : list CartItem.t :=
  [ghost;
   CartItem.mk "p4" "Sofa" (300 # 1)%Q 1 None;
   CartItem.mk "p3" "Desk" (120 # 1)%Q 9 None;
   CartItem.mk "p1" "Chair" (10 # 1)%Q 1 None].

(** The cart of [cart] with the catalog's own price in the price field. *)
Definition cart_honest : list CartItem.t := [CartItem.mk "p1" "Chair" (10 # 1)%Q 2 None].

(** Three distinct products, with quantities 2, 1 and 4. *)
Definition cart_of_three : list CartItem.t :=
  [CartItem.mk "p1" "Chair" (10 # 1)%Q 2 None;
   CartItem.mk "p2" "Lamp" (1999 # 100)%Q 1 None;
   CartItem.mk "p3" "Desk" (120 # 1)%Q 4 None].

Definition snapshots_of_three : list Product.t :=
  PRODUCTS_BY_IDS_QUERY (CartItem.productId <$> cart_of_three) (sanity world).

Definition snapshots_with_problems : list Product.t :=
  PRODUCTS_BY_IDS_QUERY (CartItem.productId <$> cart_with_problems) (sanity world).

(** A run in which the content store refuses to create documents. *)
Definition creates_down (c : Call) : bool :=
  match c with
  | sanity_create => true
  | _ => false
  end.

Definition env_creates_down : Env := env_of (Some "user_ann") (Some ann) creates_down parse_other.

(** Ann's first attempt, which creates the provider's customer and then
    fails to persist the link, and the retry. *)
Definition world_after_crash : World :=
  (getOrCreateStripeCustomer "ann@shop.test" "Ann Lee" "user_ann" env_creates_down world).2.

Definition world_after_retry : World :=
  (getOrCreateStripeCustomer "ann@shop.test" "Ann Lee" "user_ann" env world_after_crash).2.

(** Ann checks out under one email, then under another. *)
Definition world_first_email : World :=
  (getOrCreateStripeCustomer "ann@shop.test" "Ann Lee" "user_ann" env world).2.

Definition world_second_email : World :=
  (getOrCreateStripeCustomer "ann@work.test" "Ann Lee" "user_ann" env world_first_email).2.

End Demo.

(** ** Repeated delivery of one event *)

(** The handler run once per environment, in sequence, on the same
    session: the outcomes and the final state. *)
Fixpoint deliveries (envs : list Env) (session : Session.t) (w : World)
  : list (result unit) * World :=
  match envs with
  | [] => ([], w)
  | env :: rest =>
      let r := handleCheckoutCompleted session env w in
      let rs := deliveries rest session r.2 in
      (r.1 :: rs.1, rs.2)
  end.

(** The orders of a payment. *)
Definition orders_of_payment (stripePaymentId : string) (w : World) : list Order.t :=
  filter (λ o, Order.stripePaymentId o = stripePaymentId) (orders (sanity w)).

(** ** Vocabulary of the webhook's contract *)

(** The request carries a signature header that the SDK accepts for
    exactly this body. *)
Definition verified (env : Env) (body : string) (signature : option string)
  (event : Event.t) : Prop :=
  ∃ sig, signature = Some sig ∧ sig ≠ ""
         ∧ constructEvent env body sig (STRIPE_WEBHOOK_SECRET env) = inr event.

(** The header is missing (or empty), or the SDK rejects it for this body. *)
Definition signature_invalid (env : Env) (body : string) (signature : option string) : Prop :=
  JS.truthy signature = false
  ∨ ∃ sig message, signature = Some sig
       ∧ constructEvent env body sig (STRIPE_WEBHOOK_SECRET env) = inl message.

(** What is assumed of the SDK when a body is altered under an unaltered
    header: a signature accepted for one body is accepted for no other. *)
Definition signature_binds_body (env : Env) : Prop :=
  ∀ body body' sig event,
    constructEvent env body sig (STRIPE_WEBHOOK_SECRET env) = inr event →
    body' ≠ body →
    ∃ message, constructEvent env body' sig (STRIPE_WEBHOOK_SECRET env) = inl message.

(** An awaited call of the handler rejects: the idempotency lookup, or,
    for a new payment with complete metadata, the line-item listing, the
    order creation or the stock transaction. *)
Definition materialization_error (env : Env) (w : World) (session : Session.t) : Prop :=
  let md := session_metadata_or_empty session in
  unavailable env sanity_fetch = true
  ∨ (ORDER_BY_STRIPE_PAYMENT_ID_QUERY (Session.payment_intent session) (sanity w) = None
     ∧ metadata_complete md = true
     ∧ (unavailable env stripe_listLineItems = true
        ∨ sessions (stripe w) !! Session.id session = None
        ∨ unavailable env sanity_create = true
        ∨ unavailable env sanity_transaction = true
        ∨ apply_transaction (stock_transaction (decode_productIds md) (decode_quantities md))
                            (products (sanity w)) = None)).

(** ** The validator's contract, in the specification's words *)
Module Spec.

Inductive ValidationFailure :=
| ProductUnavailable
| OutOfStock (p : Product.t)
| InsufficientStock (p : Product.t).

(** The verdict on one cart item against the snapshots: unavailable
    without a matching snapshot, out of stock when the snapshot stock is
    0 (or absent), insufficient when the requested quantity exceeds it. *)
Definition check_item (products : list Product.t) (item : CartItem.t)
  : ValidationFailure + ValidatedItem :=
  match find_product products item with
  | None => inl ProductUnavailable
  | Some p =>
      if decide (JS.nullish (Product.stock p) 0 = 0) then inl (OutOfStock p)
      else if decide (CartItem.quantity item > JS.nullish (Product.stock p) 0)
      then inl (InsufficientStock p)
      else inr (mkValidatedItem p (CartItem.quantity item))
  end.

Definition failure_message (item : CartItem.t) (f : ValidationFailure) : string :=
  match f with
  | ProductUnavailable => msg_unavailable item
  | OutOfStock p => msg_out_of_stock p
  | InsufficientStock p => msg_insufficient p
  end.

(** Every failure of the batch, in cart order. *)
Definition failures (products : list Product.t) (items : list CartItem.t) : list string :=
  omap (λ item, match check_item products item with
                | inl f => Some (failure_message item f)
                | inr _ => None
                end) items.

(** The items that pass, in cart order. *)
Definition validated (products : list Product.t) (items : list CartItem.t)
  : list ValidatedItem :=
  omap (λ item, match check_item products item with
                | inl _ => None
                | inr v => Some v
                end) items.

End Spec.

(** Two cart items that differ at most in the client-supplied price. *)
Definition same_but_price (a b : CartItem.t) : Prop :=
  CartItem.productId a = CartItem.productId b
  ∧ CartItem.name a = CartItem.name b
  ∧ CartItem.quantity a = CartItem.quantity b
  ∧ CartItem.image a = CartItem.image b.

(** Whether a string holds the character. *)
Fixpoint has_char (c : ascii) (s : string) : bool :=
  match s with
  | EmptyString => false
  | String c' s' => Ascii.eqb c' c || has_char c s'
  end.

(** Document ids of the content store hold no comma. *)
Definition comma_free (s : string) : Prop := has_char "," s = false.

(** ** Totals of an order *)

(** The number a stored quantity denotes ([undefined] and NaN: none). *)
Definition quantity_value (q : option JS.number) : Q :=
  match q with
  | Some (JS.Num z) => inject_Z z
  | _ => 0%Q
  end.

(** The sum over the line items of [priceAtPurchase × quantity]. *)
Definition items_total (items : list OrderItem.t) : Q :=
  foldr (λ item acc,
           (OrderItem.priceAtPurchase item * quantity_value (OrderItem.quantity item) + acc)%Q)
        0%Q items.

(** ** Customer records, per email *)

(** The customer documents of the content store with this email. *)
Definition sanity_customers_with (email : string) (w : World) : list Customer.t :=
  filter (λ c, Customer.email c = email) (customers (sanity w)).

(** The provider's customers with this email, newest first. *)
Definition stripe_customers_with (email : string) (w : World) : list StripeCustomer.t :=
  filter (λ c, StripeCustomer.email c = email) (stripe_customers (stripe w)).

(** The customer documents of the content store of this buyer. *)
Definition sanity_customers_of (clerkUserId : string) (w : World) : list Customer.t :=
  filter (λ c, Customer.clerkUserId c = Some clerkUserId) (customers (sanity w)).

(** The provider hands out non-empty customer ids. *)
Definition stripe_ids_nonempty (w : World) : Prop :=
  Forall (λ c, StripeCustomer.id c ≠ "") (stripe_customers (stripe w)).

(** The customer document the action creates, for the id the store chooses. *)
Definition new_customer (env : Env) (email name clerkUserId stripeCustomerId : string)
  (w : World) : Customer.t :=
  Customer.mk (fresh_doc_id (sanity w)) email (Some name) (Some clerkUserId)
              (Some stripeCustomerId) (Some (Date_toISOString env)).

(** * The rest of the code the reconciliation flow leans on *)

(** ** [src/lib/constants/stock.ts] *)

Definition LOW_STOCK_THRESHOLD : Z := 5.

(** [stock > 0 && stock <= LOW_STOCK_THRESHOLD] *)
Definition isLowStock (stock : Z) : bool := (0 <? stock) && (stock <=? LOW_STOCK_THRESHOLD).

(** [stock <= 0] *)
Definition isOutOfStock (stock : Z) : bool := stock <=? 0.

(** The union ["out_of_stock" | "low_stock" | "in_stock" | "unknown"]. *)
Inductive StockStatus :=
| out_of_stock
| low_stock
| in_stock
| unknown.

Definition getStockStatus (stock : option Z) : StockStatus :=
  match stock with
  | None => unknown
  | Some stock =>
      if stock <=? 0 then out_of_stock
      else if stock <=? LOW_STOCK_THRESHOLD then low_stock
      else in_stock
  end.

Definition getStockMessage (stock : option Z) : string :=
  match getStockStatus stock with
  | out_of_stock => "OUT OF STOCK - Currently unavailable"
  | low_stock => "LOW STOCK - Only " +:+ JS.show_number stock +:+ " left"
  | in_stock => "In stock (" +:+ JS.show_number stock +:+ " available)"
  | unknown => "Stock status unknown"
  end.

(** ** The inventory queries of [src/sanity/queries/products.ts] *)

(** A comparison with a missing value is [null], which a filter drops. *)
Definition stock_satisfies (test : Z → bool) (doc : ProductDoc.t) : bool :=
  match ProductDoc.stock doc with
  | Some stock => test stock
  | None => false
  end.

(** [order(stock asc)] on documents that have a stock. *)
Definition stock_le (a b : string * ProductDoc.t) : Prop :=
  JS.nullish (ProductDoc.stock a.2) 0 ≤ JS.nullish (ProductDoc.stock b.2) 0.

#[global] Instance stock_le_dec : RelDecision stock_le.
Proof. intros a b. unfold stock_le. apply _. Defined.

(** [*[_type == "product" && stock > 0 && stock <= ${LOW_STOCK_THRESHOLD}]
      | order(stock asc) {_id, name, stock, ...}] as (id, document) pairs. *)
Definition LOW_STOCK_PRODUCTS_QUERY (s : Sanity) : list (string * ProductDoc.t) :=
  merge_sort stock_le
    (map_to_list (filter (λ kv, stock_satisfies
                                  (λ stock, (0 <? stock) && (stock <=? LOW_STOCK_THRESHOLD))
                                  kv.2 = true)
                         (products s))).

(** ** The order status table ([src/unnamed/part_001]) *)

(** [OrderStatusConfig]; the icon is the component's name. Strings are
    byte strings, so an emoji is its UTF-8 bytes. *)
Module OrderStatusConfig.
Record t := mk {
  value : string;
  label : string;
  color : string;
  icon : string;
  emoji : string;
  iconColor : string;
  iconBgColor : string;
}.
End OrderStatusConfig.

(** The object literal [ORDER_STATUS_CONFIG]: its own keys, in order. *)
Definition ORDER_STATUS_CONFIG : list (string * OrderStatusConfig.t) :=
  [("paid", OrderStatusConfig.mk "paid" "Paid" "bg-green-100 text-green-800" "CreditCard"
              "✅" "text-emerald-600 dark:text-emerald-400"
              "bg-emerald-100 dark:bg-emerald-900/30");
   ("shipped", OrderStatusConfig.mk "shipped" "Shipped" "bg-blue-100 text-blue-800" "Truck"
                 "📦" "text-blue-600 dark:text-blue-400" "bg-blue-100 dark:bg-blue-900/30");
   ("delivered", OrderStatusConfig.mk "delivered" "Delivered" "bg-zinc-100 text-zinc-800"
                   "Package" "🎉" "text-emerald-600 dark:text-emerald-400"
                   "bg-emerald-100 dark:bg-emerald-900/30");
   ("cancelled", OrderStatusConfig.mk "cancelled" "Cancelled" "bg-red-100 text-red-800"
                   "XCircle" "❌" "text-red-600 dark:text-red-400"
                   "bg-red-100 dark:bg-red-900/30")].

(** The property names every object literal inherits from
    [Object.prototype]; each holds a value that is neither [null] nor
    [undefined]. *)
Definition Object_prototype_keys : list string :=
  ["constructor"; "toString"; "toLocaleString"; "valueOf"; "hasOwnProperty";
   "isPrototypeOf"; "propertyIsEnumerable"; "__proto__"; "__defineGetter__";
   "__defineSetter__"; "__lookupGetter__"; "__lookupSetter__"].

(** What [ORDER_STATUS_CONFIG[key]] evaluates to. *)
Inductive Property :=
| own (c : OrderStatusConfig.t)
| inherited (name : string)
| undefined.

(** The key a [string | null | undefined] subscript is converted to. *)
Definition property_key (status : option string) : string := JS.nullish status "undefined".

Definition get_status_property (key : string) : Property :=
  match List.find (λ kv, str_eqb kv.1 key) ORDER_STATUS_CONFIG with
  | Some kv => own kv.2
  | None => if bool_decide (key ∈ Object_prototype_keys) then inherited key else undefined
  end.

(** [ORDER_STATUS_CONFIG.paid] *)
Definition paid_config : OrderStatusConfig.t :=
  match get_status_property "paid" with
  | own c => c
  | _ => OrderStatusConfig.mk "" "" "" "" "" "" ""
  end.

(** [Object.keys(ORDER_STATUS_CONFIG)] *)
Definition ORDER_STATUS_VALUES : list string := ORDER_STATUS_CONFIG.*1.

(** The label read off [ORDER_STATUS_CONFIG[value]] in a template or an
    object literal; [None] is [undefined]. *)
Definition property_label (p : Property) : option string :=
  match p with
  | own c => Some (OrderStatusConfig.label c)
  | _ => None
  end.

Definition property_emoji (p : Property) : option string :=
  match p with
  | own c => Some (OrderStatusConfig.emoji c)
  | _ => None
  end.

(** [{value, label}] *)
Definition ORDER_STATUS_TABS : list (string * option string) :=
  ("all", Some "All")
  :: ((λ value, (value, property_label (get_status_property value))) <$> ORDER_STATUS_VALUES).

(** [{title, value}] *)
Definition ORDER_STATUS_SANITY_LIST : list (option string * string) :=
  (λ value, (property_label (get_status_property value), value)) <$> ORDER_STATUS_VALUES.

(** [ORDER_STATUS_CONFIG[status] ?? ORDER_STATUS_CONFIG.paid] *)
Definition getOrderStatus (status : option string) : Property :=
  match get_status_property (property_key status) with
  | undefined => own paid_config
  | p => p
  end.

(** An [undefined] inside a template literal. *)
Definition show_undefined (v : option string) : string := JS.nullish v "undefined".

(** [`${config.emoji} ${config.label}`] *)
Definition getOrderStatusEmoji (status : option string) : string :=
  let config := getOrderStatus status in
  show_undefined (property_emoji config) +:+ " " +:+ show_undefined (property_label config).

(** ** [src/app/api/chat/route.ts] *)
Module Chat.

(** A parsed JSON value. An object keeps its members in source order; a
    repeated key is read at its last occurrence, as [JSON.parse] does. *)
#[local] Unset Elimination Schemes.
Inductive json :=
| JNull
| JBool (b : bool)
| JNumber (q : Q)
| JString (s : string)
| JArray (items : list json)
| JObject (members : list (string * json)).
#[local] Set Elimination Schemes.

(** Truthiness of a JSON value. *)
Definition truthy (v : json) : bool :=
  match v with
  | JNull => false
  | JBool b => b
  | JNumber q => negb (Qeq_bool q 0)
  | JString s => negb (str_eqb s "")
  | JArray _ | JObject _ => true
  end.

(** [v.messages] as the destructuring [{ messages } = v] reads it; only
    an object has such a member. *)
Definition get_messages (v : json) : option json :=
  match v with
  | JObject members => snd <$> List.find (λ kv, str_eqb kv.1 "messages") (rev members)
  | _ => None
  end.

(** The agent of [createShoppingAgent]; its code is outside [src]. *)
Definition Agent : Type := string.

(** What a call of [createAgentUIStreamResponse] does: it returns a
    promise that resolves to the streaming response, it returns a promise
    that rejects, or it throws before it returns. *)
Inductive StreamOutcome :=
| resolves
| rejects
| throws.

(** What a run reads from outside: the parsed body ([None]: the body is
    not JSON), the outcome of [auth()] ([None]: it throws), the agent
    factory ([None]: it throws) and the outcome of
    [createAgentUIStreamResponse]. *)
Record Env := mkEnv {
  request_json : option json;
  auth : option (option string);
  createShoppingAgent : option string → option Agent;
  createAgentUIStreamResponse : Agent → list json → StreamOutcome;
}.

(** The calls a run makes, in order. *)
Inductive Call :=
| called_auth
| called_createShoppingAgent (userId : option string)
| called_createAgentUIStreamResponse (agent : Agent) (uiMessages : list json).

(** The response: [errorResponse(message, status)] or the stream the
    library built for the agent and the messages. *)
Inductive Response :=
| errorResponse (message : string) (status : Z)
| stream (agent : Agent) (uiMessages : list json).

(** [const { messages } = body || {}] and the three tests on it. *)
Definition valid_messages (body : json) : option (list json) :=
  match get_messages (if truthy body then body else JObject []) with
  | Some (JArray (m :: ms)) => Some (m :: ms)
  | _ => None
  end.

(** How the promise of the handler settles: with a response, or
    rejected. *)
Inductive Settled :=
| responded (r : Response)
| rejected.

(** The route handler: how its promise settles and the calls it made.
    Step 5 returns the promise of [createAgentUIStreamResponse] without
    [await]: the handler settles as that promise does, and the outer
    [catch] is entered only when the call itself throws. *)
Definition POST (env : Env) : Settled * list Call :=
  match request_json env with
  | None => (responded (errorResponse "Invalid JSON" 400), [])
  | Some body =>
      match valid_messages body with
      | None => (responded (errorResponse "Missing or invalid messages" 400), [])
      | Some messages =>
          let userId := JS.nullish (auth env) None in
          match createShoppingAgent env userId with
          | None =>
              (responded (errorResponse "Service temporarily unavailable" 503),
               [called_auth; called_createShoppingAgent userId])
          | Some agent =>
              let calls := [called_auth; called_createShoppingAgent userId;
                            called_createAgentUIStreamResponse agent messages] in
              match createAgentUIStreamResponse env agent messages with
              | resolves => (responded (stream agent messages), calls)
              | rejects => (rejected, calls)
              | throws =>
                  (responded (errorResponse "Something went wrong. Please try again." 500),
                   calls)
              end
          end
      end
  end.

(** The status of a response; the library streams with 200. *)
Definition status (r : Response) : Z :=
  match r with
  | errorResponse _ s => s
  | stream _ _ => 200
  end.

(** A chat request with one message, in a run where [auth()] throws
    and the stream call has the given outcome. *)
Definition demo_body : json := JObject [("messages", JArray [JString "hi"])].

Definition demo_env (outcome : StreamOutcome) : Env :=
  mkEnv (Some demo_body) None (λ _, Some "agent") (λ _ _, outcome).

End Chat.

(** ** Checkout followed by the webhook *)

(** The session object the provider makes for these parameters. *)
Definition created_session (params : SessionCreateParams.t) (w : World) : Session.t :=
  let n := JS.toString (Z.of_nat (stripe_seq (stripe w))) in
  let lines := provider_line <$> SessionCreateParams.line_items params in
  Session.mk ("cs_" +:+ n) (Some ("https://checkout.stripe.com/c/pay/cs_" +:+ n))
             ("pi_" +:+ n) (Some (SessionCreateParams.metadata params))
             (Some (sum_amounts lines)) "unpaid"
             (Some (SessionCreateParams.customer params)) None lines.

(** The provider after one more session. *)
Definition session_created (s : Session.t) (w : World) : World :=
  let p := stripe w in
  set_stripe (mkStripe (stripe_customers p) (<[Session.id s := s]> (sessions p))
                       (S (stripe_seq p))) w.

(** The email and the name [createCheckoutSession] derives from the user. *)
Definition user_email (user : ClerkUser.t) : string :=
  JS.nullish (head (ClerkUser.emailAddresses user)) "".

(** Document ids of the content store are not empty and hold no comma. *)
Definition ids_well_formed (w : World) : Prop :=
  ∀ id doc, products (sanity w) !! id = Some doc → id ≠ "" ∧ comma_free id.

(** The product reference and the quantity of each line of an order. *)
Definition order_lines (o : Order.t) : list (string * option JS.number) :=
  (λ item, (OrderItem.product_ref item, OrderItem.quantity item)) <$> Order.items o.

(** The sum of the stored line prices. *)
Definition prices_total (items : list OrderItem.t) : Q :=
  foldr (λ item acc, (OrderItem.priceAtPurchase item + acc)%Q) 0%Q items.

(** ** The dashboard's counts *)




(** Ann's second purchase, after her first order was made: one lamp. *)
Module Demo2.

Definition cart_lamp : list CartItem.t := [CartItem.mk "p2" "Lamp" (1999 # 100)%Q 1 None].

Definition world_checked_out : World :=
  (createCheckoutSession cart_lamp Demo.env Demo.world_paid).2.

Definition session : Session.t :=
  default Demo.blank_session (sessions (stripe world_checked_out) !! "cs_2").

Definition world_paid : World :=
  (deliveries [Demo.env_webhook; Demo.env_webhook] session world_checked_out).2.

End Demo2.

(** A cart of eleven lines, one chair each, checked out by Ann. *)
Module Demo3.

Definition cart_eleven : list CartItem.t :=
  replicate 11 (CartItem.mk "p1" "Chair" (10 # 1)%Q 1 None).

Definition world_checked_out : World :=
  (createCheckoutSession cart_eleven Demo.env Demo.world).2.

Definition session : Session.t :=
  default Demo.blank_session (sessions (stripe world_checked_out) !! "cs_1").

End Demo3.

(** * Properties *)

(** Unfolding the monad of a run. *)
Ltac run :=
  unfold mbind, M_bind, mret, M_ret, ask, await, throw, try_catch in *; simpl in *.

Lemma truthy_Some (v : option string) :
  JS.truthy v = true → ∃ c s, v = Some (String c s).
Proof. destruct v as [[|c s]|]; simpl; try discriminate. eauto. Qed.

Lemma truthy_false (v : option string) :
  JS.truthy v = false → v = None ∨ v = Some "".
Proof. destruct v as [[|c s]|]; simpl; try discriminate; auto. Qed.

(** ** getCheckoutSession *)

Section GetCheckoutSession.
Variables (env : Env) (w : World) (sessionId : string).

Lemma getCheckoutSession_total :
  ∃ res, getCheckoutSession sessionId env w = (Ok res, w).
Proof.
  unfold getCheckoutSession, getCheckoutSession_try, stripe_sessions_retrieve_call. run.
  destruct (unavailable env clerk_auth); [eauto|].
  destruct (auth_userId env) as [[|c u]|]; [eauto| |eauto].
  destruct (unavailable env stripe_sessions_retrieve); [eauto|].
  destruct (sessions (stripe w) !! sessionId); [|eauto].
  case_bool_decide; eauto.
Qed.

Lemma getCheckoutSession_unauthenticated :
  unavailable env clerk_auth = false →
  JS.truthy (auth_userId env) = false →
  getCheckoutSession sessionId env w
  = (Ok (SessionResult.mk false (Some "Not authenticated") None), w).
Proof.
  intros Hup Hno.
  unfold getCheckoutSession, getCheckoutSession_try. run. rewrite Hup.
  destruct (truthy_false _ Hno) as [-> | ->]; reflexivity.
Qed.

Lemma getCheckoutSession_retrieved (userId : string) (s : Session.t) :
  unavailable env clerk_auth = false →
  unavailable env stripe_sessions_retrieve = false →
  auth_userId env = Some userId → userId ≠ "" →
  sessions (stripe w) !! sessionId = Some s →
  getCheckoutSession sessionId env w
  = (Ok (if bool_decide (metadata_clerkUserId s = Some userId)
         then SessionResult.mk true None (Some (session_view s))
         else SessionResult.mk false (Some "Session not found") None), w).
Proof.
  intros Hauth Hret Hu Hne Hs.
  unfold getCheckoutSession, getCheckoutSession_try, stripe_sessions_retrieve_call. run.
  rewrite Hauth, Hu. destruct userId as [|c u]; [done|].
  rewrite Hret, Hs. case_bool_decide; reflexivity.
Qed.

Lemma getCheckoutSession_discloses (res : SessionResult.t) (w' : World) :
  getCheckoutSession sessionId env w = (Ok res, w') →
  SessionResult.session res ≠ None →
  ∃ userId s,
    auth_userId env = Some userId ∧ userId ≠ ""
    ∧ sessions (stripe w) !! sessionId = Some s
    ∧ metadata_clerkUserId s = Some userId
    ∧ res = SessionResult.mk true None (Some (session_view s)).
Proof.
  unfold getCheckoutSession, getCheckoutSession_try, stripe_sessions_retrieve_call. run.
  destruct (unavailable env clerk_auth); [intros [= <- <-]; done|].
  destruct (auth_userId env) as [[|c u]|] eqn:Hu;
    [intros [= <- <-]; done| |intros [= <- <-]; done].
  destruct (unavailable env stripe_sessions_retrieve); [intros [= <- <-]; done|].
  destruct (sessions (stripe w) !! sessionId) as [s|] eqn:Hs; [|intros [= <- <-]; done].
  case_bool_decide as Hown; intros [= <- <-] Hd; [|done].
  exists (String c u), s. done.
Qed.

End GetCheckoutSession.

(** C10. [getCheckoutSession] enforces ownership of the session it
    retrieves: whatever the session id, the result carries session
    details only when the caller is signed in and the session's metadata
    [clerkUserId] is the caller's user id; a caller who is not signed in
    gets the failure "Not authenticated"; a signed-in caller whose id
    differs from the session's [clerkUserId] gets the failure "Session
    not found" with no session data; the owner gets the details. The
    call never throws and writes nothing. *)
Theorem getCheckoutSession_enforces_ownership (env : Env) (w : World) (sessionId : string) :
  (∃ res, getCheckoutSession sessionId env w = (Ok res, w))
  ∧ (∀ res w', getCheckoutSession sessionId env w = (Ok res, w') →
       SessionResult.session res ≠ None →
       ∃ userId s,
         auth_userId env = Some userId ∧ userId ≠ ""
         ∧ sessions (stripe w) !! sessionId = Some s
         ∧ metadata_clerkUserId s = Some userId
         ∧ res = SessionResult.mk true None (Some (session_view s)))
  ∧ (unavailable env clerk_auth = false →
     JS.truthy (auth_userId env) = false →
     getCheckoutSession sessionId env w
     = (Ok (SessionResult.mk false (Some "Not authenticated") None), w))
  ∧ (∀ userId s,
       unavailable env clerk_auth = false →
       unavailable env stripe_sessions_retrieve = false →
       auth_userId env = Some userId → userId ≠ "" →
       sessions (stripe w) !! sessionId = Some s →
       metadata_clerkUserId s ≠ Some userId →
       getCheckoutSession sessionId env w
       = (Ok (SessionResult.mk false (Some "Session not found") None), w))
  ∧ (∀ userId s,
       unavailable env clerk_auth = false →
       unavailable env stripe_sessions_retrieve = false →
       auth_userId env = Some userId → userId ≠ "" →
       sessions (stripe w) !! sessionId = Some s →
       metadata_clerkUserId s = Some userId →
       getCheckoutSession sessionId env w
       = (Ok (SessionResult.mk true None (Some (session_view s))), w)).
Proof.
  split; [apply getCheckoutSession_total|].
  split; [apply getCheckoutSession_discloses|].
  split; [apply getCheckoutSession_unauthenticated|].
  split; intros userId s Ha Hr Hu Hne Hs Hm;
    rewrite (getCheckoutSession_retrieved env w sessionId userId s Ha Hr Hu Hne Hs);
    case_bool_decide; done.
Qed.

(** The three callers of Ann's session: nobody, Bob, and Ann. *)
Lemma getCheckoutSession_enforces_ownership_witness :
  getCheckoutSession "cs_1" Demo.env_anonymous Demo.world_checked_out
  = (Ok (SessionResult.mk false (Some "Not authenticated") None), Demo.world_checked_out)
  ∧ getCheckoutSession "cs_1" Demo.env_bob Demo.world_checked_out
    = (Ok (SessionResult.mk false (Some "Session not found") None), Demo.world_checked_out)
  ∧ getCheckoutSession "cs_1" Demo.env Demo.world_checked_out
    = (Ok (SessionResult.mk true None (Some (session_view Demo.session))),
       Demo.world_checked_out).
Proof.
  split; [|split].
  - apply (getCheckoutSession_enforces_ownership
             Demo.env_anonymous Demo.world_checked_out "cs_1"); reflexivity.
  - apply (getCheckoutSession_enforces_ownership
             Demo.env_bob Demo.world_checked_out "cs_1") with (userId := "user_bob")
                                                             (s := Demo.session);
      try reflexivity; vm_compute; discriminate.
  - apply (getCheckoutSession_enforces_ownership
             Demo.env Demo.world_checked_out "cs_1") with (userId := "user_ann")
                                                         (s := Demo.session);
      try reflexivity; discriminate.
Defined.

(** ** handleCheckoutCompleted, case by case *)

Lemma products_order_created (o : Order.t) (w : World) :
  products (sanity (order_created o w)) = products (sanity w).
Proof. reflexivity. Qed.

Lemma orders_order_created (o : Order.t) (w : World) :
  orders (sanity (order_created o w)) = orders (sanity w) ++ [o].
Proof. reflexivity. Qed.

Lemma orders_stock_adjusted (docs : gmap string ProductDoc.t) (w : World) :
  orders (sanity (stock_adjusted docs w)) = orders (sanity w).
Proof. reflexivity. Qed.

Lemma products_stock_adjusted (docs : gmap string ProductDoc.t) (w : World) :
  products (sanity (stock_adjusted docs w)) = docs.
Proof. reflexivity. Qed.

Section HandleCheckoutCompleted.
Variables (env : Env) (w : World) (session : Session.t).

Let md := session_metadata_or_empty session.
Let tx := stock_transaction (decode_productIds md) (decode_quantities md).
Let existing := ORDER_BY_STRIPE_PAYMENT_ID_QUERY (Session.payment_intent session) (sanity w).

Lemma handle_fetch_down :
  unavailable env sanity_fetch = true →
  handleCheckoutCompleted session env w = (Throw "service unavailable", w).
Proof.
  intros H. unfold handleCheckoutCompleted, handleCheckoutCompleted_try, client_fetch.
  run. by rewrite H.
Qed.

Lemma handle_deduplicated (id : string) :
  unavailable env sanity_fetch = false →
  existing = Some id →
  handleCheckoutCompleted session env w = (Ok tt, w).
Proof.
  intros H He. unfold handleCheckoutCompleted, handleCheckoutCompleted_try, client_fetch.
  run. rewrite H. fold existing. by rewrite He.
Qed.

Lemma handle_incomplete :
  unavailable env sanity_fetch = false →
  existing = None →
  metadata_complete md = false →
  handleCheckoutCompleted session env w = (Ok tt, w).
Proof.
  intros H He Hm. unfold handleCheckoutCompleted, handleCheckoutCompleted_try, client_fetch.
  run. rewrite H. fold existing. rewrite He. fold md. by rewrite Hm.
Qed.

Lemma handle_listing_fails :
  unavailable env sanity_fetch = false →
  existing = None →
  metadata_complete md = true →
  unavailable env stripe_listLineItems = true
  ∨ sessions (stripe w) !! Session.id session = None →
  ∃ e, handleCheckoutCompleted session env w = (Throw e, w).
Proof.
  intros H He Hm Hl.
  unfold handleCheckoutCompleted, handleCheckoutCompleted_try, client_fetch,
    stripe_listLineItems_call.
  run. rewrite H. fold existing. rewrite He. fold md. rewrite Hm. simpl.
  destruct (unavailable env stripe_listLineItems); [eauto|].
  destruct Hl as [Hl | Hl]; [done|rewrite Hl; eauto].
Qed.

Lemma handle_create_fails (s : Session.t) :
  unavailable env sanity_fetch = false →
  existing = None →
  metadata_complete md = true →
  unavailable env stripe_listLineItems = false →
  sessions (stripe w) !! Session.id session = Some s →
  unavailable env sanity_create = true →
  ∃ e, handleCheckoutCompleted session env w = (Throw e, w).
Proof.
  intros H He Hm Hl Hs Hc.
  unfold handleCheckoutCompleted, handleCheckoutCompleted_try, client_fetch,
    stripe_listLineItems_call, writeClient_create_order.
  run. rewrite H. fold existing. rewrite He. fold md. rewrite Hm. simpl.
  rewrite Hl, Hs, Hc. eauto.
Qed.

Lemma handle_commit_fails (s : Session.t) :
  unavailable env sanity_fetch = false →
  existing = None →
  metadata_complete md = true →
  unavailable env stripe_listLineItems = false →
  sessions (stripe w) !! Session.id session = Some s →
  unavailable env sanity_create = false →
  unavailable env sanity_transaction = true
  ∨ apply_transaction tx (products (sanity w)) = None →
  ∃ e, handleCheckoutCompleted session env w
       = (Throw e, order_created (new_order env session (first_page (Session.line_items s))
                                            (fresh_doc_id (sanity w))) w).
Proof.
  intros H He Hm Hl Hs Hc Ht.
  unfold handleCheckoutCompleted, handleCheckoutCompleted_try, client_fetch,
    stripe_listLineItems_call, writeClient_create_order, transaction_commit.
  run. rewrite H. fold existing. rewrite He. fold md. rewrite Hm. simpl.
  rewrite Hl, Hs, Hc.
  destruct (unavailable env sanity_transaction); [eauto|].
  destruct Ht as [Ht | Ht]; [done|]. fold tx.
  rewrite products_order_created, Ht. eauto.
Qed.

Lemma handle_materialized (s : Session.t) (docs : gmap string ProductDoc.t) :
  unavailable env sanity_fetch = false →
  existing = None →
  metadata_complete md = true →
  unavailable env stripe_listLineItems = false →
  sessions (stripe w) !! Session.id session = Some s →
  unavailable env sanity_create = false →
  unavailable env sanity_transaction = false →
  apply_transaction tx (products (sanity w)) = Some docs →
  handleCheckoutCompleted session env w
  = (Ok tt, stock_adjusted docs
              (order_created (new_order env session (first_page (Session.line_items s))
                                        (fresh_doc_id (sanity w))) w)).
Proof.
  intros H He Hm Hl Hs Hc Hu Ht.
  unfold handleCheckoutCompleted, handleCheckoutCompleted_try, client_fetch,
    stripe_listLineItems_call, writeClient_create_order, transaction_commit.
  run. rewrite H. fold existing. rewrite He. fold md. rewrite Hm. simpl.
  rewrite Hl, Hs, Hc, Hu. fold tx. by rewrite products_order_created, Ht.
Qed.

End HandleCheckoutCompleted.

Lemma handle_throws_iff (env : Env) (w : World) (session : Session.t) :
  materialization_error env w session
  ↔ ∃ e w', handleCheckoutCompleted session env w = (Throw e, w').
Proof.
  unfold materialization_error.
  destruct (unavailable env sanity_fetch) eqn:Hf.
  { split; [|by left]. intros _. rewrite handle_fetch_down by done. eauto. }
  destruct (ORDER_BY_STRIPE_PAYMENT_ID_QUERY (Session.payment_intent session) (sanity w))
    as [id|] eqn:He.
  { rewrite (handle_deduplicated env w session id) by done.
    split; [intros [|(? & _)]; done | intros (? & ? & [=])]. }
  destruct (metadata_complete (session_metadata_or_empty session)) eqn:Hm.
  2:{ rewrite handle_incomplete by done.
      split; [intros [|(_ & ? & _)]; done | intros (? & ? & [=])]. }
  destruct (unavailable env stripe_listLineItems) eqn:Hl.
  { split; [|by right; auto]. intros _.
    destruct (handle_listing_fails env w session) as [e ->]; eauto. }
  destruct (sessions (stripe w) !! Session.id session) as [s|] eqn:Hs.
  2:{ split; [|by right; auto]. intros _.
      destruct (handle_listing_fails env w session) as [e ->]; eauto. }
  destruct (unavailable env sanity_create) eqn:Hc.
  { split; [|by right; auto 10]. intros _.
    destruct (handle_create_fails env w session s) as [e ->]; eauto. }
  destruct (unavailable env sanity_transaction) eqn:Hu.
  { split; [|by right; auto 10]. intros _.
    destruct (handle_commit_fails env w session s) as [e ->]; eauto. }
  destruct (apply_transaction _ (products (sanity w))) as [docs|] eqn:Ht.
  - rewrite (handle_materialized env w session s docs) by done.
    split; [|intros (? & ? & [=])].
    intros [|(_ & _ & [|[|[|[|]]]])]; done.
  - split; [|by right; auto 10]. intros _.
    destruct (handle_commit_fails env w session s) as [e ->]; eauto.
Qed.

(** ** POST *)

Lemma POST_rejects (env : Env) (w : World) (body : string) (signature : option string) :
  signature_invalid env body signature →
  ∃ message,
    POST body signature env w = (Ok (Response.mk 400 (Response.error_body message)), w).
Proof.
  intros [Hno | (sig & message & -> & Hbad)]; unfold POST.
  - destruct (truthy_false _ Hno) as [-> | ->]; run; eauto.
  - destruct sig as [|c sig]; run; [eauto|]. rewrite Hbad. eauto.
Qed.

Lemma POST_verified (env : Env) (w : World) (body : string) (signature : option string)
  (event : Event.t) :
  verified env body signature event →
  POST body signature env w
  = if str_eqb (Event.type event) "checkout.session.completed"
    then match handleCheckoutCompleted (Event.data_object event) env w with
         | (Ok _, w') => (Ok (Response.mk 200 Response.received_body), w')
         | (Throw e, w') => (Throw e, w')
         end
    else (Ok (Response.mk 200 Response.received_body), w).
Proof.
  intros (sig & -> & Hne & Hok). unfold POST.
  destruct sig as [|c sig]; [done|]. unfold mbind at 1, M_bind, ask.
  rewrite Hok. destruct (str_eqb _ _); [|reflexivity].
  unfold mbind, M_bind.
  destruct (handleCheckoutCompleted _ env w) as [[[]|e] w']; reflexivity.
Qed.

Lemma Demo_signature_binds_body (userId : option string) (user : option ClerkUser.t)
  (down : Call → bool) (parse : string → Event.t) :
  signature_binds_body (Demo.env_of userId user down parse).
Proof.
  intros body body' sig event. simpl. unfold Demo.signed_event, str_eqb.
  case_bool_decide as Hsig; [|discriminate]. intros _ Hne.
  case_bool_decide as Hsig'; [|eauto].
  exfalso. apply Hne. subst sig. unfold Demo.tag in Hsig'.
  by simplify_eq.
Qed.

(** C3. The webhook performs no side effect for a request whose
    [stripe-signature] header is missing or does not verify against the
    raw body: the request is answered 400 and the stores are unchanged.
    In particular, under a signature check that binds the body, a body
    altered under the header of another body is rejected in this way. *)
Theorem POST_rejects_unverified_requests (env : Env) (w : World) (body : string)
  (signature : option string) :
  (signature_invalid env body signature →
   ∃ message,
     POST body signature env w = (Ok (Response.mk 400 (Response.error_body message)), w))
  ∧ (∀ body0 event,
       signature_binds_body env →
       verified env body0 signature event →
       body ≠ body0 →
       ∃ message,
         POST body signature env w
         = (Ok (Response.mk 400 (Response.error_body message)), w)).
Proof.
  split; [apply POST_rejects|].
  intros body0 event Hbind (sig & -> & Hne & Hok) Hdiff.
  apply POST_rejects. right.
  destruct (Hbind body0 body sig event Hok Hdiff) as [message Hbad]. eauto.
Qed.

(** No header at all, and the tampered body under the genuine header. *)
Lemma POST_rejects_unverified_requests_witness :
  (∃ message,
     POST Demo.body None Demo.env_webhook Demo.world_checked_out
     = (Ok (Response.mk 400 (Response.error_body message)), Demo.world_checked_out))
  ∧ verified Demo.env_webhook Demo.body (Some Demo.signature) (Demo.parse_checkout Demo.body)
  ∧ (∃ message,
       POST Demo.tampered_body (Some Demo.signature) Demo.env_webhook Demo.world_checked_out
       = (Ok (Response.mk 400 (Response.error_body message)), Demo.world_checked_out)).
Proof.
  assert (Hv : verified Demo.env_webhook Demo.body (Some Demo.signature)
                        (Demo.parse_checkout Demo.body)).
  { exists Demo.signature. split; [reflexivity|]. split; [discriminate|reflexivity]. }
  split; [|split; [exact Hv|]].
  - apply (POST_rejects_unverified_requests Demo.env_webhook Demo.world_checked_out
             Demo.body None).
    left. reflexivity.
  - apply (POST_rejects_unverified_requests Demo.env_webhook Demo.world_checked_out
             Demo.tampered_body (Some Demo.signature))
      with (body0 := Demo.body) (event := Demo.parse_checkout Demo.body).
    + apply Demo_signature_binds_body.
    + exact Hv.
    + discriminate.
Defined.

(** C4. The response contract of the webhook: a request with a missing
    or invalid signature is answered 400 and changes nothing; a verified
    event of any kind other than checkout-completed, and a
    checkout-completed event whose payment already has an order, are
    answered 200 with the stores unchanged; a checkout-completed event is
    answered 500 exactly when one of the handler's awaited calls rejects
    (the lookup, the line-item listing, the order creation or the stock
    transaction), and 200 otherwise. *)
Theorem POST_response_contract (env : Env) (w : World) (body : string)
  (signature : option string) :
  (signature_invalid env body signature →
   http_status (POST body signature env w).1 = 400 ∧ (POST body signature env w).2 = w)
  ∧ (∀ event,
       verified env body signature event →
       (Event.type event ≠ "checkout.session.completed" →
        POST body signature env w = (Ok (Response.mk 200 Response.received_body), w))
       ∧ (Event.type event = "checkout.session.completed" →
          (∀ id,
             unavailable env sanity_fetch = false →
             ORDER_BY_STRIPE_PAYMENT_ID_QUERY
               (Session.payment_intent (Event.data_object event)) (sanity w) = Some id →
             POST body signature env w = (Ok (Response.mk 200 Response.received_body), w))
          ∧ (materialization_error env w (Event.data_object event) →
             http_status (POST body signature env w).1 = 500)
          ∧ (¬ materialization_error env w (Event.data_object event) →
             http_status (POST body signature env w).1 = 200))).
Proof.
  split.
  { intros Hbad. destruct (POST_rejects env w body signature Hbad) as [m ->]. done. }
  intros event Hv. rewrite (POST_verified env w body signature event Hv).
  unfold str_eqb. split.
  { intros Hk. by rewrite bool_decide_eq_false_2. }
  intros Hk. rewrite bool_decide_eq_true_2 by done.
  split; [|split].
  - intros id Hf He. by rewrite (handle_deduplicated env w _ id).
  - intros (e & w' & ->)%handle_throws_iff. done.
  - intros Hno.
    destruct (handleCheckoutCompleted (Event.data_object event) env w) as [[[]|e] w'] eqn:Hr;
      [done|].
    exfalso. apply Hno, handle_throws_iff. eauto.
Qed.

(** A tampered body, another kind of event, a second delivery of a paid
    session, and a delivery while the store refuses transactions. *)
Lemma POST_response_contract_witness :
  http_status (POST Demo.tampered_body (Some Demo.signature)
                    Demo.env_webhook Demo.world_checked_out).1 = 400
  ∧ POST Demo.body (Some Demo.signature) Demo.env_other_kind Demo.world_checked_out
    = (Ok (Response.mk 200 Response.received_body), Demo.world_checked_out)
  ∧ POST Demo.body (Some Demo.signature) Demo.env_webhook Demo.world_paid
    = (Ok (Response.mk 200 Response.received_body), Demo.world_paid)
  ∧ http_status (POST Demo.body (Some Demo.signature)
                      Demo.env_stock_down Demo.world_checked_out).1 = 500.
Proof.
  assert (Hv : ∀ down parse,
             verified (Demo.env_of None None down parse) Demo.body (Some Demo.signature)
                      (parse Demo.body)).
  { intros. exists Demo.signature. split; [reflexivity|]. split; [discriminate|reflexivity]. }
  split; [|split; [|split]].
  - apply (POST_response_contract Demo.env_webhook Demo.world_checked_out
             Demo.tampered_body (Some Demo.signature)).
    right. eexists _, _. split; reflexivity.
  - apply (POST_response_contract Demo.env_other_kind Demo.world_checked_out
             Demo.body (Some Demo.signature)) with (event := Demo.parse_other Demo.body).
    + apply (Hv Demo.all_up Demo.parse_other).
    + discriminate.
  - apply (POST_response_contract Demo.env_webhook Demo.world_paid
             Demo.body (Some Demo.signature)) with (event := Demo.parse_checkout Demo.body)
                                                   (id := "doc-1").
    + apply (Hv Demo.all_up Demo.parse_checkout).
    + reflexivity.
    + reflexivity.
    + vm_compute. reflexivity.
  - apply (POST_response_contract Demo.env_stock_down Demo.world_checked_out
             Demo.body (Some Demo.signature)) with (event := Demo.parse_checkout Demo.body).
    + apply (Hv Demo.transactions_down Demo.parse_checkout).
    + reflexivity.
    + right. split; [vm_compute; reflexivity|]. split; [vm_compute; reflexivity|].
      do 3 right. left. reflexivity.
Defined.

(** C5, as the claim states it, fails: a session whose metadata has
    neither the email nor the customer record id still becomes an order,
    and the stock of the chair goes from 5 to 3. *)
Lemma missing_email_still_materializes :
  Metadata.userEmail (session_metadata_or_empty Demo.session_without_email) = None
  ∧ Metadata.sanityCustomerId (session_metadata_or_empty Demo.session_without_email) = None
  ∧ orders (sanity Demo.world_checked_out) = []
  ∧ (handleCheckoutCompleted Demo.session_without_email Demo.env_webhook
                             Demo.world_checked_out).1 = Ok tt
  ∧ (λ o, (Order.stripePaymentId o, Order.email o, Order.customer_ref o))
      <$> orders (sanity (handleCheckoutCompleted Demo.session_without_email
                            Demo.env_webhook Demo.world_checked_out).2)
    = [("pi_1", "", None)]
  ∧ ProductDoc.stock
      <$> products (sanity (handleCheckoutCompleted Demo.session_without_email
                              Demo.env_webhook Demo.world_checked_out).2) !! "p1"
    = Some (Some 3).
Proof. vm_compute. repeat split; reflexivity. Qed.

(** C5, amended. On a checkout-completed event with no existing order,
    if the buyer id, the productIds or the quantities are absent (or
    empty) in the session metadata, the handler returns without creating
    an order or modifying stock: the stores are unchanged. The email and
    the customer record id are not required: with the three required
    fields present and every call succeeding, the order is created, its
    email falling back to the customer details and its customer
    reference left out. *)
Theorem handler_aborts_on_missing_required_metadata (env : Env) (w : World)
  (session : Session.t) :
  unavailable env sanity_fetch = false →
  ORDER_BY_STRIPE_PAYMENT_ID_QUERY (Session.payment_intent session) (sanity w) = None →
  let md := session_metadata_or_empty session in
  (JS.truthy (Metadata.clerkUserId md) = false
   ∨ JS.truthy (Metadata.productIds md) = false
   ∨ JS.truthy (Metadata.quantities md) = false →
   handleCheckoutCompleted session env w = (Ok tt, w))
  ∧ (∀ s docs,
       JS.truthy (Metadata.clerkUserId md) = true →
       JS.truthy (Metadata.productIds md) = true →
       JS.truthy (Metadata.quantities md) = true →
       unavailable env stripe_listLineItems = false →
       sessions (stripe w) !! Session.id session = Some s →
       unavailable env sanity_create = false →
       unavailable env sanity_transaction = false →
       apply_transaction (stock_transaction (decode_productIds md) (decode_quantities md))
                         (products (sanity w)) = Some docs →
       ∃ o, handleCheckoutCompleted session env w
            = (Ok tt, stock_adjusted docs (order_created o w))
            ∧ Order.email o = order_email (Metadata.userEmail md) session
            ∧ (JS.truthy (Metadata.sanityCustomerId md) = false → Order.customer_ref o = None)).
Proof.
  intros Hf He md. split.
  - intros Hmiss. apply handle_incomplete; [done..|].
    fold md. unfold metadata_complete.
    destruct Hmiss as [-> | [-> | ->]]; rewrite ?andb_false_r; reflexivity.
  - intros s docs H1 H2 H3 Hl Hs Hc Hu Ht.
    eexists. split; [|split].
    + apply (handle_materialized env w session s docs); try done.
      fold md. unfold metadata_complete. by rewrite H1, H2, H3.
    + reflexivity.
    + simpl. fold md. by intros ->.
Qed.

(** A session without metadata aborts; one without email is materialized. *)
Lemma handler_aborts_on_missing_required_metadata_witness :
  handleCheckoutCompleted Demo.session_without_metadata Demo.env_webhook Demo.world_checked_out
  = (Ok tt, Demo.world_checked_out)
  ∧ ∃ o docs,
      handleCheckoutCompleted Demo.session_without_email Demo.env_webhook
                              Demo.world_checked_out
      = (Ok tt, stock_adjusted docs (order_created o Demo.world_checked_out))
      ∧ Order.email o = ""
      ∧ Order.customer_ref o = None.
Proof.
  split.
  - apply (handler_aborts_on_missing_required_metadata
             Demo.env_webhook Demo.world_checked_out Demo.session_without_metadata);
      [reflexivity | vm_compute; reflexivity | left; reflexivity].
  - destruct (handler_aborts_on_missing_required_metadata
                Demo.env_webhook Demo.world_checked_out Demo.session_without_email)
      as [_ H]; [reflexivity | vm_compute; reflexivity |].
    destruct (H Demo.session
                (<["p1" := ProductDoc.mk (Some "Chair") (Some (10 # 1)%Q) (Some 3) None]>
                   Demo.catalog))
      as (o & Hrun & Hemail & Hcust);
      try reflexivity; try (vm_compute; reflexivity).
    exists o. eexists. split; [exact Hrun|]. split; [exact Hemail|].
    apply Hcust. reflexivity.
Defined.

(** ** The cart validator *)

Lemma validate_item_check (products : list Product.t) (item : CartItem.t)
  (acc : list string * list ValidatedItem) :
  validate_item products acc item
  = match Spec.check_item products item with
    | inl f => (acc.1 ++ [Spec.failure_message item f], acc.2)
    | inr v => (acc.1, acc.2 ++ [v])
    end.
Proof.
  unfold validate_item, Spec.check_item.
  destruct (find_product products item) as [p|]; [|reflexivity].
  destruct (Z.eqb_spec (JS.nullish (Product.stock p) 0) 0) as [Hz|Hz];
    destruct (decide (JS.nullish (Product.stock p) 0 = 0)); try done.
  destruct (Z.ltb_spec (JS.nullish (Product.stock p) 0) (CartItem.quantity item));
    destruct (decide (CartItem.quantity item > JS.nullish (Product.stock p) 0));
    try done; lia.
Qed.

Lemma validate_cart_from (products : list Product.t) (items : list CartItem.t)
  (acc : list string * list ValidatedItem) :
  foldl (validate_item products) acc items
  = (acc.1 ++ Spec.failures products items, acc.2 ++ Spec.validated products items).
Proof.
  revert acc. induction items as [|item items IH]; intros [errs oks]; simpl.
  - by rewrite !app_nil_r.
  - rewrite IH, validate_item_check. unfold Spec.failures, Spec.validated. simpl.
    destruct (Spec.check_item products item); simpl; by rewrite <- ?app_assoc.
Qed.

Lemma validate_cart_spec (products : list Product.t) (items : list CartItem.t) :
  validate_cart products items
  = (Spec.failures products items, Spec.validated products items).
Proof. unfold validate_cart. by rewrite validate_cart_from. Qed.

Lemma verdicts_partition (products : list Product.t) (items : list CartItem.t) :
  (length (Spec.failures products items) + length (Spec.validated products items)
   = length items)%nat.
Proof.
  unfold Spec.failures, Spec.validated.
  induction items as [|item items IH]; csimpl; [done|].
  destruct (Spec.check_item products item); csimpl; lia.
Qed.

Lemma failure_collected (products : list Product.t) (items : list CartItem.t)
  (item : CartItem.t) (f : Spec.ValidationFailure) :
  item ∈ items →
  Spec.check_item products item = inl f →
  Spec.failure_message item f ∈ Spec.failures products items.
Proof.
  intros Hin Hf. unfold Spec.failures. apply list_elem_of_omap.
  exists item. by rewrite Hf.
Qed.

Lemma createCheckoutSession_total (items : list CartItem.t) (env : Env) (w : World) :
  ∃ res w', createCheckoutSession items env w = (Ok res, w').
Proof.
  unfold createCheckoutSession, try_catch.
  destruct (createCheckoutSession_try items env w) as [[res|e] w']; simpl; eauto.
Qed.

Lemma createCheckoutSession_invalid (items : list CartItem.t) (env : Env) (w : World)
  (userId : string) (user : ClerkUser.t) :
  unavailable env clerk_auth = false →
  unavailable env clerk_currentUser = false →
  unavailable env sanity_fetch = false →
  auth_userId env = Some userId → userId ≠ "" →
  clerk_user env = Some user →
  let products := PRODUCTS_BY_IDS_QUERY (CartItem.productId <$> items) (sanity w) in
  Spec.failures products items ≠ [] →
  createCheckoutSession items env w
  = (Ok (failure (JS.join ". " (Spec.failures products items))), w).
Proof.
  intros Ha Hc Hf Hu Hne Huser products Hbad.
  unfold createCheckoutSession, createCheckoutSession_try, client_fetch. run.
  rewrite Ha, Hc, Hu, Huser. destruct userId as [|c u]; [done|].
  destruct items as [|item items]; [done|].
  rewrite Hf. fold products. rewrite validate_cart_spec.
  destruct (Spec.failures products (item :: items)); done.
Qed.

Lemma find_product_none (products : list Product.t) (item : CartItem.t) :
  (∀ p, p ∈ products → Product._id p ≠ CartItem.productId item) →
  find_product products item = None.
Proof.
  intros Hall. unfold find_product, str_eqb.
  induction products as [|p products IH]; simpl; [done|].
  rewrite bool_decide_eq_false_2 by (apply Hall; left).
  apply IH. intros p' Hp'. apply Hall. by right.
Qed.

Lemma find_product_first (products before after : list Product.t) (item : CartItem.t)
  (p : Product.t) :
  products = before ++ p :: after →
  Product._id p = CartItem.productId item →
  Forall (λ p', Product._id p' ≠ CartItem.productId item) before →
  find_product products item = Some p.
Proof.
  intros -> Hid Hb. unfold find_product, str_eqb.
  induction Hb as [|p' before Hp' _ IH]; simpl.
  - by rewrite bool_decide_eq_true_2.
  - by rewrite bool_decide_eq_false_2.
Qed.

Lemma append_assoc (a b c : string) : (a +:+ b) +:+ c = a +:+ b +:+ c.
Proof.
  induction a as [|x a IH]; [done|].
  change (String x ((a +:+ b) +:+ c) = String x (a +:+ b +:+ c)). by rewrite IH.
Qed.

(** The three messages, written out. *)
Lemma msg_unavailable_text (item : CartItem.t) :
  msg_unavailable item
  = "Product " +:+ String "034"%char "" +:+ CartItem.name item +:+ String "034"%char ""
    +:+ " is no longer available".
Proof. unfold msg_unavailable, quoted, dquote. by rewrite !append_assoc. Qed.

Lemma msg_out_of_stock_text (p : Product.t) :
  msg_out_of_stock p
  = String "034"%char "" +:+ JS.nullish (Product.name p) "null" +:+ String "034"%char ""
    +:+ " is out of stock".
Proof. unfold msg_out_of_stock, quoted, dquote, show_string. by rewrite !append_assoc. Qed.

Lemma msg_insufficient_text (p : Product.t) :
  msg_insufficient p
  = "Only " +:+ JS.show_number (Product.stock p) +:+ " of " +:+ String "034"%char ""
    +:+ JS.nullish (Product.name p) "null" +:+ String "034"%char "" +:+ " available".
Proof. unfold msg_insufficient, quoted, dquote, show_string. by rewrite !append_assoc. Qed.

Lemma validated_collected (products : list Product.t) (items : list CartItem.t)
  (item : CartItem.t) (v : ValidatedItem) :
  item ∈ items →
  Spec.check_item products item = inr v →
  v ∈ Spec.validated products items.
Proof.
  intros Hin Hv. unfold Spec.validated. apply list_elem_of_omap.
  exists item. by rewrite Hv.
Qed.

(** C7. The validator, item by item, with [q] the double-quote
    character: an item whose product id no snapshot carries gives
    [Product "<item name>" is no longer available]; otherwise the first
    snapshot with that id decides: a stock of 0 (or none) gives
    ["<product name>" is out of stock], a requested quantity above the
    stock gives [Only <stock> of "<product name>" available], and else the
    item is validated with that snapshot and its quantity. The loop
    collects the failures of every item of the batch in cart order (it
    does not stop at the first), each item ends either among the failures
    or among the validated items, and [createCheckoutSession] returns the
    object [{success: false, error}] whose error is the failures joined by
    [". "], with no store changed; it returns a result on every input and
    never throws. *)
Theorem validator_collects_every_failure (products : list Product.t)
  (items : list CartItem.t) :
  validate_cart products items = (Spec.failures products items, Spec.validated products items)
  ∧ (length (validate_cart products items).1 + length (validate_cart products items).2
     = length items)%nat
  ∧ (∀ item, item ∈ items →
       let q := String "034"%char "" in
       ((∀ p, p ∈ products → Product._id p ≠ CartItem.productId item) →
        "Product " +:+ q +:+ CartItem.name item +:+ q +:+ " is no longer available"
        ∈ (validate_cart products items).1)
       ∧ (∀ before p after,
            products = before ++ p :: after →
            Product._id p = CartItem.productId item →
            Forall (λ p', Product._id p' ≠ CartItem.productId item) before →
            let stock := JS.nullish (Product.stock p) 0 in
            let name := JS.nullish (Product.name p) "null" in
            (stock = 0 →
             q +:+ name +:+ q +:+ " is out of stock" ∈ (validate_cart products items).1)
            ∧ (stock ≠ 0 → CartItem.quantity item > stock →
               "Only " +:+ JS.show_number (Product.stock p) +:+ " of " +:+ q +:+ name +:+ q
               +:+ " available"
               ∈ (validate_cart products items).1)
            ∧ (stock ≠ 0 → CartItem.quantity item ≤ stock →
               mkValidatedItem p (CartItem.quantity item)
               ∈ (validate_cart products items).2)))
  ∧ (∀ env w, ∃ res w', createCheckoutSession items env w = (Ok res, w'))
  ∧ (∀ env w userId user,
       unavailable env clerk_auth = false →
       unavailable env clerk_currentUser = false →
       unavailable env sanity_fetch = false →
       auth_userId env = Some userId → userId ≠ "" →
       clerk_user env = Some user →
       let snapshots := PRODUCTS_BY_IDS_QUERY (CartItem.productId <$> items) (sanity w) in
       (validate_cart snapshots items).1 ≠ [] →
       createCheckoutSession items env w
       = (Ok (mkCheckoutResult false None
                (Some (JS.join ". " (validate_cart snapshots items).1))), w)).
Proof.
  split; [apply validate_cart_spec|].
  split; [rewrite validate_cart_spec; apply verdicts_partition|].
  split.
  { intros item Hin q. rewrite validate_cart_spec. simpl. split.
    - intros Hnone%find_product_none. unfold q. rewrite <- msg_unavailable_text.
      apply (failure_collected products items item Spec.ProductUnavailable Hin).
      unfold Spec.check_item. by rewrite Hnone.
    - intros before p after Hl Hid Hb.
      pose proof (find_product_first _ _ _ _ _ Hl Hid Hb) as Hp.
      split; [|split].
      + intros Hz. unfold q. rewrite <- msg_out_of_stock_text.
        apply (failure_collected products items item (Spec.OutOfStock p) Hin).
        unfold Spec.check_item. rewrite Hp. by rewrite decide_True.
      + intros Hnz Hgt. unfold q. rewrite <- msg_insufficient_text.
        apply (failure_collected products items item (Spec.InsufficientStock p) Hin).
        unfold Spec.check_item. rewrite Hp. rewrite decide_False by done.
        by rewrite decide_True.
      + intros Hnz Hle. apply (validated_collected products items item _ Hin).
        unfold Spec.check_item. rewrite Hp. rewrite decide_False by done.
        rewrite decide_False by lia. done. }
  split; [intros; apply createCheckoutSession_total|].
  intros env w userId user Ha Hc Hf Hu Hne Huser snapshots.
  rewrite validate_cart_spec. simpl.
  by apply createCheckoutSession_invalid with (userId := userId) (user := user).
Qed.

(** A ghost, a sold-out sofa and nine desks out of four, with one good
    chair: the three failures come back together in one error, the stores
    untouched. *)
Lemma validator_collects_every_failure_witness :
  (validate_cart Demo.snapshots_with_problems Demo.cart_with_problems).1
  = ["Product " +:+ String "034"%char "" +:+ "Ghost" +:+ String "034"%char "" +:+ " is no longer available";
     String "034"%char "" +:+ "Sofa" +:+ String "034"%char "" +:+ " is out of stock";
     "Only 4 of " +:+ String "034"%char "" +:+ "Desk" +:+ String "034"%char "" +:+ " available"]
  ∧ String "034"%char "" +:+ "Sofa" +:+ String "034"%char "" +:+ " is out of stock"
    ∈ (validate_cart Demo.snapshots_with_problems Demo.cart_with_problems).1
  ∧ createCheckoutSession Demo.cart_with_problems Demo.env Demo.world
    = (Ok (mkCheckoutResult false None
             (Some ("Product " +:+ String "034"%char "" +:+ "Ghost" +:+ String "034"%char ""
                    +:+ " is no longer available. " +:+ String "034"%char "" +:+ "Sofa" +:+ String "034"%char ""
                    +:+ " is out of stock. Only 4 of " +:+ String "034"%char "" +:+ "Desk" +:+ String "034"%char ""
                    +:+ " available"))),
       Demo.world).
Proof.
  destruct (validator_collects_every_failure Demo.snapshots_with_problems
              Demo.cart_with_problems) as (Hspec & _ & Hitem & _ & Hrun).
  split; [|split].
  - rewrite Hspec. vm_compute. reflexivity.
  - destruct (Hitem (CartItem.mk "p4" "Sofa" (300 # 1)%Q 1 None)) as [_ Hfound];
      [right; left|].
    destruct (Hfound [snapshot ("p3", Demo.desk); snapshot ("p1", Demo.chair)]
                     (snapshot ("p4", Demo.sofa)) []) as (Hmsg & _).
    + vm_compute. reflexivity.
    + reflexivity.
    + repeat constructor; discriminate.
    + apply Hmsg. reflexivity.
  - etransitivity.
    + apply Hrun with (userId := "user_ann") (user := Demo.ann);
        try reflexivity; vm_compute; discriminate.
    + vm_compute. reflexivity.
Defined.

(** ** Prices come from the snapshots, never from the cart *)

Lemma Math_round_half_up (q : Q) :
  (inject_Z (JS.Math_round q) <= q + (1 # 2) ∧ q + (1 # 2) < inject_Z (JS.Math_round q + 1))%Q.
Proof. unfold JS.Math_round. split; [apply Qfloor_le | apply Qlt_floor]. Qed.

(** ** Binary64 rounding *)

Lemma round_half_even_error (x : Q) :
  (inject_Z (JS.round_half_even x) - x <= 1 # 2 /\ x - inject_Z (JS.round_half_even x) <= 1 # 2)%Q.
Proof.
  unfold JS.round_half_even.
  pose proof (Qfloor_le x) as Hl. pose proof (Qlt_floor x) as Hu.
  rewrite inject_Z_plus in Hu. change (inject_Z 1) with 1%Q in Hu.
  destruct (Qcompare_spec (x - inject_Z (Qfloor x)) (1 # 2)) as [He|Hlt|Hgt].
  - destruct (Z.even (Qfloor x)); rewrite ?inject_Z_plus; change (inject_Z 1) with 1%Q;
      split; lra.
  - split; lra.
  - rewrite inject_Z_plus. change (inject_Z 1) with 1%Q. split; lra.
Qed.

Lemma round_half_even_comp (x y : Q) : (x == y)%Q -> JS.round_half_even x = JS.round_half_even y.
Proof.
  intros H. unfold JS.round_half_even. rewrite (Qfloor_comp _ _ H).
  assert (Hc : ((x - inject_Z (Qfloor y) ?= 1 # 2) = (y - inject_Z (Qfloor y) ?= 1 # 2))%Q)
    by (by rewrite H).
  by rewrite Hc.
Qed.

Lemma rounding_to_multiple (t p d m : Q) :
  (0 < p)%Q → (d * p == t)%Q → (4503599627370496 * p <= t)%Q →
  (m - d <= 1 # 2)%Q → (d - m <= 1 # 2)%Q →
  (m * p - t <= t * JS.unit_roundoff ∧ t - m * p <= t * JS.unit_roundoff)%Q.
Proof.
  intros Hp Hd Hle Hu Hl. unfold JS.unit_roundoff.
  change (1 # 2 ^ 53)%Q with (1 # 9007199254740992)%Q. split; nra.
Qed.

Lemma scaled_rounding_error (t : Q) :
  2 ^ 53 ≤ Qfloor t →
  let s := Z.max 0 (Z.log2 (Qfloor t) - 52) in
  let m := JS.round_half_even (t / inject_Z (2 ^ s)) in
  (inject_Z (m * 2 ^ s) - t <= t * JS.unit_roundoff
   ∧ t - inject_Z (m * 2 ^ s) <= t * JS.unit_roundoff)%Q.
Proof.
  intros HN s m.
  assert (H0 : 0 < Qfloor t) by lia.
  destruct (Z.log2_spec _ H0) as [HL _].
  assert (H53 : 53 ≤ Z.log2 (Qfloor t)).
  { rewrite <- (Z.log2_pow2 53) by lia. by apply Z.log2_le_mono. }
  assert (Hs : s = Z.log2 (Qfloor t) - 52) by lia.
  assert (Hpow : 2 ^ Z.log2 (Qfloor t) = 2 ^ 52 * 2 ^ s).
  { rewrite Hs, <- Z.pow_add_r by lia. f_equal. lia. }
  assert (Hp : (0 < 2 ^ s)) by (apply Z.pow_pos_nonneg; lia).
  pose proof (Qfloor_le t) as Ht.
  assert (Hle : (inject_Z (2 ^ 52) * inject_Z (2 ^ s) <= t)%Q).
  { rewrite <- inject_Z_mult, <- Hpow. apply Qle_trans with (inject_Z (Qfloor t)); [|exact Ht].
    by rewrite <- Zle_Qle. }
  destruct (round_half_even_error (t / inject_Z (2 ^ s))) as [Hu Hd]. fold m in Hu, Hd.
  rewrite inject_Z_mult.
  assert (Hpq : (0 < inject_Z (2 ^ s))%Q) by (by rewrite <- (Zlt_Qlt 0)).
  assert (Hdiv : (t / inject_Z (2 ^ s) * inject_Z (2 ^ s) == t)%Q).
  { field. intros E. rewrite E in Hpq. by apply Qlt_irrefl in Hpq. }
  apply (rounding_to_multiple t (inject_Z (2 ^ s)) (t / inject_Z (2 ^ s)) (inject_Z m));
    done.
Qed.

Lemma unscale_error (q S M i : Q) :
  (0 < i)%Q → (i * S == 1)%Q →
  (M - q * S <= q * S * JS.unit_roundoff)%Q → (q * S - M <= q * S * JS.unit_roundoff)%Q →
  (q * (1 - JS.unit_roundoff) <= M * i ∧ M * i <= q * (1 + JS.unit_roundoff))%Q.
Proof.
  intros Hi HS Hu Hl. unfold JS.unit_roundoff in *.
  change (1 # 2 ^ 53)%Q with (1 # 9007199254740992)%Q in *.
  assert (Hq : ∀ c : Q, (q * c == q * S * c * i)%Q).
  { intros c. rewrite <- (Qmult_1_r (q * c)), <- HS. ring. }
  remember (q * S)%Q as t eqn:Et.
  split.
  - rewrite Hq. apply Qmult_le_compat_r; [lra|by apply Qlt_le_weak].
  - rewrite Hq. apply Qmult_le_compat_r; [lra|by apply Qlt_le_weak].
Qed.

Lemma binary64_nonneg_close (q : Q) :
  2 ^ 53 ≤ Qfloor (q * inject_Z (2 ^ 1074)) →
  (q * (1 - JS.unit_roundoff) <= JS.binary64_nonneg q
   ∧ JS.binary64_nonneg q <= q * (1 + JS.unit_roundoff))%Q.
Proof.
  intros HN. unfold JS.binary64_nonneg. rewrite Qred_correct.
  destruct (scaled_rounding_error _ HN) as [Hu Hl]. cbv zeta in Hu, Hl.
  assert (HS : (0 < inject_Z (2 ^ 1074))%Q).
  { rewrite <- (Zlt_Qlt 0). apply Z.pow_pos_nonneg; lia. }
  apply (unscale_error q (inject_Z (2 ^ 1074))); [by apply Qinv_lt_0_compat| |done..].
  rewrite Qmult_comm. apply Qmult_inv_r. intros E. rewrite E in HS.
  by apply Qlt_irrefl in HS.
Qed.

Lemma normal_above (q : Q) :
  (1 # 1000 <= q)%Q → 2 ^ 53 ≤ Qfloor (q * inject_Z (2 ^ 1074)).
Proof.
  intros Hq. rewrite <- (Qfloor_Z (2 ^ 53)). apply Qfloor_resp_le.
  apply Qle_trans with ((1 # 1000) * inject_Z (2 ^ 1074))%Q.
  - apply Qle_bool_imp_le. vm_compute. reflexivity.
  - apply Qmult_le_compat_r; [done|]. rewrite <- (Zle_Qle 0). apply Z.pow_nonneg. lia.
Qed.

Lemma binary64_nonneg_comp (a b : Q) : (a == b)%Q → JS.binary64_nonneg a = JS.binary64_nonneg b.
Proof.
  intros H. unfold JS.binary64_nonneg.
  assert (Ht : (a * inject_Z (2 ^ 1074) == b * inject_Z (2 ^ 1074))%Q) by (by rewrite H).
  rewrite (Qfloor_comp _ _ Ht).
  set (s := Z.max 0 (Z.log2 (Qfloor (b * inject_Z (2 ^ 1074))) - 52)).
  rewrite (round_half_even_comp (a * inject_Z (2 ^ 1074) / inject_Z (2 ^ s))
                                (b * inject_Z (2 ^ 1074) / inject_Z (2 ^ s)));
    [done|by rewrite Ht].
Qed.

Lemma binary64_comp (a b : Q) : (a == b)%Q → JS.binary64 a = JS.binary64 b.
Proof.
  intros H. unfold JS.binary64.
  assert (Hs : Qle_bool 0 a = Qle_bool 0 b).
  { apply eq_true_iff_eq. rewrite !Qle_bool_iff. by rewrite H. }
  rewrite Hs. destruct (Qle_bool 0 b); [by apply binary64_nonneg_comp|].
  f_equal. apply binary64_nonneg_comp. by rewrite H.
Qed.

Lemma binary64_close_pos (q : Q) :
  (1 # 1000 <= q)%Q →
  (q * (1 - JS.unit_roundoff) <= JS.binary64 q ∧ JS.binary64 q <= q * (1 + JS.unit_roundoff))%Q.
Proof.
  intros Hq. unfold JS.binary64.
  assert (H0 : Qle_bool 0 q = true) by (apply Qle_bool_iff; lra).
  rewrite H0. by apply binary64_nonneg_close, normal_above.
Qed.

Lemma binary64_close_neg (q : Q) :
  (q <= - (1 # 1000))%Q →
  (q * (1 + JS.unit_roundoff) <= JS.binary64 q ∧ JS.binary64 q <= q * (1 - JS.unit_roundoff))%Q.
Proof.
  intros Hq. unfold JS.binary64.
  destruct (Qle_bool 0 q) eqn:H0; [apply Qle_bool_iff in H0; lra|].
  destruct (binary64_nonneg_close (- q)) as [Hl Hu]; [apply normal_above; lra|].
  split; lra.
Qed.

Lemma Qfloor_unique (w : Q) (p : Z) :
  (inject_Z p <= w)%Q → (w < inject_Z p + 1)%Q → Qfloor w = p.
Proof.
  intros Hl Hu. pose proof (Qfloor_le w) as Hf. pose proof (Qlt_floor w) as Hg.
  rewrite inject_Z_plus in Hg. change (inject_Z 1) with 1%Q in Hg.
  assert (H1 : (inject_Z (Qfloor w) < inject_Z (p + 1))%Q)
    by (rewrite inject_Z_plus; change (inject_Z 1) with 1%Q; lra).
  assert (H2 : (inject_Z p < inject_Z (Qfloor w + 1))%Q)
    by (rewrite inject_Z_plus; change (inject_Z 1) with 1%Q; lra).
  rewrite <- Zlt_Qlt in H1, H2. lia.
Qed.

Lemma binary64_100 : JS.binary64 100 = 100%Q.
Proof. vm_compute. reflexivity. Qed.

Lemma mul_whole_pence (price : Q) (pence : Z) :
  (price == inject_Z pence / 100)%Q →
  - 2 ^ 50 ≤ pence ≤ 2 ^ 50 →
  JS.Math_round (JS.mul price 100) = pence.
Proof.
  intros Hprice Hrange. unfold JS.Math_round, JS.mul. rewrite binary64_100.
  rewrite (binary64_comp _ _ Hprice).
  assert (Hb : (- 1125899906842624 <= inject_Z pence ∧ inject_Z pence <= 1125899906842624)%Q).
  { change (- 1125899906842624)%Q with (inject_Z (- 2 ^ 50)).
    change 1125899906842624%Q with (inject_Z (2 ^ 50)). by rewrite <- !Zle_Qle. }
  destruct (Z.lt_trichotomy pence 0) as [Hneg | [-> | Hpos]]; [| vm_compute; reflexivity |].
  - assert (Hp : (inject_Z pence <= - 1)%Q).
    { change (- 1)%Q with (inject_Z (- 1)). rewrite <- Zle_Qle. lia. }
    set (a := (inject_Z pence / 100)%Q) in *.
    assert (Ha : (a == inject_Z pence * (1 # 100))%Q) by (unfold a; field).
    clearbody a.
    pose proof (binary64_close_neg a) as Hx.
    pose proof (binary64_close_neg (JS.binary64 a * 100)) as Hy.
    unfold JS.unit_roundoff in *. change (1 # 2 ^ 53)%Q with (1 # 9007199254740992)%Q in *.
    destruct Hx as [Hl Hu]; [lra|]. destruct Hy as [Hl' Hu']; [lra|].
    apply Qfloor_unique; lra.
  - assert (Hp : (1 <= inject_Z pence)%Q).
    { change 1%Q with (inject_Z 1). rewrite <- Zle_Qle. lia. }
    set (a := (inject_Z pence / 100)%Q) in *.
    assert (Ha : (a == inject_Z pence * (1 # 100))%Q) by (unfold a; field).
    clearbody a.
    pose proof (binary64_close_pos a) as Hx.
    pose proof (binary64_close_pos (JS.binary64 a * 100)) as Hy.
    unfold JS.unit_roundoff in *. change (1 # 2 ^ 53)%Q with (1 # 9007199254740992)%Q in *.
    destruct Hx as [Hl Hu]; [lra|]. destruct Hy as [Hl' Hu']; [lra|].
    apply Qfloor_unique; lra.
Qed.

(** The double product [price * 100] is within three units roundoff of
    the exact product. *)
Lemma mul_100_close (price : Q) :
  (1 # 1000 <= price)%Q →
  (price * 100 * (1 - 3 * JS.unit_roundoff) <= JS.mul price 100
   ∧ JS.mul price 100 <= price * 100 * (1 + 3 * JS.unit_roundoff))%Q.
Proof.
  intros Hp. unfold JS.mul. rewrite binary64_100.
  pose proof (binary64_close_pos price) as Hx.
  pose proof (binary64_close_pos (JS.binary64 price * 100)) as Hy.
  unfold JS.unit_roundoff in *. change (1 # 2 ^ 53)%Q with (1 # 9007199254740992)%Q in *.
  destruct Hx as [Hl Hu]; [lra|]. destruct Hy as [Hl' Hu']; [lra|].
  split; nra.
Qed.

(** [find] returns the first element that satisfies the test. *)
Lemma find_first {A} (f : A → bool) (l : list A) (x : A) :
  find f l = Some x →
  ∃ before after, l = before ++ x :: after ∧ f x = true
                  ∧ Forall (λ y, f y = false) before.
Proof.
  induction l as [|a l IH]; simpl; [done|].
  destruct (f a) eqn:Ha.
  - intros [= ->]. by exists [], l.
  - intros (before & after & -> & Hx & Hb)%IH.
    exists (a :: before), after. by repeat constructor.
Qed.

Lemma validated_from_snapshot (products : list Product.t) (items : list CartItem.t)
  (v : ValidatedItem) :
  v ∈ Spec.validated products items →
  ∃ item, item ∈ items
          ∧ find_product products item = Some (product v)
          ∧ quantity v = CartItem.quantity item.
Proof.
  unfold Spec.validated. intros (item & Hin & Hv)%list_elem_of_omap.
  exists item. split; [done|].
  unfold Spec.check_item in Hv.
  destruct (find_product products item) as [p|]; [|done].
  repeat case_decide; simplify_eq. done.
Qed.

Lemma check_item_same_but_price (products : list Product.t) (a b : CartItem.t) :
  same_but_price a b →
  Spec.check_item products a = Spec.check_item products b
  ∧ ∀ f, Spec.failure_message a f = Spec.failure_message b f.
Proof.
  intros (Hid & Hname & Hq & _). split.
  - unfold Spec.check_item, find_product. by rewrite Hid, Hq.
  - intros [| |]; simpl; [|done..]. unfold msg_unavailable. by rewrite Hname.
Qed.

Lemma validate_cart_same_but_price (products : list Product.t)
  (items1 items2 : list CartItem.t) :
  Forall2 same_but_price items1 items2 →
  validate_cart products items1 = validate_cart products items2.
Proof.
  intros H. rewrite !validate_cart_spec. unfold Spec.failures, Spec.validated.
  induction H as [|a b l1 l2 Hab _ IH]; [done|]. csimpl.
  destruct (check_item_same_but_price products a b Hab) as [-> Hmsg].
  injection IH as -> ->. destruct (Spec.check_item products b); by rewrite ?Hmsg.
Qed.

Lemma productIds_same_but_price (items1 items2 : list CartItem.t) :
  Forall2 same_but_price items1 items2 →
  CartItem.productId <$> items1 = CartItem.productId <$> items2.
Proof.
  induction 1 as [|a b l1 l2 (Hid & _) _ IH]; [done|]. csimpl. by rewrite Hid, IH.
Qed.

Lemma createCheckoutSession_ignores_price (items1 items2 : list CartItem.t)
  (env : Env) (w : World) :
  Forall2 same_but_price items1 items2 →
  createCheckoutSession items1 env w = createCheckoutSession items2 env w.
Proof.
  intros H. unfold createCheckoutSession, try_catch.
  enough (createCheckoutSession_try items1 env w = createCheckoutSession_try items2 env w)
    as -> by done.
  unfold createCheckoutSession_try, client_fetch. run.
  destruct (unavailable env clerk_auth); [done|].
  destruct (unavailable env clerk_currentUser); [done|].
  destruct (auth_userId env) as [[|c u]|]; [done| |done].
  destruct (clerk_user env) as [user|]; [|done].
  pose proof (productIds_same_but_price _ _ H) as Hids.
  pose proof (λ ps, validate_cart_same_but_price ps _ _ H) as Hval.
  destruct H as [|a b l1 l2 Hab Hrest]; [done|].
  destruct (unavailable env sanity_fetch); [done|].
  rewrite Hids, Hval. reflexivity.
Qed.

Lemma createCheckoutSession_session (items : list CartItem.t) (env : Env) (w w' : World)
  (res : CheckoutResult) :
  createCheckoutSession items env w = (Ok res, w') →
  success res = true →
  let snapshots := PRODUCTS_BY_IDS_QUERY (CartItem.productId <$> items) (sanity w) in
  (validate_cart snapshots items).1 = []
  ∧ ∃ s, sessions (stripe w') !! Session.id s = Some s
         ∧ url res = Session.url s
         ∧ Session.line_items s
           = provider_line <$> (to_line_item <$> (validate_cart snapshots items).2).
Proof.
  intros Hrun Hok snapshots. revert Hrun.
  unfold createCheckoutSession, createCheckoutSession_try, client_fetch,
    stripe_sessions_create_call.
  run.
  destruct (unavailable env clerk_auth); [by intros [= <- _]|].
  destruct (unavailable env clerk_currentUser); [by intros [= <- _]|].
  destruct (auth_userId env) as [[|c u]|]; [by intros [= <- _]| |by intros [= <- _]].
  destruct (clerk_user env) as [user|]; [|by intros [= <- _]].
  destruct items as [|item items]; [by intros [= <- _]|].
  destruct (unavailable env sanity_fetch); [by intros [= <- _]|].
  fold snapshots.
  destruct (validate_cart snapshots (item :: items)) as [errs oks].
  destruct errs; [|by intros [= <- _]].
  destruct (getOrCreateStripeCustomer _ _ _ env w) as [[ids|e] w1]; [|by intros [= <- _]].
  destruct (unavailable env stripe_sessions_create); [by intros [= <- _]|].
  intros [= <- <-]. split; [done|].
  eexists (Session.mk _ _ _ _ _ _ _ _ _).
  split; [apply lookup_insert_eq|]. split; reflexivity.
Qed.

Lemma validated_first_match (products : list Product.t) (items : list CartItem.t)
  (v : ValidatedItem) :
  v ∈ Spec.validated products items →
  ∃ item before after,
    item ∈ items
    ∧ products = before ++ product v :: after
    ∧ Product._id (product v) = CartItem.productId item
    ∧ Forall (λ p, Product._id p ≠ CartItem.productId item) before
    ∧ quantity v = CartItem.quantity item.
Proof.
  intros (item & Hin & Hfind & Hq)%validated_from_snapshot.
  apply find_first in Hfind as (before & after & Hl & Hid & Hb).
  exists item, before, after. unfold str_eqb in *.
  repeat split; try done.
  - by apply bool_decide_eq_true in Hid.
  - eapply Forall_impl; [exact Hb|]. intros p Hp. by apply bool_decide_eq_false in Hp.
Qed.

(** C6, amended. Every validated item is the first snapshot of the
    fetched list whose id is the item's product id, with the item's
    quantity. Its line item's [unit_amount] is [Math.round] of the double
    product [price * 100]: that product rounded half up, where the product
    is the double nearest to the exact one, within three units roundoff of
    it; for a price of whole pence, up to 2^50 pence, the amount is exactly
    that many pence. On success the session the provider holds has exactly
    these line items; and the client's price is never read: two runs on
    carts that differ only in the price fields return the same result and
    leave the same stores, hence the same session line-item amounts. *)
Theorem checkout_amounts_ignore_client_price (items : list CartItem.t) (env : Env)
  (w : World) :
  (∀ products v,
     v ∈ (validate_cart products items).2 →
     (∃ item before after,
        item ∈ items
        ∧ products = before ++ product v :: after
        ∧ Product._id (product v) = CartItem.productId item
        ∧ Forall (λ p, Product._id p ≠ CartItem.productId item) before
        ∧ quantity v = CartItem.quantity item)
     ∧ let amount := SessionCreateParams.unit_amount
                       (SessionCreateParams.price_data (to_line_item v)) in
       let price := JS.nullish (Product.price (product v)) 0%Q in
       amount = Qfloor (JS.mul price 100 + (1 # 2))
       ∧ (inject_Z amount <= JS.mul price 100 + (1 # 2)
          ∧ JS.mul price 100 + (1 # 2) < inject_Z (amount + 1))%Q
       ∧ JS.mul price 100 = JS.binary64 (JS.binary64 price * 100)
       ∧ ((1 # 1000 <= price)%Q →
          (price * 100 * (1 - 3 * JS.unit_roundoff) <= JS.mul price 100
           ∧ JS.mul price 100 <= price * 100 * (1 + 3 * JS.unit_roundoff))%Q)
       ∧ (∀ pence, - 2 ^ 50 ≤ pence ≤ 2 ^ 50 →
                   (price == inject_Z pence / 100)%Q → amount = pence))
  ∧ (∀ res w',
       createCheckoutSession items env w = (Ok res, w') →
       success res = true →
       let snapshots := PRODUCTS_BY_IDS_QUERY (CartItem.productId <$> items) (sanity w) in
       ∃ s, sessions (stripe w') !! Session.id s = Some s
            ∧ Session.line_items s
              = provider_line <$> (to_line_item <$> (validate_cart snapshots items).2))
  ∧ (∀ items',
       Forall2 same_but_price items items' →
       createCheckoutSession items env w = createCheckoutSession items' env w).
Proof.
  split; [|split].
  - intros products v. rewrite validate_cart_spec. simpl. intros Hv.
    split; [by apply validated_first_match|].
    split; [reflexivity|]. split; [apply Math_round_half_up|].
    split; [unfold JS.mul; by rewrite binary64_100|].
    split; [apply mul_100_close|].
    intros pence Hrange Hprice. by apply mul_whole_pence.
  - intros res w' Hrun Hok snapshots.
    destruct (createCheckoutSession_session items env w w' res Hrun Hok)
      as (_ & s & Hs & _ & Hlines).
    eauto.
  - intros items'. apply createCheckoutSession_ignores_price.
Qed.

(** The cart that claims one penny for the chair and the cart that
    claims its catalog price of ten pounds give the same run, with a
    session line of 2 x 1000 pence; and in the cart of three the lamp,
    priced 19.99, is charged 1999 pence. *)
Lemma checkout_amounts_ignore_client_price_witness :
  createCheckoutSession Demo.cart Demo.env Demo.world
  = createCheckoutSession Demo.cart_honest Demo.env Demo.world
  ∧ (∃ s, sessions (stripe Demo.world_checked_out) !! Session.id s = Some s
          ∧ LineItem.amount_total <$> Session.line_items s = [2000])
  ∧ mkValidatedItem (snapshot ("p2", Demo.lamp)) 1
    ∈ (validate_cart Demo.snapshots_of_three Demo.cart_of_three).2
  ∧ SessionCreateParams.unit_amount
      (SessionCreateParams.price_data
         (to_line_item (mkValidatedItem (snapshot ("p2", Demo.lamp)) 1)))
    = 1999.
Proof.
  split; [|split; [|split]].
  - apply (checkout_amounts_ignore_client_price Demo.cart Demo.env Demo.world).
    repeat constructor.
  - destruct (checkout_amounts_ignore_client_price Demo.cart Demo.env Demo.world)
      as (_ & H & _).
    destruct (H (mkCheckoutResult true (Some "https://checkout.stripe.com/c/pay/cs_1") None)
                Demo.world_checked_out) as (s & Hs & Hlines);
      [vm_compute; reflexivity | reflexivity |].
    exists s. split; [exact Hs|]. rewrite Hlines. vm_compute. reflexivity.
  - vm_compute. right. left.
  - destruct (checkout_amounts_ignore_client_price Demo.cart_of_three Demo.env Demo.world)
      as (H & _).
    destruct (H Demo.snapshots_of_three (mkValidatedItem (snapshot ("p2", Demo.lamp)) 1))
      as (_ & _ & _ & _ & _ & Hpence); [vm_compute; right; left|].
    apply Hpence; [split; vm_compute; discriminate | vm_compute; reflexivity].
Defined.

(** C6, as the claim states it, fails for a price with more than two
    decimals whose hundredfold lies on a half: the exact product of 1.005
    and 100 is 100.5, which rounds half up to 101, but the double nearest
    to 1.005 is below it, the double product is below 100.5, and the
    amount charged is 100. *)
Lemma sub_penny_price_is_rounded_in_binary64 :
  SessionCreateParams.unit_amount
    (SessionCreateParams.price_data
       (to_line_item
          (mkValidatedItem
             (Product.mk "p9" (Some "Rug") (Some (1005 # 1000)%Q) None (Some 1)) 1)))
  = 100
  ∧ (JS.mul (1005 # 1000) 100 < 1005 # 10)%Q
  ∧ Qfloor ((1005 # 1000) * 100 + (1 # 2))%Q = 101.
Proof. vm_compute. repeat split; reflexivity. Qed.

(** ** The metadata encoding *)

Lemma split_no_sep (sep : ascii) (s : string) :
  has_char sep s = false → JS.split sep s = [s].
Proof.
  induction s as [|c s IH]; simpl; [done|].
  intros [Hc Hs]%orb_false_elim. rewrite Hc, (IH Hs). done.
Qed.

Lemma split_app_sep (sep : ascii) (s rest : string) :
  has_char sep s = false →
  JS.split sep (s +:+ String sep rest) = s :: JS.split sep rest.
Proof.
  induction s as [|c s IH]; simpl.
  - intros _. by rewrite Ascii.eqb_refl.
  - intros [Hc Hs]%orb_false_elim. rewrite Hc, (IH Hs). done.
Qed.

Lemma split_join (sep : ascii) (l : list string) :
  l ≠ [] →
  Forall (λ s, has_char sep s = false) l →
  JS.split sep (JS.join (String sep EmptyString) l) = l.
Proof.
  intros Hne Hl. induction Hl as [|s l Hs Hl IH]; [done|].
  destruct l as [|s' l]; simpl.
  - by apply split_no_sep.
  - change (String sep "" +:+ ?x) with (String sep x).
    rewrite split_app_sep by done. f_equal. by apply IH.
Qed.

Lemma string_of_uint_no_comma (d : Decimal.uint) :
  has_char "," (NilEmpty.string_of_uint d) = false.
Proof. induction d; simpl; done. Qed.

Lemma toString_no_comma (z : Z) : has_char "," (JS.toString z) = false.
Proof.
  unfold JS.toString.
  destruct (Z.to_int z) as [d|d]; simpl;
    (destruct d; [reflexivity | apply (string_of_uint_no_comma (_ d))..]).
Qed.

Lemma digits_string_of_uint (d : Decimal.uint) :
  d ≠ Decimal.Nil → JS.digits (NilZero.string_of_uint d) = JS.Num (Z.of_uint d).
Proof. intros Hd. unfold JS.digits. by rewrite NilZero.usu. Qed.

Lemma Number_string_of_uint (d : Decimal.uint) :
  d ≠ Decimal.Nil →
  JS.Number (NilZero.string_of_uint d) = JS.digits (NilZero.string_of_uint d).
Proof. destruct d; [done | reflexivity..]. Qed.

Lemma Number_toString (z : Z) : JS.Number (JS.toString z) = JS.Num z.
Proof.
  unfold JS.toString. destruct z as [|p|p]; [reflexivity| |]; simpl.
  - rewrite Number_string_of_uint, digits_string_of_uint
      by apply DecimalPos.Unsigned.to_uint_nonnil.
    f_equal. apply (DecimalZ.of_to (Z.pos p)).
  - rewrite digits_string_of_uint by apply DecimalPos.Unsigned.to_uint_nonnil.
    simpl. f_equal. apply (DecimalZ.of_to (Z.neg p)).
Qed.

Lemma imap_lookup_pairs {A B C} (f : A → B) (g : A → C) (l : list A) :
  imap (λ i b, (b, (g <$> l) !! i)) (f <$> l) = (λ a, (f a, Some (g a))) <$> l.
Proof.
  apply list_eq. intros i. rewrite list_lookup_imap, !list_lookup_fmap.
  destruct (l !! i); reflexivity.
Qed.

Lemma find_product_id (products : list Product.t) (item : CartItem.t) (p : Product.t) :
  find_product products item = Some p →
  In p products ∧ Product._id p = CartItem.productId item.
Proof.
  unfold find_product, str_eqb. intros [Hin Hp]%find_some.
  split; [done|]. by apply bool_decide_eq_true in Hp.
Qed.

Lemma validated_all (products : list Product.t) (items : list CartItem.t) :
  Spec.failures products items = [] →
  Forall2 (λ item v, In (product v) products
                     ∧ Product._id (product v) = CartItem.productId item
                     ∧ quantity v = CartItem.quantity item)
          items (Spec.validated products items).
Proof.
  unfold Spec.failures, Spec.validated.
  induction items as [|item items IH]; csimpl; [constructor|].
  destruct (Spec.check_item products item) as [f|v] eqn:Hc; csimpl; [done|].
  intros Hrest. constructor; [|by apply IH].
  unfold Spec.check_item in Hc.
  destruct (find_product products item) as [p|] eqn:Hp; [|done].
  apply find_product_id in Hp as [Hin Hid].
  repeat case_decide; simplify_eq. done.
Qed.

Lemma validated_ids_comma_free (products : list Product.t) (items : list CartItem.t)
  (vs : list ValidatedItem) :
  Forall (λ p, comma_free (Product._id p)) products →
  Forall2 (λ item v, In (product v) products
                     ∧ Product._id (product v) = CartItem.productId item
                     ∧ quantity v = CartItem.quantity item) items vs →
  Forall ((λ s, has_char "," s = false) ∘ (λ v, Product._id (product v))) vs.
Proof.
  intros Hids. rewrite Forall_forall in Hids.
  induction 1 as [|item v l1 l2 (Hin & _) _ IH]; constructor; [|done].
  simpl. by apply (Hids (product v)), list_elem_of_In.
Qed.

Lemma validated_pairs (products : list Product.t) (items : list CartItem.t)
  (vs : list ValidatedItem) :
  Forall2 (λ item v, In (product v) products
                     ∧ Product._id (product v) = CartItem.productId item
                     ∧ quantity v = CartItem.quantity item) items vs →
  (λ v, (Product._id (product v), Some (JS.Num (quantity v)))) <$> vs
  = (λ item, (CartItem.productId item, Some (JS.Num (CartItem.quantity item)))) <$> items.
Proof.
  induction 1 as [|item v l1 l2 (_ & Hid & Hqty) _ IH]; csimpl; [done|].
  by rewrite Hid, Hqty, IH.
Qed.

(** C8. Metadata round trip. For every validated cart (a non-empty cart
    without validation failures, over snapshots whose ids are store
    document ids, which hold no comma), the comma-joined productIds and
    quantities that session creation writes into the metadata are decoded
    by the webhook (split on the comma, quantities through [Number]) to
    exactly the cart's product ids and quantities, in the same order and
    positionally aligned: the pairs the webhook builds by index are the
    pairs that were encoded. *)
Theorem metadata_round_trip (products : list Product.t) (items : list CartItem.t)
  (validatedItems : list ValidatedItem) (userId userEmail sanityCustomerId : string) :
  items ≠ [] →
  Forall (λ p, comma_free (Product._id p)) products →
  validate_cart products items = ([], validatedItems) →
  let md := session_metadata userId userEmail sanityCustomerId validatedItems in
  decode_productIds md = (λ v, Product._id (product v)) <$> validatedItems
  ∧ decode_quantities md = (λ v, JS.Num (quantity v)) <$> validatedItems
  ∧ stock_transaction (decode_productIds md) (decode_quantities md)
    = (λ v, (Product._id (product v), Some (JS.Num (quantity v)))) <$> validatedItems
  ∧ stock_transaction (decode_productIds md) (decode_quantities md)
    = (λ item, (CartItem.productId item, Some (JS.Num (CartItem.quantity item)))) <$> items.
Proof.
  intros Hne Hids Hval md.
  rewrite validate_cart_spec in Hval. injection Hval as Hnone <-.
  pose proof (validated_all products items Hnone) as Hall.
  set (vs := Spec.validated products items) in *.
  assert (Hvs : vs ≠ []).
  { destruct Hall; [done|discriminate]. }
  assert (Hfree : Forall (λ s, has_char "," s = false)
                         ((λ v, Product._id (product v)) <$> vs)).
  { apply Forall_fmap. by apply (validated_ids_comma_free products items). }
  assert (Hp : decode_productIds md = (λ v, Product._id (product v)) <$> vs).
  { unfold decode_productIds, md, session_metadata. simpl.
    apply split_join; [|done]. by destruct vs. }
  assert (Hq : decode_quantities md = (λ v, JS.Num (quantity v)) <$> vs).
  { unfold decode_quantities, md, session_metadata. simpl.
    rewrite split_join.
    - rewrite <- list_fmap_compose. apply list_fmap_ext. intros i v _. simpl.
      apply Number_toString.
    - by destruct vs.
    - apply Forall_fmap, Forall_forall. intros v _. apply toString_no_comma. }
  assert (Hpairs : stock_transaction (decode_productIds md) (decode_quantities md)
                   = (λ v, (Product._id (product v), Some (JS.Num (quantity v)))) <$> vs).
  { rewrite Hp, Hq. apply imap_lookup_pairs. }
  split; [done|]. split; [done|]. split; [done|].
  rewrite Hpairs. by apply (validated_pairs products).
Qed.

(** The cart of three distinct products with quantities 2, 1 and 4. *)
Lemma metadata_round_trip_witness :
  let md := session_metadata "user_ann" "ann@shop.test" "doc-0"
              (validate_cart Demo.snapshots_of_three Demo.cart_of_three).2 in
  Metadata.productIds md = Some "p1,p2,p3"
  ∧ Metadata.quantities md = Some "2,1,4"
  ∧ stock_transaction (decode_productIds md) (decode_quantities md)
    = [("p1", Some (JS.Num 2)); ("p2", Some (JS.Num 1)); ("p3", Some (JS.Num 4))].
Proof.
  split; [vm_compute; reflexivity|]. split; [vm_compute; reflexivity|].
  etransitivity.
  - apply (metadata_round_trip Demo.snapshots_of_three Demo.cart_of_three
             (validate_cart Demo.snapshots_of_three Demo.cart_of_three).2
             "user_ann" "ann@shop.test" "doc-0").
    + discriminate.
    + vm_compute. repeat constructor.
    + vm_compute. reflexivity.
  - reflexivity.
Defined.

(** ** Idempotency of the payment confirmation handler *)

Lemma apply_transaction_None (tx : list Patch) : foldl apply_patch None tx = None.
Proof. induction tx as [|patch tx IH]; simpl; done. Qed.

Lemma apply_transaction_cons (patch : Patch) (tx : list Patch)
  (m m' : gmap string ProductDoc.t) :
  apply_transaction (patch :: tx) m = Some m' →
  ∃ p p', m !! patch.1 = Some p ∧ dec_stock patch.2 p = Some p'
          ∧ apply_transaction tx (<[patch.1 := p']> m) = Some m'.
Proof.
  unfold apply_transaction. simpl.
  destruct (m !! patch.1) as [p|] eqn:Hp; simpl;
    [|by rewrite apply_transaction_None].
  destruct (dec_stock patch.2 p) as [p'|] eqn:Hd; simpl;
    [|by rewrite apply_transaction_None].
  eauto.
Qed.

(** What a committed transaction did to each document, when no product
    is patched twice. *)
Lemma apply_transaction_lookup (tx : list Patch) (m m' : gmap string ProductDoc.t) :
  NoDup tx.*1 →
  apply_transaction tx m = Some m' →
  (∀ pid amount, (pid, amount) ∈ tx → m' !! pid = m !! pid ≫= dec_stock amount)
  ∧ (∀ pid, pid ∉ tx.*1 → m' !! pid = m !! pid).
Proof.
  revert m. induction tx as [|[id a] tx IH]; intros m Hnd Hrun.
  { injection Hrun as <-. split; [intros ?? Hin; by apply elem_of_nil in Hin|done]. }
  apply apply_transaction_cons in Hrun as (p & p' & Hp & Hd & Hrest). simpl in *.
  apply NoDup_cons in Hnd as [Hid Hnd].
  destruct (IH _ Hnd Hrest) as [IHin IHout]. split.
  - intros pid amount [Heq | Hin]%elem_of_cons.
    + injection Heq as -> ->. rewrite (IHout id Hid), lookup_insert_eq, Hp. done.
    + rewrite (IHin pid amount Hin). rewrite lookup_insert_ne; [done|].
      intros <-. apply Hid. apply list_elem_of_fmap. by exists (id, amount).
  - intros pid [Hne Hout]%not_elem_of_cons.
    rewrite (IHout pid Hout). by rewrite lookup_insert_ne.
Qed.

Lemma stock_transaction_lookup (productIds : list string) (quantities : list JS.number)
  (i : nat) (pid : string) :
  productIds !! i = Some pid →
  (pid, quantities !! i) ∈ stock_transaction productIds quantities.
Proof.
  intros Hi. apply list_elem_of_lookup. exists i.
  unfold stock_transaction. by rewrite list_lookup_imap, Hi.
Qed.

Lemma stock_transaction_ids (productIds : list string) (quantities : list JS.number) :
  (stock_transaction productIds quantities).*1 = productIds.
Proof.
  unfold stock_transaction. apply list_eq. intros i.
  rewrite list_lookup_fmap, list_lookup_imap. by destruct (productIds !! i).
Qed.

Lemma order_lookup_app (pid : string) (os : list Order.t) (o : Order.t) :
  find (λ o, str_eqb (Order.stripePaymentId o) pid) os = None →
  Order.stripePaymentId o = pid →
  find (λ o, str_eqb (Order.stripePaymentId o) pid) (os ++ [o]) = Some o.
Proof.
  intros Hnone Ho. induction os as [|o' os IH]; simpl in *.
  - unfold str_eqb. by rewrite bool_decide_eq_true_2.
  - destruct (str_eqb (Order.stripePaymentId o') pid); [done|by apply IH].
Qed.

Lemma orders_of_payment_none (pid : string) (w : World) :
  ORDER_BY_STRIPE_PAYMENT_ID_QUERY pid (sanity w) = None →
  orders_of_payment pid w = [].
Proof.
  unfold ORDER_BY_STRIPE_PAYMENT_ID_QUERY, orders_of_payment.
  induction (orders (sanity w)) as [|o os IH]; simpl; [done|].
  unfold str_eqb at 1. rewrite filter_cons.
  case_bool_decide; case_decide; try done; intros H; by apply IH.
Qed.

(** The shapes the store can have after one run of the handler. *)
Lemma handle_outcome (env : Env) (w : World) (session : Session.t) :
  (handleCheckoutCompleted session env w).2 = w
  ∨ (ORDER_BY_STRIPE_PAYMENT_ID_QUERY (Session.payment_intent session) (sanity w) = None
     ∧ ∃ o, Order.stripePaymentId o = Session.payment_intent session
            ∧ ((handleCheckoutCompleted session env w).2 = order_created o w
               ∨ ∃ docs, (handleCheckoutCompleted session env w).2
                         = stock_adjusted docs (order_created o w))).
Proof.
  destruct (unavailable env sanity_fetch) eqn:Hf.
  { left. by rewrite handle_fetch_down. }
  destruct (ORDER_BY_STRIPE_PAYMENT_ID_QUERY (Session.payment_intent session) (sanity w))
    as [id|] eqn:He.
  { left. by rewrite (handle_deduplicated env w session id). }
  destruct (metadata_complete (session_metadata_or_empty session)) eqn:Hm.
  2:{ left. by rewrite handle_incomplete. }
  destruct (unavailable env stripe_listLineItems) eqn:Hl.
  { left. destruct (handle_listing_fails env w session) as [e ->]; eauto. }
  destruct (sessions (stripe w) !! Session.id session) as [s|] eqn:Hs.
  2:{ left. destruct (handle_listing_fails env w session) as [e ->]; eauto. }
  destruct (unavailable env sanity_create) eqn:Hc.
  { left. destruct (handle_create_fails env w session s) as [e ->]; eauto. }
  right. split; [done|].
  exists (new_order env session (first_page (Session.line_items s)) (fresh_doc_id (sanity w))).
  split; [reflexivity|].
  destruct (unavailable env sanity_transaction) eqn:Hu.
  { left. destruct (handle_commit_fails env w session s) as [e ->]; eauto. }
  destruct (apply_transaction
              (stock_transaction (decode_productIds (session_metadata_or_empty session))
                                 (decode_quantities (session_metadata_or_empty session)))
              (products (sanity w))) as [docs|] eqn:Ht.
  - right. exists docs. by rewrite (handle_materialized env w session s docs).
  - left. destruct (handle_commit_fails env w session s) as [e ->]; eauto.
Qed.

Lemma orders_of_payment_created (pid : string) (o : Order.t) (w : World) :
  orders_of_payment pid (order_created o w)
  = orders_of_payment pid w ++ (if decide (Order.stripePaymentId o = pid) then [o] else []).
Proof.
  unfold orders_of_payment. rewrite orders_order_created, filter_app.
  f_equal.
Qed.

Lemma handle_at_most_one_order (env : Env) (w : World) (session : Session.t) (pid : string) :
  (length (orders_of_payment pid w) ≤ 1)%nat →
  (length (orders_of_payment pid (handleCheckoutCompleted session env w).2) ≤ 1)%nat.
Proof.
  intros Hle.
  destruct (handle_outcome env w session)
    as [-> | (Hnone & o & Ho & [-> | (docs & ->)])]; [done| |].
  all: change (orders_of_payment pid (stock_adjusted ?d ?w')) with (orders_of_payment pid w').
  all: rewrite orders_of_payment_created; case_decide as Hp;
    [|by rewrite app_nil_r].
  all: rewrite <- Hp, Ho, (orders_of_payment_none _ w Hnone); simpl; lia.
Qed.

Lemma deliveries_at_most_one_order (envs : list Env) (session : Session.t) (w : World)
  (pid : string) :
  (length (orders_of_payment pid w) ≤ 1)%nat →
  (length (orders_of_payment pid (deliveries envs session w).2) ≤ 1)%nat.
Proof.
  revert w. induction envs as [|env envs IH]; intros w Hle; simpl; [done|].
  by apply IH, handle_at_most_one_order.
Qed.

Lemma handle_when_order_exists (env : Env) (w : World) (session : Session.t) :
  is_Some (ORDER_BY_STRIPE_PAYMENT_ID_QUERY (Session.payment_intent session) (sanity w)) →
  (handleCheckoutCompleted session env w).2 = w.
Proof.
  intros [id Hid].
  destruct (handle_outcome env w session) as [H | (Hnone & _)]; [done|congruence].
Qed.

Lemma deliveries_when_order_exists (envs : list Env) (w : World) (session : Session.t) :
  is_Some (ORDER_BY_STRIPE_PAYMENT_ID_QUERY (Session.payment_intent session) (sanity w)) →
  (deliveries envs session w).2 = w.
Proof.
  intros Hex. induction envs as [|env envs IH]; simpl; [done|].
  by rewrite handle_when_order_exists.
Qed.

(** C1, as the claim states it, fails: an event whose session carries no
    metadata creates no order however often it is delivered; both
    deliveries return normally, find no order, and leave the stores as
    they were. *)
Lemma two_deliveries_without_metadata_create_no_order :
  deliveries [Demo.env_webhook; Demo.env_webhook] Demo.session_without_metadata
             Demo.world_checked_out
  = ([Ok tt; Ok tt], Demo.world_checked_out)
  ∧ orders (sanity Demo.world_checked_out) = []
  ∧ ORDER_BY_STRIPE_PAYMENT_ID_QUERY
      (Session.payment_intent Demo.session_without_metadata)
      (sanity (deliveries [Demo.env_webhook] Demo.session_without_metadata
                          Demo.world_checked_out).2)
    = None.
Proof. vm_compute. repeat split; reflexivity. Qed.

(** The gap the handler leaves open: when the stock transaction of the
    first delivery fails, the order stays, the event is answered with an
    error, and every redelivery is deduplicated, so the stock of the chair
    is never decremented. *)
Lemma redelivery_never_retries_the_stock_transaction :
  (λ r, match r with Ok _ => true | Throw _ => false end)
    <$> (deliveries [Demo.env_stock_down; Demo.env_webhook; Demo.env_webhook]
                    Demo.session Demo.world_checked_out).1
  = [false; true; true]
  ∧ length (orders (sanity (deliveries
                              [Demo.env_stock_down; Demo.env_webhook; Demo.env_webhook]
                              Demo.session Demo.world_checked_out).2)) = 1%nat
  ∧ ProductDoc.stock
      <$> products (sanity (deliveries
                              [Demo.env_stock_down; Demo.env_webhook; Demo.env_webhook]
                              Demo.session Demo.world_checked_out).2) !! "p1"
    = Some (Some 5).
Proof. vm_compute. repeat split; reflexivity. Qed.

Lemma metadata_field_missing (md : Metadata.t) :
  Metadata.clerkUserId md = None ∨ Metadata.clerkUserId md = Some ""
  ∨ Metadata.productIds md = None ∨ Metadata.productIds md = Some ""
  ∨ Metadata.quantities md = None ∨ Metadata.quantities md = Some "" →
  metadata_complete md = false.
Proof.
  unfold metadata_complete.
  intros [H | [H | [H | [H | [H | H]]]]]; rewrite H; simpl;
    rewrite ?andb_false_r; reflexivity.
Qed.

Lemma handle_incomplete_unchanged (env : Env) (w : World) (session : Session.t) :
  metadata_complete (session_metadata_or_empty session) = false →
  (handleCheckoutCompleted session env w).2 = w.
Proof.
  intros Hm.
  destruct (unavailable env sanity_fetch) eqn:Hf; [by rewrite handle_fetch_down|].
  destruct (ORDER_BY_STRIPE_PAYMENT_ID_QUERY (Session.payment_intent session) (sanity w))
    as [id|] eqn:He.
  - by rewrite (handle_deduplicated env w session id).
  - by rewrite handle_incomplete.
Qed.

Lemma deliveries_incomplete_unchanged (envs : list Env) (w : World) (session : Session.t) :
  metadata_complete (session_metadata_or_empty session) = false →
  (deliveries envs session w).2 = w.
Proof.
  intros Hm. induction envs as [|env envs IH]; simpl; [done|].
  by rewrite handle_incomplete_unchanged.
Qed.

(** C1, amended. At most one order exists per paymentId: no sequence of
    deliveries of an event takes a payment from at most one order to
    more. When the first delivery finds no order for the payment, the
    metadata carries buyer id, productIds and quantities, and the calls of
    that delivery succeed, exactly one order is created and the stock
    transaction is applied once: with distinct product ids, each product's
    stock is decremented once by its quantity and no other product is
    touched. Every later delivery, whatever fails in it, leaves the stores
    as the first left them; when its lookup succeeds it finds the order
    and returns without creating an order or touching stock. An event
    whose metadata lacks the buyer id, the productIds or the quantities
    (absent or empty) creates no order however often it is delivered: the
    stores stay as they were, and a delivery whose lookup succeeds returns
    normally. The order is built from the first page of the session's
    lines. *)
Theorem one_order_per_payment (session : Session.t) (w : World) :
  (∀ envs pid,
     (length (orders_of_payment pid w) ≤ 1)%nat →
     (length (orders_of_payment pid (deliveries envs session w).2) ≤ 1)%nat)
  ∧ (∀ env rest s docs,
       let md := session_metadata_or_empty session in
       let tx := stock_transaction (decode_productIds md) (decode_quantities md) in
       ORDER_BY_STRIPE_PAYMENT_ID_QUERY (Session.payment_intent session) (sanity w) = None →
       metadata_complete md = true →
       unavailable env sanity_fetch = false →
       unavailable env stripe_listLineItems = false →
       unavailable env sanity_create = false →
       unavailable env sanity_transaction = false →
       sessions (stripe w) !! Session.id session = Some s →
       apply_transaction tx (products (sanity w)) = Some docs →
       let o := new_order env session (first_page (Session.line_items s)) (fresh_doc_id (sanity w)) in
       let w1 := stock_adjusted docs (order_created o w) in
       handleCheckoutCompleted session env w = (Ok tt, w1)
       ∧ (deliveries (env :: rest) session w).2 = w1
       ∧ orders_of_payment (Session.payment_intent session) w1 = [o]
       ∧ orders (sanity w1) = orders (sanity w) ++ [o]
       ∧ (NoDup (decode_productIds md) →
          (∀ i pid, decode_productIds md !! i = Some pid →
                    products (sanity w1) !! pid
                    = products (sanity w) !! pid ≫= dec_stock (decode_quantities md !! i))
          ∧ (∀ pid, pid ∉ decode_productIds md →
                    products (sanity w1) !! pid = products (sanity w) !! pid))
       ∧ (∀ env', (handleCheckoutCompleted session env' w1).2 = w1)
       ∧ (∀ env', unavailable env' sanity_fetch = false →
                  handleCheckoutCompleted session env' w1 = (Ok tt, w1)))
  ∧ (let md := session_metadata_or_empty session in
     Metadata.clerkUserId md = None ∨ Metadata.clerkUserId md = Some ""
     ∨ Metadata.productIds md = None ∨ Metadata.productIds md = Some ""
     ∨ Metadata.quantities md = None ∨ Metadata.quantities md = Some "" →
     (∀ envs, (deliveries envs session w).2 = w
              ∧ orders (sanity (deliveries envs session w).2) = orders (sanity w)
              ∧ products (sanity (deliveries envs session w).2) = products (sanity w))
     ∧ (∀ env, unavailable env sanity_fetch = false →
               handleCheckoutCompleted session env w = (Ok tt, w))).
Proof.
  split; [intros envs pid; apply deliveries_at_most_one_order|].
  split.
  2:{ intros md Hmissing%metadata_field_missing. split.
      - intros envs. by rewrite deliveries_incomplete_unchanged.
      - intros env Hf.
        destruct (ORDER_BY_STRIPE_PAYMENT_ID_QUERY (Session.payment_intent session)
                    (sanity w)) as [id|] eqn:He.
        + by apply (handle_deduplicated env w session id).
        + by apply handle_incomplete. }
  intros env rest s docs md tx Hnone Hmd Hf Hl Hc Hu Hs Htx o w1.
  assert (Hrun : handleCheckoutCompleted session env w = (Ok tt, w1)).
  { by apply handle_materialized. }
  assert (Hfound : ORDER_BY_STRIPE_PAYMENT_ID_QUERY (Session.payment_intent session)
                     (sanity w1) = Some (Order._id o)).
  { unfold ORDER_BY_STRIPE_PAYMENT_ID_QUERY in *.
    change (orders (sanity w1)) with (orders (sanity w) ++ [o]).
    rewrite order_lookup_app; [done| |done].
    by destruct (find _ (orders (sanity w))). }
  split; [done|]. split.
  { simpl. rewrite Hrun. simpl. apply deliveries_when_order_exists. by rewrite Hfound. }
  split.
  { unfold w1. change (orders_of_payment ?p (stock_adjusted ?d ?w')) with (orders_of_payment p w').
    rewrite orders_of_payment_created, (orders_of_payment_none _ w Hnone).
    by rewrite decide_True. }
  split; [done|]. split.
  { intros Hnd. change (products (sanity w1)) with docs.
    destruct (apply_transaction_lookup tx (products (sanity w)) docs) as [Hin Hout];
      [by unfold tx; rewrite stock_transaction_ids | done |].
    split.
    - intros i pid Hi. apply Hin. by apply stock_transaction_lookup.
    - intros pid Hpid. apply Hout. by unfold tx; rewrite stock_transaction_ids. }
  split.
  - intros env'. apply handle_when_order_exists. by rewrite Hfound.
  - intros env' Hf'. by apply (handle_deduplicated env' w1 session (Order._id o)).
Qed.

(** Three deliveries of Ann's paid session, the last one while the store
    refuses transactions: one order, and the chairs go from 5 to 3. *)
Lemma one_order_per_payment_witness :
  (deliveries [Demo.env_webhook; Demo.env_webhook; Demo.env_stock_down]
              Demo.session Demo.world_checked_out).2 = Demo.world_paid
  ∧ length (orders_of_payment "pi_1" Demo.world_paid) = 1%nat
  ∧ ProductDoc.stock <$> products (sanity Demo.world_checked_out) !! "p1" = Some (Some 5)
  ∧ ProductDoc.stock <$> products (sanity Demo.world_paid) !! "p1" = Some (Some 3)
  ∧ Metadata.clerkUserId (session_metadata_or_empty Demo.session_without_metadata) = None
  ∧ (deliveries [Demo.env_webhook; Demo.env_stock_down; Demo.env_webhook]
                Demo.session_without_metadata Demo.world_checked_out).2
    = Demo.world_checked_out.
Proof.
  destruct (one_order_per_payment Demo.session Demo.world_checked_out) as (_ & H & _).
  destruct (H Demo.env_webhook [Demo.env_webhook; Demo.env_stock_down] Demo.session
              (<["p1" := ProductDoc.mk (Some "Chair") (Some (10 # 1)%Q) (Some 3) None]>
                 Demo.catalog))
    as (Hrun & Hall & Hone & _); try reflexivity; try (vm_compute; reflexivity).
  destruct (one_order_per_payment Demo.session_without_metadata Demo.world_checked_out)
    as (_ & _ & Hmissing).
  destruct Hmissing as [Hsame _]; [left; reflexivity|].
  split; [|split; [|split; [|split; [|split]]]].
  - rewrite Hall. vm_compute. reflexivity.
  - vm_compute. reflexivity.
  - vm_compute. reflexivity.
  - vm_compute. reflexivity.
  - reflexivity.
  - apply Hsame.
Defined.

(** ** The total of an order *)

(** C2, evaluated on Ann's order of two chairs at 10 pounds: the
    provider lists the line with [amount_total] 2000 pence, the handler
    stores 20 pounds as the line's [priceAtPurchase] next to the quantity
    2, and 20 pounds as the total; the sum of price times quantity is 40. *)
Lemma order_total_differs_from_price_times_quantity :
  LineItem.amount_total <$> Session.line_items Demo.session = [2000]
  ∧ Session.amount_total Demo.session = Some 2000
  ∧ ∃ o, orders (sanity Demo.world_paid) = [o]
         ∧ (λ item, (OrderItem.quantity item, Qred (OrderItem.priceAtPurchase item)))
             <$> Order.items o = [(Some (JS.Num 2), (20 # 1)%Q)]
         ∧ (Order.total o == 20 # 1)%Q
         ∧ (items_total (Order.items o) == 40 # 1)%Q
         ∧ ¬ (Order.total o == items_total (Order.items o))%Q.
Proof.
  split; [vm_compute; reflexivity|]. split; [vm_compute; reflexivity|].
  eexists. split; [vm_compute; reflexivity|].
  split; [vm_compute; reflexivity|]. split; [vm_compute; reflexivity|].
  split; [vm_compute; reflexivity|]. vm_compute. discriminate.
Qed.

(** ** getOrCreateStripeCustomer *)

Section GetOrCreateStripeCustomer.
Variables (email name clerkUserId : string) (env : Env) (w : World).

Lemma resolve_run :
  resolve_stripe_customer email name clerkUserId env w
  = if unavailable env stripe_customers_list then (Throw "service unavailable", w)
    else match stripe_customers_with email w with
         | sc :: _ => (Ok (StripeCustomer.id sc), w)
         | [] =>
             if unavailable env stripe_customers_create
             then (Throw "service unavailable", w)
             else (Ok (StripeCustomer.id (new_stripe_customer email name clerkUserId w)),
                   stripe_customer_created (new_stripe_customer email name clerkUserId w) w)
         end.
Proof.
  unfold resolve_stripe_customer, stripe_customers_list_call, stripe_customers_create_call.
  run. destruct (unavailable env stripe_customers_list); [done|].
  unfold stripe_customers_with.
  destruct (filter _ (stripe_customers (stripe w))) as [|sc rest]; simpl; [|done].
  destruct (unavailable env stripe_customers_create); done.
Qed.

Lemma resolve_keeps_sanity (r : result string) (w1 : World) :
  resolve_stripe_customer email name clerkUserId env w = (r, w1) → sanity w1 = sanity w.
Proof.
  rewrite resolve_run.
  destruct (unavailable env stripe_customers_list); [by intros [= _ <-]|].
  destruct (stripe_customers_with email w); [|by intros [= _ <-]].
  destruct (unavailable env stripe_customers_create); by intros [= _ <-].
Qed.

Lemma getOrCreate_run :
  getOrCreateStripeCustomer email name clerkUserId env w
  = if unavailable env sanity_fetch then (Throw "service unavailable", w)
    else match CUSTOMER_BY_EMAIL_QUERY email (sanity w) with
         | Some c =>
             if JS.truthy (Customer.stripeCustomerId c)
             then (Ok (JS.nullish (Customer.stripeCustomerId c) "", Customer._id c), w)
             else match resolve_stripe_customer email name clerkUserId env w with
                  | (Ok sid, w1) =>
                      if unavailable env sanity_patch then (Throw "service unavailable", w1)
                      else if existsb (λ c', str_eqb (Customer._id c') (Customer._id c))
                                      (customers (sanity w1))
                      then (Ok (sid, Customer._id c),
                            customer_linked (Customer._id c) sid clerkUserId name w1)
                      else (Throw "document not found", w1)
                  | (Throw e, w1) => (Throw e, w1)
                  end
         | None =>
             match resolve_stripe_customer email name clerkUserId env w with
             | (Ok sid, w1) =>
                 if unavailable env sanity_create then (Throw "service unavailable", w1)
                 else (Ok (sid, fresh_doc_id (sanity w1)),
                       customer_created (new_customer env email name clerkUserId sid w1) w1)
             | (Throw e, w1) => (Throw e, w1)
             end
         end.
Proof.
  unfold getOrCreateStripeCustomer, client_fetch, writeClient_patch_customer,
    writeClient_create_customer.
  unfold mbind at 1, M_bind, await.
  destruct (unavailable env sanity_fetch); [done|].
  destruct (CUSTOMER_BY_EMAIL_QUERY email (sanity w)) as [c|].
  - destruct (JS.truthy (Customer.stripeCustomerId c)); [done|].
    unfold mbind at 1, M_bind.
    destruct (resolve_stripe_customer email name clerkUserId env w) as [[sid|e] w1]; [|done].
    run. destruct (unavailable env sanity_patch); [done|].
    destruct (existsb _ _); done.
  - unfold mbind at 1, M_bind.
    destruct (resolve_stripe_customer email name clerkUserId env w) as [[sid|e] w1]; [|done].
    run. destruct (unavailable env sanity_create); done.
Qed.

End GetOrCreateStripeCustomer.

Lemma customer_query_Some (email : string) (s : Sanity) (c : Customer.t) :
  CUSTOMER_BY_EMAIL_QUERY email s = Some c → In c (customers s) ∧ Customer.email c = email.
Proof.
  unfold CUSTOMER_BY_EMAIL_QUERY, str_eqb. intros [Hin Hc]%find_some.
  split; [done|]. by apply bool_decide_eq_true in Hc.
Qed.

Lemma customer_query_None (email : string) (w : World) :
  CUSTOMER_BY_EMAIL_QUERY email (sanity w) = None → sanity_customers_with email w = [].
Proof.
  unfold CUSTOMER_BY_EMAIL_QUERY, sanity_customers_with.
  induction (customers (sanity w)) as [|c cs IH]; simpl; [done|].
  unfold str_eqb at 1. rewrite filter_cons.
  case_bool_decide; case_decide; try done; intros H; by apply IH.
Qed.

Lemma customer_exists (c : Customer.t) (cs : list Customer.t) :
  In c cs → existsb (λ c', str_eqb (Customer._id c') (Customer._id c)) cs = true.
Proof.
  intros Hin. apply existsb_exists. exists c. split; [done|].
  unfold str_eqb. by apply bool_decide_eq_true.
Qed.

Lemma customer_query_app (email : string) (cs : list Customer.t) (c : Customer.t) :
  find (λ c, str_eqb (Customer.email c) email) cs = None →
  Customer.email c = email →
  find (λ c, str_eqb (Customer.email c) email) (cs ++ [c]) = Some c.
Proof.
  intros Hnone Hc. induction cs as [|c' cs IH]; simpl in *.
  - unfold str_eqb. by rewrite bool_decide_eq_true_2.
  - destruct (str_eqb (Customer.email c') email); [done|by apply IH].
Qed.

Lemma customer_query_linked (email id sid uid name : string) (cs : list Customer.t)
  (c : Customer.t) :
  find (λ c, str_eqb (Customer.email c) email) cs = Some c →
  Customer._id c = id →
  find (λ c, str_eqb (Customer.email c) email)
       ((λ c, if str_eqb (Customer._id c) id then set_customer_link sid uid name c else c)
          <$> cs)
  = Some (set_customer_link sid uid name c).
Proof.
  intros Hfind Hid. induction cs as [|c' cs IH]; simpl in *; [done|].
  assert (Hmail : Customer.email (if str_eqb (Customer._id c') id
                                  then set_customer_link sid uid name c' else c')
                  = Customer.email c').
  { by destruct (str_eqb (Customer._id c') id). }
  rewrite Hmail. destruct (str_eqb (Customer.email c') email); [|by apply IH].
  injection Hfind as ->. unfold str_eqb. by rewrite bool_decide_eq_true_2.
Qed.

Lemma linked_same_length (e id sid uid name : string) (cs : list Customer.t) :
  length (filter (λ c, Customer.email c = e)
            ((λ c, if str_eqb (Customer._id c) id
                   then set_customer_link sid uid name c else c) <$> cs))
  = length (filter (λ c, Customer.email c = e) cs).
Proof.
  induction cs as [|c cs IH]; csimpl; [done|].
  rewrite !filter_cons.
  assert (Hmail : Customer.email (if str_eqb (Customer._id c) id
                                  then set_customer_link sid uid name c else c)
                  = Customer.email c) by (by destruct (str_eqb _ _)).
  rewrite Hmail. case_decide; simpl; by rewrite IH.
Qed.

Lemma resolve_id_nonempty (email name clerkUserId sid : string) (env : Env) (w w1 : World) :
  stripe_ids_nonempty w →
  resolve_stripe_customer email name clerkUserId env w = (Ok sid, w1) → sid ≠ "".
Proof.
  intros Hids. rewrite resolve_run.
  destruct (unavailable env stripe_customers_list); [done|].
  destruct (stripe_customers_with email w) as [|sc rest] eqn:Hsc.
  - destruct (unavailable env stripe_customers_create); [done|]. by intros [= <- _].
  - intros [= <- _]. unfold stripe_ids_nonempty in Hids. rewrite Forall_forall in Hids.
    apply Hids. unfold stripe_customers_with in Hsc.
    assert (Hin : sc ∈ filter (λ c, StripeCustomer.email c = email)
                        (stripe_customers (stripe w))) by (rewrite Hsc; left).
    by apply list_elem_of_filter in Hin as [_ Hin].
Qed.

(** After a successful call the content store links the email to the
    returned ids. *)
Lemma getOrCreate_links (email name clerkUserId sid cid : string) (env : Env)
  (w w' : World) :
  stripe_ids_nonempty w →
  getOrCreateStripeCustomer email name clerkUserId env w = (Ok (sid, cid), w') →
  ∃ c', CUSTOMER_BY_EMAIL_QUERY email (sanity w') = Some c'
        ∧ Customer._id c' = cid
        ∧ Customer.stripeCustomerId c' = Some sid
        ∧ sid ≠ "".
Proof.
  intros Hids. rewrite getOrCreate_run.
  destruct (unavailable env sanity_fetch); [done|].
  destruct (CUSTOMER_BY_EMAIL_QUERY email (sanity w)) as [c|] eqn:Hq.
  - destruct (JS.truthy (Customer.stripeCustomerId c)) eqn:Ht.
    { intros [= <- <- <-]. exists c.
      apply truthy_Some in Ht as (ch & s & Hs). rewrite Hs. done. }
    destruct (resolve_stripe_customer email name clerkUserId env w) as [[sid'|e] w1] eqn:Hr;
      [|done].
    pose proof (resolve_keeps_sanity _ _ _ _ _ _ _ Hr) as Hsame.
    pose proof (resolve_id_nonempty _ _ _ _ _ _ _ Hids Hr) as Hne.
    destruct (unavailable env sanity_patch); [done|].
    destruct (existsb _ _); [|done]. intros [= <- <- <-].
    exists (set_customer_link sid' clerkUserId name c). split; [|done].
    unfold CUSTOMER_BY_EMAIL_QUERY in *. simpl. rewrite Hsame.
    by apply customer_query_linked.
  - destruct (resolve_stripe_customer email name clerkUserId env w) as [[sid'|e] w1] eqn:Hr;
      [|done].
    pose proof (resolve_keeps_sanity _ _ _ _ _ _ _ Hr) as Hsame.
    pose proof (resolve_id_nonempty _ _ _ _ _ _ _ Hids Hr) as Hne.
    destruct (unavailable env sanity_create); [done|]. intros [= <- <- <-].
    exists (new_customer env email name clerkUserId sid' w1). split; [|done].
    unfold CUSTOMER_BY_EMAIL_QUERY in *. simpl. rewrite Hsame.
    by apply customer_query_app.
Qed.

Lemma getOrCreate_linked_again (email name clerkUserId : string) (env : Env) (w : World)
  (c : Customer.t) (sid : string) :
  unavailable env sanity_fetch = false →
  CUSTOMER_BY_EMAIL_QUERY email (sanity w) = Some c →
  Customer.stripeCustomerId c = Some sid → sid ≠ "" →
  getOrCreateStripeCustomer email name clerkUserId env w = (Ok (sid, Customer._id c), w).
Proof.
  intros Hf Hq Hs Hne. rewrite getOrCreate_run, Hf, Hq, Hs.
  destruct sid; [done|reflexivity].
Qed.

Lemma resolve_shape (email name clerkUserId : string) (env : Env) (w w1 : World)
  (r : result string) :
  resolve_stripe_customer email name clerkUserId env w = (r, w1) →
  w1 = w
  ∨ (stripe_customers_with email w = []
     ∧ w1 = stripe_customer_created (new_stripe_customer email name clerkUserId w) w).
Proof.
  rewrite resolve_run.
  destruct (unavailable env stripe_customers_list); [intros [= _ <-]; by left|].
  destruct (stripe_customers_with email w); [|intros [= _ <-]; by left].
  destruct (unavailable env stripe_customers_create); intros [= _ <-]; [by left|by right].
Qed.

(** What one call can do to the two customer lists. *)
Lemma getOrCreate_shape (email name clerkUserId : string) (env : Env) (w : World) :
  let w' := (getOrCreateStripeCustomer email name clerkUserId env w).2 in
  (stripe_customers (stripe w') = stripe_customers (stripe w)
   ∨ (stripe_customers_with email w = []
      ∧ stripe_customers (stripe w')
        = new_stripe_customer email name clerkUserId w :: stripe_customers (stripe w)))
  ∧ (customers (sanity w') = customers (sanity w)
     ∨ (∃ id sid,
          customers (sanity w')
          = (λ c, if str_eqb (Customer._id c) id
                  then set_customer_link sid clerkUserId name c else c)
              <$> customers (sanity w))
     ∨ (CUSTOMER_BY_EMAIL_QUERY email (sanity w) = None
        ∧ ∃ c, Customer.email c = email
               ∧ customers (sanity w') = customers (sanity w) ++ [c])).
Proof.
  intros w'. unfold w'. rewrite getOrCreate_run.
  destruct (unavailable env sanity_fetch); [split; by left|].
  destruct (CUSTOMER_BY_EMAIL_QUERY email (sanity w)) as [c|] eqn:Hq.
  - destruct (JS.truthy (Customer.stripeCustomerId c)); [split; by left|].
    destruct (resolve_stripe_customer email name clerkUserId env w) as [[sid|e] w1] eqn:Hr.
    + destruct (resolve_shape _ _ _ _ _ _ _ Hr) as [-> | [Hnone ->]];
        (destruct (unavailable env sanity_patch); [|destruct (existsb _ _)]);
        simpl; split; eauto 7.
    + destruct (resolve_shape _ _ _ _ _ _ _ Hr) as [-> | [Hnone ->]]; simpl;
        split; eauto.
  - destruct (resolve_stripe_customer email name clerkUserId env w) as [[sid|e] w1] eqn:Hr.
    + destruct (resolve_shape _ _ _ _ _ _ _ Hr) as [-> | [Hnone ->]];
        destruct (unavailable env sanity_create); simpl; (split; [eauto|]);
        try (by left);
        (right; right; split; [done|]; eexists; split; [|reflexivity]; reflexivity).
    + destruct (resolve_shape _ _ _ _ _ _ _ Hr) as [-> | [Hnone ->]]; simpl;
        split; eauto.
Qed.

Lemma getOrCreate_at_most_one (email name clerkUserId : string) (env : Env) (w : World)
  (e : string) :
  let w' := (getOrCreateStripeCustomer email name clerkUserId env w).2 in
  ((length (stripe_customers_with e w) ≤ 1)%nat →
   (length (stripe_customers_with e w') ≤ 1)%nat)
  ∧ ((length (sanity_customers_with e w) ≤ 1)%nat →
     (length (sanity_customers_with e w') ≤ 1)%nat).
Proof.
  intros w'. destruct (getOrCreate_shape email name clerkUserId env w) as [Hst Hsa].
  fold w' in Hst, Hsa. split; intros Hle.
  - unfold stripe_customers_with in *.
    destruct Hst as [-> | [Hnone ->]]; [done|].
    rewrite filter_cons. case_decide as He; [|done]. simpl in He. subst e.
    rewrite Hnone. simpl. lia.
  - unfold sanity_customers_with in *.
    destruct Hsa as [-> | [(id & sid & ->) | (Hnone & c & Hc & ->)]]; [done| |].
    + by rewrite linked_same_length.
    + rewrite filter_app, length_app, filter_cons, filter_nil.
      case_decide as He; simpl; [|lia]. rewrite Hc in He. subst e.
      apply customer_query_None in Hnone. unfold sanity_customers_with in Hnone.
      rewrite Hnone. simpl. lia.
Qed.

Lemma getOrCreate_resolves (email name clerkUserId : string) (env : Env) (w : World) :
  (∀ call, unavailable env call = false) →
  (∀ c, CUSTOMER_BY_EMAIL_QUERY email (sanity w) = Some c →
        JS.truthy (Customer.stripeCustomerId c) = false) →
  ∃ sid cid w',
    getOrCreateStripeCustomer email name clerkUserId env w = (Ok (sid, cid), w')
    ∧ match stripe_customers_with email w with
      | sc :: _ => sid = StripeCustomer.id sc ∧ stripe w' = stripe w
      | [] =>
          sid = StripeCustomer.id (new_stripe_customer email name clerkUserId w)
          ∧ stripe_customers (stripe w')
            = new_stripe_customer email name clerkUserId w :: stripe_customers (stripe w)
      end.
Proof.
  intros Hup Hfalsy. rewrite getOrCreate_run, resolve_run, !Hup.
  destruct (CUSTOMER_BY_EMAIL_QUERY email (sanity w)) as [c|] eqn:Hq.
  - rewrite (Hfalsy c eq_refl).
    apply customer_query_Some in Hq as [Hin _].
    destruct (stripe_customers_with email w) as [|sc rest];
      simpl; rewrite (customer_exists c _ Hin); eauto 6.
  - destruct (stripe_customers_with email w) as [|sc rest]; eauto 6.
Qed.

(** C9, as the claim states it, fails: the first lookup is by email, not
    by the buyer's identity. The same buyer checking out under a second
    email gets a second provider customer and a second customer document,
    although a linked document with the buyer's id exists. *)
Lemma same_buyer_two_emails_two_customers :
  (getOrCreateStripeCustomer "ann@shop.test" "Ann Lee" "user_ann" Demo.env Demo.world).1
  = Ok ("cus_0", "doc-0")
  ∧ (λ c, (Customer.clerkUserId c, Customer.stripeCustomerId c))
      <$> customers (sanity Demo.world_first_email)
    = [(Some "user_ann", Some "cus_0")]
  ∧ (getOrCreateStripeCustomer "ann@work.test" "Ann Lee" "user_ann" Demo.env
                               Demo.world_first_email).1
    = Ok ("cus_1", "doc-1")
  ∧ length (sanity_customers_of "user_ann" Demo.world_second_email) = 2%nat
  ∧ StripeCustomer.metadata_clerkUserId <$> stripe_customers (stripe Demo.world_second_email)
    = ["user_ann"; "user_ann"].
Proof. vm_compute. repeat split; reflexivity. Qed.

(** C9, amended. [getOrCreateStripeCustomer] resolves the provider's
    customer in three tiers keyed by the email: a customer document with
    this email and a provider id in the content store is returned as it
    is; otherwise the provider's customer with this email is taken;
    otherwise one is created at the provider; then the link is written to
    the content store (the existing document patched, or a new one
    created). After a successful call, every later call for the same
    email returns the same ids and writes nothing; and no call, failed or
    not, takes an email from at most one record to more in either store,
    so a retry after an attempt that created the provider's customer but
    not the link reuses that customer. *)
Theorem customer_resolution_by_email (email name clerkUserId : string) (env : Env)
  (w : World) :
  (∀ c sid,
     unavailable env sanity_fetch = false →
     CUSTOMER_BY_EMAIL_QUERY email (sanity w) = Some c →
     Customer.stripeCustomerId c = Some sid → sid ≠ "" →
     getOrCreateStripeCustomer email name clerkUserId env w = (Ok (sid, Customer._id c), w))
  ∧ ((∀ call, unavailable env call = false) →
     stripe_ids_nonempty w →
     (∀ c, CUSTOMER_BY_EMAIL_QUERY email (sanity w) = Some c →
           JS.truthy (Customer.stripeCustomerId c) = false) →
     ∃ sid cid w',
       getOrCreateStripeCustomer email name clerkUserId env w = (Ok (sid, cid), w')
       ∧ match stripe_customers_with email w with
         | sc :: _ => sid = StripeCustomer.id sc ∧ stripe w' = stripe w
         | [] =>
             sid = StripeCustomer.id (new_stripe_customer email name clerkUserId w)
             ∧ stripe_customers (stripe w')
               = new_stripe_customer email name clerkUserId w :: stripe_customers (stripe w)
         end
       ∧ ∃ c', CUSTOMER_BY_EMAIL_QUERY email (sanity w') = Some c'
               ∧ Customer._id c' = cid
               ∧ Customer.stripeCustomerId c' = Some sid)
  ∧ (∀ sid cid w',
       stripe_ids_nonempty w →
       getOrCreateStripeCustomer email name clerkUserId env w = (Ok (sid, cid), w') →
       ∀ env' name' clerkUserId',
         unavailable env' sanity_fetch = false →
         getOrCreateStripeCustomer email name' clerkUserId' env' w' = (Ok (sid, cid), w'))
  ∧ (∀ e,
       let w' := (getOrCreateStripeCustomer email name clerkUserId env w).2 in
       ((length (stripe_customers_with e w) ≤ 1)%nat →
        (length (stripe_customers_with e w') ≤ 1)%nat)
       ∧ ((length (sanity_customers_with e w) ≤ 1)%nat →
          (length (sanity_customers_with e w') ≤ 1)%nat)).
Proof.
  split; [|split; [|split]].
  - intros c sid Hf Hq Hs Hne. by apply getOrCreate_linked_again.
  - intros Hup Hids Hfalsy.
    destruct (getOrCreate_resolves email name clerkUserId env w Hup Hfalsy)
      as (sid & cid & w' & Hrun & Htier).
    exists sid, cid, w'. split; [done|]. split; [done|].
    destruct (getOrCreate_links _ _ _ _ _ _ _ _ Hids Hrun) as (c' & Hq & Hid & Hs & _).
    eauto.
  - intros sid cid w' Hids Hrun env' name' clerkUserId' Hf.
    destruct (getOrCreate_links _ _ _ _ _ _ _ _ Hids Hrun) as (c' & Hq & <- & Hs & Hne).
    by apply getOrCreate_linked_again.
  - intros e. apply getOrCreate_at_most_one.
Qed.

(** Ann's first attempt creates the provider's customer and crashes on the
    content store; the retry finds that customer by email and writes the
    link; a third call changes nothing. One record in each store. *)
Lemma customer_resolution_by_email_witness :
  (getOrCreateStripeCustomer "ann@shop.test" "Ann Lee" "user_ann"
                             Demo.env_creates_down Demo.world).1
  = Throw "service unavailable"
  ∧ StripeCustomer.id <$> stripe_customers_with "ann@shop.test" Demo.world_after_crash
    = ["cus_0"]
  ∧ (∃ cid,
       getOrCreateStripeCustomer "ann@shop.test" "Ann Lee" "user_ann"
                                 Demo.env Demo.world_after_crash
       = (Ok ("cus_0", cid), Demo.world_after_retry))
  ∧ (∃ cid,
       getOrCreateStripeCustomer "ann@shop.test" "Ann" "user_ann"
                                 Demo.env Demo.world_after_retry
       = (Ok ("cus_0", cid), Demo.world_after_retry))
  ∧ (length (stripe_customers_with "ann@shop.test" Demo.world_after_retry) ≤ 1)%nat
  ∧ (length (sanity_customers_with "ann@shop.test" Demo.world_after_retry) ≤ 1)%nat.
Proof.
  assert (Hids : stripe_ids_nonempty Demo.world_after_crash).
  { vm_compute. repeat constructor. discriminate. }
  split; [vm_compute; reflexivity|]. split; [vm_compute; reflexivity|].
  destruct (customer_resolution_by_email "ann@shop.test" "Ann Lee" "user_ann"
              Demo.env Demo.world_after_crash) as (_ & Htiers & Hagain & Hone).
  destruct Htiers as (sid & cid & w' & Hrun & Hsid & _);
    [reflexivity | exact Hids | vm_compute; discriminate |].
  assert (Hw' : w' = Demo.world_after_retry).
  { unfold Demo.world_after_retry. by rewrite Hrun. }
  assert (Hcus : sid = "cus_0").
  { revert Hsid. vm_compute. by intros [-> _]. }
  subst w' sid.
  split; [by exists cid|]. split.
  { exists cid. apply (Hagain "cus_0" cid Demo.world_after_retry Hids Hrun). reflexivity. }
  destruct (Hone "ann@shop.test") as [Hst Hsa].
  split; [apply Hst | apply Hsa]; vm_compute; lia.
Defined.

(** * Properties of the surrounding code *)

(** ** Stock levels *)

Lemma getStockStatus_unknown (stock : option Z) :
  getStockStatus stock = unknown ↔ stock = None.
Proof.
  destruct stock as [z|]; simpl; [|done].
  destruct (z <=? 0); [done|]. destruct (z <=? LOW_STOCK_THRESHOLD); done.
Qed.

Lemma stock_cases (stock : Z) :
  (stock ≤ 0 ∧ getStockStatus (Some stock) = out_of_stock
   ∧ isOutOfStock stock = true ∧ isLowStock stock = false)
  ∨ (0 < stock ≤ 5 ∧ getStockStatus (Some stock) = low_stock
     ∧ isOutOfStock stock = false ∧ isLowStock stock = true)
  ∨ (5 < stock ∧ getStockStatus (Some stock) = in_stock
     ∧ isOutOfStock stock = false ∧ isLowStock stock = false).
Proof.
  unfold getStockStatus, isOutOfStock, isLowStock, LOW_STOCK_THRESHOLD.
  destruct (Z.leb_spec stock 0) as [H0|H0], (Z.leb_spec stock 5) as [H5|H5],
    (Z.ltb_spec 0 stock) as [Hp|Hp]; try lia; simpl; auto 10.
Qed.

(** X1. The status waterfall of [getStockStatus] agrees with the two
    boolean helpers: a known stock is "out_of_stock" exactly when
    [isOutOfStock], "low_stock" exactly when [isLowStock], "in_stock"
    exactly when neither; the helpers never both hold; and only a missing
    stock is "unknown". *)
Theorem getStockStatus_agrees_with_helpers (stock : Z) :
  (getStockStatus (Some stock) = out_of_stock ↔ isOutOfStock stock = true)
  ∧ (getStockStatus (Some stock) = low_stock ↔ isLowStock stock = true)
  ∧ (getStockStatus (Some stock) = in_stock
     ↔ isOutOfStock stock = false ∧ isLowStock stock = false)
  ∧ (isOutOfStock stock && isLowStock stock = false)
  ∧ (∀ s, getStockStatus s = unknown ↔ s = None).
Proof.
  destruct (stock_cases stock)
    as [(_ & -> & -> & ->) | [(_ & -> & -> & ->) | (_ & -> & -> & ->)]];
    (repeat split; try done; try (by intros [? ?]); try apply getStockStatus_unknown);
    by intros ->%getStockStatus_unknown.
Qed.

(** X2. What validation guarantees about stock: a validated cart item
    refers to a snapshot with a known, non-zero stock that covers the
    requested quantity; so for a positive quantity the product is neither
    out of stock nor of unknown stock in the sense of [stock.ts]. *)
Theorem validated_items_are_in_stock (products : list Product.t) (items : list CartItem.t)
  (v : ValidatedItem) :
  v ∈ (validate_cart products items).2 →
  ∃ stock,
    Product.stock (product v) = Some stock
    ∧ stock ≠ 0
    ∧ quantity v ≤ stock
    ∧ (0 < quantity v →
       isOutOfStock stock = false
       ∧ (getStockStatus (Some stock) = low_stock ∨ getStockStatus (Some stock) = in_stock)).
Proof.
  rewrite validate_cart_spec. simpl. unfold Spec.validated.
  intros (item & _ & Hv)%list_elem_of_omap.
  unfold Spec.check_item in Hv.
  destruct (find_product products item) as [p|]; [|done].
  repeat case_decide; simplify_eq. cbn [product quantity].
  destruct (Product.stock p) as [stock|]; unfold JS.nullish in *; [|done].
  exists stock. split; [done|]. split; [done|]. split; [lia|]. intros Hpos.
  destruct (stock_cases stock) as [(? & _) | [(_ & Hst & Hout & _) | (_ & Hst & Hout & _)]];
    [lia|simpl in Hst; auto..].
Qed.

(** Two chairs out of five. *)
Lemma validated_items_are_in_stock_witness :
  mkValidatedItem (snapshot ("p1", Demo.chair)) 2
  ∈ (validate_cart Demo.snapshots_of_three Demo.cart_of_three).2
  ∧ ∃ stock,
      Product.stock (snapshot ("p1", Demo.chair)) = Some stock
      ∧ stock ≠ 0 ∧ 2 ≤ stock
      ∧ (0 < 2 → isOutOfStock stock = false
                 ∧ (getStockStatus (Some stock) = low_stock
                    ∨ getStockStatus (Some stock) = in_stock)).
Proof.
  assert (Hin : mkValidatedItem (snapshot ("p1", Demo.chair)) 2
                ∈ (validate_cart Demo.snapshots_of_three Demo.cart_of_three).2).
  { vm_compute. left. }
  split; [exact Hin|].
  exact (validated_items_are_in_stock Demo.snapshots_of_three Demo.cart_of_three _ Hin).
Defined.

Lemma stock_le_total : Total stock_le.
Proof. intros a b. unfold stock_le. lia. Qed.

Lemma low_stock_listed (s : Sanity) (id : string) (doc : ProductDoc.t) :
  (id, doc) ∈ LOW_STOCK_PRODUCTS_QUERY s
  ↔ products s !! id = Some doc
    ∧ ∃ stock, ProductDoc.stock doc = Some stock ∧ isLowStock stock = true.
Proof.
  unfold LOW_STOCK_PRODUCTS_QUERY. rewrite merge_sort_Permutation.
  rewrite elem_of_map_to_list, map_lookup_filter_Some. simpl.
  unfold stock_satisfies, isLowStock. split.
  - intros [Hdoc Hlow]. split; [done|].
    destruct (ProductDoc.stock doc) as [stock|]; [eauto|done].
  - intros [Hdoc (stock & -> & Hlow)]. done.
Qed.

(** X3. The admin's low-stock list and the storefront's badge agree: a
    product document is listed by [LOW_STOCK_PRODUCTS_QUERY] exactly when
    it has a stock for which [isLowStock] holds; the list is in ascending
    order of stock with no product twice; and for every listed product
    [getStockMessage] is the low-stock warning with that number. *)
Theorem low_stock_query_matches_isLowStock (s : Sanity) :
  (∀ id doc,
     (id, doc) ∈ LOW_STOCK_PRODUCTS_QUERY s
     ↔ products s !! id = Some doc
       ∧ ∃ stock, ProductDoc.stock doc = Some stock ∧ isLowStock stock = true)
  ∧ Sorted stock_le (LOW_STOCK_PRODUCTS_QUERY s)
  ∧ NoDup (LOW_STOCK_PRODUCTS_QUERY s).*1
  ∧ (∀ id doc,
       (id, doc) ∈ LOW_STOCK_PRODUCTS_QUERY s →
       getStockStatus (ProductDoc.stock doc) = low_stock
       ∧ getStockMessage (ProductDoc.stock doc)
         = "LOW STOCK - Only " +:+ JS.show_number (ProductDoc.stock doc) +:+ " left").
Proof.
  split; [intros; apply low_stock_listed|]. split; [|split].
  - apply Sorted_merge_sort, stock_le_total.
  - unfold LOW_STOCK_PRODUCTS_QUERY. rewrite merge_sort_Permutation.
    apply NoDup_fst_map_to_list.
  - intros id doc (_ & stock & Hs & Hlow)%low_stock_listed.
    assert (Hst : getStockStatus (ProductDoc.stock doc) = low_stock).
    { rewrite Hs.
      destruct (stock_cases stock) as [(_ & _ & _ & H) | [(_ & H & _) | (_ & _ & _ & H)]];
        congruence. }
    split; [done|]. unfold getStockMessage. by rewrite Hst.
Qed.

(** ** Order statuses *)

Lemma status_property_own (key : string) :
  key ∈ ORDER_STATUS_VALUES →
  ∃ c, (key, c) ∈ ORDER_STATUS_CONFIG
       ∧ OrderStatusConfig.value c = key
       ∧ get_status_property key = own c.
Proof.
  change ORDER_STATUS_VALUES with ["paid"; "shipped"; "delivered"; "cancelled"].
  intros Hin.
  repeat (apply elem_of_cons in Hin as [-> | Hin];
          [eexists; (split; [|split]); [| |reflexivity];
           [unfold ORDER_STATUS_CONFIG; repeat (first [by left | right])
           | reflexivity]|]).
  by apply elem_of_nil in Hin.
Qed.

Lemma status_property_not_own (key : string) :
  key ∉ ORDER_STATUS_VALUES →
  get_status_property key
  = if bool_decide (key ∈ Object_prototype_keys) then inherited key else undefined.
Proof.
  unfold ORDER_STATUS_VALUES, get_status_property. intros Hout.
  destruct (find _ ORDER_STATUS_CONFIG) as [kv|] eqn:Hfind; [|done].
  apply find_some in Hfind as [Hin Hkey]. unfold str_eqb in Hkey.
  apply bool_decide_eq_true in Hkey. exfalso. apply Hout. subst key.
  apply list_elem_of_fmap. exists kv. split; [done|]. by apply list_elem_of_In.
Qed.

Lemma prototype_keys_not_own (key : string) :
  key ∈ Object_prototype_keys → key ∉ ORDER_STATUS_VALUES.
Proof.
  change ORDER_STATUS_VALUES with ["paid"; "shipped"; "delivered"; "cancelled"].
  intros Hin Hown. unfold Object_prototype_keys in Hin.
  repeat (apply elem_of_cons in Hin as [-> | Hin];
          [repeat (apply elem_of_cons in Hown as [? | Hown]; [done|]);
           by apply elem_of_nil in Hown|]).
  by apply elem_of_nil in Hin.
Qed.

(** X4. [getOrderStatus] on every input. A status that is one of the
    four keys of the table gives that key's entry, whose [value] is the
    status; [null], [undefined] and any other string fall back to the
    "paid" entry, except the names an object literal inherits from
    [Object.prototype] ("constructor", "toString", ...): for those the
    subscript finds the inherited value, the [??] does not fall back, and
    [getOrderStatusEmoji] renders "undefined undefined". Every tab of
    [ORDER_STATUS_TABS] other than "all" is a key with the tab's label. *)
Theorem getOrderStatus_falls_back_to_paid (status : option string) :
  (∀ v, status = Some v → v ∈ ORDER_STATUS_VALUES →
        ∃ c, (v, c) ∈ ORDER_STATUS_CONFIG
             ∧ OrderStatusConfig.value c = v
             ∧ getOrderStatus status = own c
             ∧ getOrderStatusEmoji status
               = OrderStatusConfig.emoji c +:+ " " +:+ OrderStatusConfig.label c)
  ∧ (property_key status ∉ ORDER_STATUS_VALUES →
     property_key status ∉ Object_prototype_keys →
     getOrderStatus status = own paid_config
     ∧ getOrderStatusEmoji status
       = OrderStatusConfig.emoji paid_config +:+ " Paid")
  ∧ (property_key status ∈ Object_prototype_keys →
     getOrderStatus status = inherited (property_key status)
     ∧ getOrderStatusEmoji status = "undefined undefined")
  ∧ getOrderStatus None = own paid_config
  ∧ (∀ value label,
       (value, label) ∈ ORDER_STATUS_TABS → value ≠ "all" →
       ∃ c, getOrderStatus (Some value) = own c ∧ label = Some (OrderStatusConfig.label c)).
Proof.
  split; [|split; [|split; [|split]]].
  - intros v -> Hv. destruct (status_property_own v Hv) as (c & Hin & Hval & Hget).
    exists c. unfold getOrderStatusEmoji, getOrderStatus, property_key. simpl.
    rewrite Hget. done.
  - intros Hown Hproto. unfold getOrderStatusEmoji, getOrderStatus.
    rewrite status_property_not_own by done. by rewrite bool_decide_eq_false_2.
  - intros Hproto. unfold getOrderStatusEmoji, getOrderStatus.
    rewrite status_property_not_own by by apply prototype_keys_not_own.
    by rewrite bool_decide_eq_true_2.
  - reflexivity.
  - intros value label [Hall | Hin]%elem_of_cons Hne; [by injection Hall as -> _|].
    apply list_elem_of_fmap in Hin as (v & [= -> ->] & Hv).
    destruct (status_property_own v Hv) as (c & _ & _ & Hget).
    exists c. unfold getOrderStatus, property_key. simpl. by rewrite Hget.
Qed.

(** ** The chat endpoint *)

Lemma valid_messages_Some (body : Chat.json) (messages : list Chat.json) :
  Chat.valid_messages body = Some messages →
  messages ≠ []
  ∧ ∃ members, body = Chat.JObject members
               ∧ Chat.get_messages body = Some (Chat.JArray messages).
Proof.
  unfold Chat.valid_messages.
  destruct body as [|b|q|s|items|members]; simpl;
    try (destruct (negb _); simpl; discriminate); try destruct b; try discriminate.
  destruct (snd <$> find _ (rev members)) as [[| | | |[|m ms]|]|] eqn:Hget;
    try discriminate.
  intros [= <-]. split; [done|]. eauto.
Qed.

(** X5. The chat endpoint's error handling. A body that is not JSON
    is answered 400 "Invalid JSON", and a body whose [messages] member is
    missing or is not a non-empty array 400 "Missing or invalid messages",
    both before [auth], the agent factory or the streaming library is
    called; a request that passes is an object whose last [messages]
    member is a non-empty array. A failure of [auth()] does not fail the
    request: the agent is created for the user id [null]. A failing agent
    factory gives 503. The stream call is returned without [await]: when
    its promise resolves the handler answers with the stream built for
    exactly the request's messages; when it rejects the handler rejects
    too, and no error response is built; only a call that throws is caught
    and answered 500. *)
Theorem chat_POST_contract (env : Chat.Env) :
  (Chat.request_json env = None →
   Chat.POST env = (Chat.responded (Chat.errorResponse "Invalid JSON" 400), []))
  ∧ (∀ body,
       Chat.request_json env = Some body →
       Chat.valid_messages body = None →
       Chat.POST env
       = (Chat.responded (Chat.errorResponse "Missing or invalid messages" 400), []))
  ∧ (∀ body messages,
       Chat.request_json env = Some body →
       Chat.valid_messages body = Some messages →
       let userId := match Chat.auth env with Some (Some u) => Some u | _ => None end in
       let calls := [Chat.called_auth; Chat.called_createShoppingAgent userId] in
       (messages ≠ []
        ∧ ∃ members,
            body = Chat.JObject members
            ∧ snd <$> find (λ kv, bool_decide (kv.1 = "messages")) (rev members)
              = Some (Chat.JArray messages))
       ∧ match Chat.createShoppingAgent env userId with
         | None =>
             Chat.POST env
             = (Chat.responded (Chat.errorResponse "Service temporarily unavailable" 503),
                calls)
         | Some agent =>
             let calls' :=
               calls ++ [Chat.called_createAgentUIStreamResponse agent messages] in
             match Chat.createAgentUIStreamResponse env agent messages with
             | Chat.resolves =>
                 Chat.POST env = (Chat.responded (Chat.stream agent messages), calls')
             | Chat.rejects => Chat.POST env = (Chat.rejected, calls')
             | Chat.throws =>
                 Chat.POST env
                 = (Chat.responded
                      (Chat.errorResponse "Something went wrong. Please try again." 500),
                    calls')
             end
         end)
  ∧ (∀ r, (Chat.POST env).1 = Chat.responded r →
          (Chat.status r ∈ [200; 400; 500; 503])
          ∧ (Chat.status r = 400
             ↔ Chat.request_json env = None
               ∨ ∃ body, Chat.request_json env = Some body
                         ∧ Chat.valid_messages body = None)).
Proof.
  unfold Chat.POST.
  destruct (Chat.request_json env) as [body|]; simpl.
  2:{ split; [done|]. split; [done|]. split; [done|].
      intros r [= <-]. simpl. split; [rewrite !elem_of_cons; lia|]. split; auto. }
  destruct (Chat.valid_messages body) as [messages|] eqn:Hvalid; simpl.
  2:{ split; [done|]. split; [by intros ? [= <-]|].
      split; [intros ? ? [= <-] ?; congruence|].
      intros r [= <-]. simpl. split; [rewrite !elem_of_cons; lia|]. split; eauto. }
  destruct (valid_messages_Some body messages Hvalid) as (Hne & members & -> & Hget).
  assert (Huser : JS.nullish (Chat.auth env) None
                  = match Chat.auth env with Some (Some u) => Some u | _ => None end).
  { by destruct (Chat.auth env) as [[u|]|]. }
  rewrite Huser.
  set (userId := match Chat.auth env with Some (Some u) => Some u | _ => None end).
  split; [done|]. split; [intros ? [= <-] ?; congruence|].
  split.
  - intros ? ms [= <-] Hms. assert (ms = messages) as -> by congruence.
    cbv zeta. fold userId. split; [split; [done|]; exists members; by split|].
    destruct (Chat.createShoppingAgent env userId) as [agent|]; [|done].
    by destruct (Chat.createAgentUIStreamResponse env agent messages).
  - intros r Hr.
    assert (Hstatus : Chat.status r = 200 ∨ Chat.status r = 500 ∨ Chat.status r = 503).
    { destruct (Chat.createShoppingAgent env userId) as [agent|].
      - destruct (Chat.createAgentUIStreamResponse env agent messages);
          simplify_eq/=; auto.
      - simplify_eq/=. auto. }
    split; [rewrite !elem_of_cons; lia|]. split.
    + intros H400. lia.
    + intros [|(? & [= <-] & ?)]; congruence.
Qed.

(** A chat request whose stream promise rejects: the handler rejects, and
    the same request with a stream that resolves is answered with it. *)
Lemma chat_POST_contract_witness :
  Chat.POST (Chat.demo_env Chat.rejects)
  = (Chat.rejected,
     [Chat.called_auth; Chat.called_createShoppingAgent None;
      Chat.called_createAgentUIStreamResponse "agent" [Chat.JString "hi"]])
  ∧ Chat.POST (Chat.demo_env Chat.resolves)
    = (Chat.responded (Chat.stream "agent" [Chat.JString "hi"]),
       [Chat.called_auth; Chat.called_createShoppingAgent None;
        Chat.called_createAgentUIStreamResponse "agent" [Chat.JString "hi"]])
  ∧ Chat.POST (Chat.demo_env Chat.throws)
    = (Chat.responded (Chat.errorResponse "Something went wrong. Please try again." 500),
       [Chat.called_auth; Chat.called_createShoppingAgent None;
        Chat.called_createAgentUIStreamResponse "agent" [Chat.JString "hi"]]).
Proof.
  split; [|split].
  - destruct (chat_POST_contract (Chat.demo_env Chat.rejects)) as (_ & _ & H & _).
    destruct (H Chat.demo_body [Chat.JString "hi"] eq_refl eq_refl) as [_ Hrun].
    exact Hrun.
  - destruct (chat_POST_contract (Chat.demo_env Chat.resolves)) as (_ & _ & H & _).
    destruct (H Chat.demo_body [Chat.JString "hi"] eq_refl eq_refl) as [_ Hrun].
    exact Hrun.
  - destruct (chat_POST_contract (Chat.demo_env Chat.throws)) as (_ & _ & H & _).
    destruct (H Chat.demo_body [Chat.JString "hi"] eq_refl eq_refl) as [_ Hrun].
    exact Hrun.
Defined.

(** ** Who writes what *)

Lemma getOrCreate_keeps_inventory (email name clerkUserId : string) (env : Env)
  (w : World) :
  let w' := (getOrCreateStripeCustomer email name clerkUserId env w).2 in
  orders (sanity w') = orders (sanity w)
  ∧ products (sanity w') = products (sanity w)
  ∧ sessions (stripe w') = sessions (stripe w).
Proof.
  intros w'. unfold w'. rewrite getOrCreate_run.
  destruct (unavailable env sanity_fetch); [done|].
  destruct (CUSTOMER_BY_EMAIL_QUERY email (sanity w)) as [c|].
  - destruct (JS.truthy (Customer.stripeCustomerId c)); [done|].
    destruct (resolve_stripe_customer email name clerkUserId env w) as [[sid|e] w1] eqn:Hr;
      destruct (resolve_shape _ _ _ _ _ _ _ Hr) as [-> | [_ ->]]; try done.
    all: destruct (unavailable env sanity_patch); [done|].
    all: destruct (existsb _ _); done.
  - destruct (resolve_stripe_customer email name clerkUserId env w) as [[sid|e] w1] eqn:Hr;
      destruct (resolve_shape _ _ _ _ _ _ _ Hr) as [-> | [_ ->]]; try done.
    all: destruct (unavailable env sanity_create); done.
Qed.

Lemma createCheckoutSession_success (items : list CartItem.t) (env : Env) (w w1 : World)
  (res : CheckoutResult) :
  createCheckoutSession items env w = (Ok res, w1) →
  success res = true →
  ∃ userId user ids w0 vs,
    auth_userId env = Some userId ∧ userId ≠ ""
    ∧ clerk_user env = Some user
    ∧ items ≠ []
    ∧ validate_cart (PRODUCTS_BY_IDS_QUERY (CartItem.productId <$> items) (sanity w)) items
      = ([], vs)
    ∧ getOrCreateStripeCustomer (user_email user) (user_name user (user_email user))
                                userId env w = (Ok ids, w0)
    ∧ w1 = session_created
             (created_session
                (session_params env ids.1
                   (session_metadata userId (user_email user) ids.2 vs) vs) w0) w0
    ∧ res = mkCheckoutResult true
              (Session.url (created_session
                              (session_params env ids.1
                                 (session_metadata userId (user_email user) ids.2 vs) vs)
                              w0)) None.
Proof.
  intros Hrun Hok. revert Hrun.
  unfold createCheckoutSession, createCheckoutSession_try, client_fetch,
    stripe_sessions_create_call.
  unfold try_catch, mbind, M_bind, mret, M_ret, ask, await. cbn beta iota.
  destruct (unavailable env clerk_auth); [intros [= <- _]; done|].
  destruct (unavailable env clerk_currentUser); [intros [= <- _]; done|].
  destruct (auth_userId env) as [[|c u]|];
    [intros [= <- _]; done| |intros [= <- _]; done].
  destruct (clerk_user env) as [user|]; [|intros [= <- _]; done].
  destruct items as [|item items]; [intros [= <- _]; done|].
  destruct (unavailable env sanity_fetch); [intros [= <- _]; done|].
  destruct (validate_cart _ (item :: items)) as [errs vs] eqn:Hval.
  destruct errs; [|intros [= <- _]; done].
  fold (user_email user).
  destruct (getOrCreateStripeCustomer _ _ _ env w) as [[ids|e] w0] eqn:Hcust;
    [|intros [= <- _]; done].
  destruct (unavailable env stripe_sessions_create); [intros [= <- _]; done|].
  intros [= <- <-].
  exists (String c u), user, ids, w0, vs. repeat split; done.
Qed.

Lemma createCheckoutSession_keeps_inventory (items : list CartItem.t) (env : Env)
  (w : World) :
  orders (sanity (createCheckoutSession items env w).2) = orders (sanity w)
  ∧ products (sanity (createCheckoutSession items env w).2) = products (sanity w).
Proof.
  unfold createCheckoutSession, createCheckoutSession_try, client_fetch,
    stripe_sessions_create_call.
  unfold try_catch, mbind, M_bind, mret, M_ret, ask, await. cbn beta iota.
  destruct (unavailable env clerk_auth); [done|].
  destruct (unavailable env clerk_currentUser); [done|].
  destruct (auth_userId env) as [[|c u]|]; [done| |done].
  destruct (clerk_user env) as [user|]; [|done].
  destruct items as [|item items]; [done|].
  destruct (unavailable env sanity_fetch); [done|].
  destruct (validate_cart _ (item :: items)) as [errs vs].
  destruct errs; [|done].
  pose proof (getOrCreate_keeps_inventory
                (JS.nullish (head (ClerkUser.emailAddresses user)) "")
                (user_name user (JS.nullish (head (ClerkUser.emailAddresses user)) ""))
                (String c u) env w) as (Ho & Hp & _).
  destruct (getOrCreateStripeCustomer _ _ _ env w) as [[ids|e] w0]; [|done].
  destruct (unavailable env stripe_sessions_create); done.
Qed.

(** X6. Who writes what. [createCheckoutSession] never changes an
    order or a product document, so it never touches stock, whatever its
    outcome; [handleCheckoutCompleted] never changes a customer document
    nor anything at the payment provider, and it only ever appends to the
    orders: the orders it found are still there, unchanged and in the same
    order. *)
Theorem writes_are_separated (env : Env) (w : World) :
  (∀ items,
     orders (sanity (createCheckoutSession items env w).2) = orders (sanity w)
     ∧ products (sanity (createCheckoutSession items env w).2) = products (sanity w))
  ∧ (∀ session,
       customers (sanity (handleCheckoutCompleted session env w).2) = customers (sanity w)
       ∧ stripe (handleCheckoutCompleted session env w).2 = stripe w
       ∧ orders (sanity w) `prefix_of` orders (sanity (handleCheckoutCompleted session env w).2)).
Proof.
  split; [intros; apply createCheckoutSession_keeps_inventory|].
  intros session.
  destruct (handle_outcome env w session)
    as [-> | (_ & o & _ & [-> | (docs & ->)])]; (split; [done|]; split; [done|]).
  - done.
  - by apply prefix_app_r.
  - by apply prefix_app_r.
Qed.

(** ** From checkout to the success page *)

(** X7. A session made by [createCheckoutSession] belongs to the buyer
    who made it: after a successful checkout the provider holds a session
    with the returned URL whose metadata names the signed-in user, so
    [getCheckoutSession] shows it to that user, with the provider's total
    of its lines, and answers "Session not found" to every other
    signed-in user. *)
Theorem created_session_belongs_to_its_buyer (items : list CartItem.t) (env : Env)
  (w w1 : World) (res : CheckoutResult) :
  createCheckoutSession items env w = (Ok res, w1) →
  success res = true →
  ∃ userId s,
    auth_userId env = Some userId ∧ userId ≠ ""
    ∧ sessions (stripe w1) !! Session.id s = Some s
    ∧ url res = Session.url s ∧ is_Some (url res)
    ∧ Session.amount_total s = Some (sum_amounts (Session.line_items s))
    ∧ (∀ env',
         unavailable env' clerk_auth = false →
         unavailable env' stripe_sessions_retrieve = false →
         auth_userId env' = Some userId →
         getCheckoutSession (Session.id s) env' w1
         = (Ok (SessionResult.mk true None (Some (session_view s))), w1))
    ∧ (∀ env' other,
         unavailable env' clerk_auth = false →
         unavailable env' stripe_sessions_retrieve = false →
         auth_userId env' = Some other → other ≠ "" → other ≠ userId →
         getCheckoutSession (Session.id s) env' w1
         = (Ok (SessionResult.mk false (Some "Session not found") None), w1)).
Proof.
  intros Hrun Hok.
  destruct (createCheckoutSession_success items env w w1 res Hrun Hok)
    as (userId & user & ids & w0 & vs & Hu & Hne & _ & _ & _ & _ & -> & ->).
  set (s := created_session _ w0).
  assert (Hs : sessions (stripe (session_created s w0)) !! Session.id s = Some s)
    by apply lookup_insert_eq.
  exists userId, s.
  split; [done|]. split; [done|]. split; [done|]. split; [done|].
  split; [by eexists|]. split; [done|]. split.
  - intros env' Ha Hr Hu'.
    rewrite (getCheckoutSession_retrieved env' _ _ userId s) by done.
    by rewrite bool_decide_eq_true_2.
  - intros env' other Ha Hr Hu' Hne' Hdiff.
    rewrite (getCheckoutSession_retrieved env' _ _ other s) by done.
    rewrite bool_decide_eq_false_2; [done|].
    unfold s, metadata_clerkUserId. simpl. congruence.
Qed.

(** Ann's checkout of two chairs, seen by Ann and by Bob. *)
Lemma created_session_belongs_to_its_buyer_witness :
  createCheckoutSession Demo.cart Demo.env Demo.world
  = (Ok (mkCheckoutResult true (Some "https://checkout.stripe.com/c/pay/cs_1") None),
     Demo.world_checked_out)
  ∧ ∃ s, sessions (stripe Demo.world_checked_out) !! Session.id s = Some s
         ∧ Session.amount_total s = Some (sum_amounts (Session.line_items s))
         ∧ getCheckoutSession (Session.id s) Demo.env Demo.world_checked_out
           = (Ok (SessionResult.mk true None (Some (session_view s))),
              Demo.world_checked_out)
         ∧ getCheckoutSession (Session.id s) Demo.env_bob Demo.world_checked_out
           = (Ok (SessionResult.mk false (Some "Session not found") None),
              Demo.world_checked_out).
Proof.
  assert (Hrun : createCheckoutSession Demo.cart Demo.env Demo.world
                 = (Ok (mkCheckoutResult true
                          (Some "https://checkout.stripe.com/c/pay/cs_1") None),
                    Demo.world_checked_out)) by (vm_compute; reflexivity).
  split; [exact Hrun|].
  destruct (created_session_belongs_to_its_buyer _ _ _ _ _ Hrun eq_refl)
    as (userId & s & Hu & _ & Hs & _ & _ & Htotal & Hown & Hother).
  injection Hu as <-.
  exists s. split; [exact Hs|]. split; [exact Htotal|]. split.
  - apply Hown; reflexivity.
  - apply (Hother Demo.env_bob "user_bob"); try reflexivity; discriminate.
Defined.

(** ** From checkout to the order *)

Lemma snapshot_in_store (ids : list string) (s : Sanity) (p : Product.t) :
  In p (PRODUCTS_BY_IDS_QUERY ids s) →
  ∃ doc, products s !! Product._id p = Some doc ∧ p = snapshot (Product._id p, doc).
Proof.
  unfold PRODUCTS_BY_IDS_QUERY. intros Hin%list_elem_of_In.
  apply list_elem_of_fmap in Hin as ([id doc] & -> & Hkv).
  apply elem_of_map_to_list, map_lookup_filter_Some in Hkv as [Hdoc _].
  exists doc. done.
Qed.

Lemma join_nonempty (sep x : string) (l : list string) :
  x ≠ "" → JS.truthy (Some (JS.join sep (x :: l))) = true.
Proof.
  intros Hx. destruct x as [|c x]; [done|]. destruct l; reflexivity.
Qed.

Lemma toString_nonempty (z : Z) : JS.toString z ≠ "".
Proof.
  intros Hz. pose proof (Number_toString z) as Hn. rewrite Hz in Hn.
  unfold JS.toString in Hz. destruct z as [|p|p]; [done| |done].
  simpl in Hz. pose proof (DecimalPos.Unsigned.to_uint_nonnil p) as Hnil.
  destruct (Pos.to_uint p); done.
Qed.

Lemma decode_session_metadata (userId userEmail sanityCustomerId : string)
  (vs : list ValidatedItem) :
  vs ≠ [] →
  Forall (λ v, comma_free (Product._id (product v))) vs →
  let md := session_metadata userId userEmail sanityCustomerId vs in
  decode_productIds md = (λ v, Product._id (product v)) <$> vs
  ∧ decode_quantities md = (λ v, JS.Num (quantity v)) <$> vs.
Proof.
  intros Hne Hfree md. split.
  - unfold decode_productIds, md, session_metadata. simpl.
    apply split_join; [by destruct vs|]. by apply Forall_fmap.
  - unfold decode_quantities, md, session_metadata. simpl.
    rewrite split_join.
    + rewrite <- list_fmap_compose. apply list_fmap_ext. intros i v _. simpl.
      apply Number_toString.
    + by destruct vs.
    + apply Forall_fmap, Forall_forall. intros v _. apply toString_no_comma.
Qed.

Lemma apply_transaction_succeeds (tx : list Patch) (m : gmap string ProductDoc.t) :
  (∀ patch, patch ∈ tx → is_Some (m !! patch.1) ∧ ∃ q, patch.2 = Some (JS.Num q)) →
  is_Some (apply_transaction tx m).
Proof.
  revert m. induction tx as [|[id a] tx IH]; intros m Hall; [by eexists|].
  destruct (Hall (id, a)) as [[p Hp] [q Hq]]; [left|]. simpl in *. subst a.
  unfold apply_transaction. simpl. rewrite Hp. simpl.
  apply IH. intros patch Hin. destruct (Hall patch) as [Hsome Hnum]; [by right|].
  split; [|done]. apply lookup_insert_is_Some. destruct (decide (id = patch.1)); auto.
Qed.

Lemma order_lines_new_order (env : Env) (session : Session.t) (lineItems : list LineItem.t)
  (id : string) :
  order_lines (new_order env session lineItems id)
  = stock_transaction (decode_productIds (session_metadata_or_empty session))
                      (decode_quantities (session_metadata_or_empty session)).
Proof.
  unfold order_lines, new_order, order_items, stock_transaction. simpl.
  apply list_eq. intros i. rewrite list_lookup_fmap, !list_lookup_imap.
  by destruct (decode_productIds _ !! i).
Qed.

Lemma validated_stock (products : list Product.t) (items : list CartItem.t)
  (item : CartItem.t) (v : ValidatedItem) :
  Spec.check_item products item = inr v →
  ∃ stock, Product.stock (product v) = Some stock ∧ stock ≠ 0 ∧ quantity v ≤ stock
           ∧ In (product v) products
           ∧ Product._id (product v) = CartItem.productId item
           ∧ quantity v = CartItem.quantity item.
Proof.
  unfold Spec.check_item.
  destruct (find_product products item) as [p|] eqn:Hp; [|done].
  apply find_product_id in Hp as [Hin Hid].
  repeat case_decide; intros [= <-]. cbn [product quantity].
  destruct (Product.stock p) as [stock|]; unfold JS.nullish in *; [|done].
  exists stock. repeat split; try done; lia.
Qed.

Lemma validated_each (products : list Product.t) (items : list CartItem.t) :
  Spec.failures products items = [] →
  Forall2 (λ item v, Spec.check_item products item = inr v)
          items (Spec.validated products items).
Proof.
  unfold Spec.failures, Spec.validated.
  induction items as [|item items IH]; csimpl; [constructor|].
  destruct (Spec.check_item products item) as [f|v] eqn:Hc; csimpl; [done|].
  intros Hrest. constructor; [done|by apply IH].
Qed.

Lemma stock_transaction_fmap {A} (f : A → string) (g : A → JS.number) (l : list A) :
  stock_transaction (f <$> l) (g <$> l) = (λ a, (f a, Some (g a))) <$> l.
Proof.
  unfold stock_transaction. apply list_eq. intros i.
  rewrite list_lookup_imap, !list_lookup_fmap. by destruct (l !! i).
Qed.

Lemma checked_item_in_store (ids : list string) (s : Sanity) (item : CartItem.t)
  (v : ValidatedItem) :
  Spec.check_item (PRODUCTS_BY_IDS_QUERY ids s) item = inr v →
  ∃ doc stock,
    products s !! CartItem.productId item = Some doc
    ∧ ProductDoc.stock doc = Some stock
    ∧ stock ≠ 0 ∧ CartItem.quantity item ≤ stock
    ∧ Product._id (product v) = CartItem.productId item
    ∧ quantity v = CartItem.quantity item.
Proof.
  intros Hc.
  destruct (validated_stock _ [] _ _ Hc) as (stock & Hstock & H0 & Hle & Hin & Hid & Hq).
  apply snapshot_in_store in Hin as (doc & Hdoc & Hsnap).
  exists doc, stock. rewrite Hsnap in Hstock. simpl in Hstock.
  rewrite <- Hid, <- Hq. done.
Qed.

Lemma checked_pairs (ids : list string) (s : Sanity) (items : list CartItem.t)
  (vs : list ValidatedItem) :
  Forall2 (λ item v, Spec.check_item (PRODUCTS_BY_IDS_QUERY ids s) item = inr v) items vs →
  (λ v, (Product._id (product v), Some (JS.Num (quantity v)))) <$> vs
  = (λ item, (CartItem.productId item, Some (JS.Num (CartItem.quantity item)))) <$> items.
Proof.
  induction 1 as [|item v items vs Hc _ IH]; [done|]. csimpl.
  destruct (checked_item_in_store _ _ _ _ Hc) as (_ & _ & _ & _ & _ & _ & -> & ->).
  by rewrite IH.
Qed.

Lemma checked_ids_well_formed (ids : list string) (w : World) (items : list CartItem.t)
  (vs : list ValidatedItem) :
  ids_well_formed w →
  Forall2 (λ item v, Spec.check_item (PRODUCTS_BY_IDS_QUERY ids (sanity w)) item = inr v)
          items vs →
  Forall (λ v, Product._id (product v) ≠ "" ∧ comma_free (Product._id (product v))) vs.
Proof.
  intros Hids. induction 1 as [|item v items vs Hc _ IH]; constructor; [|done].
  destruct (checked_item_in_store _ _ _ _ Hc) as (doc & _ & Hdoc & _ & _ & _ & -> & _).
  by apply (Hids _ doc).
Qed.

(** X8. A successful checkout followed by the delivery of its completed
    session, with every service up and no order yet for the payment,
    creates one order for the buyer whose lines are the cart's product
    ids and quantities, and commits the stock transaction; for a cart
    without repeated products each bought product ends with its stock
    lowered by the bought quantity, which the validation bounded by the
    stock, and no other product changes. The delivered session carries the
    id and the metadata of the created one. *)
Theorem checkout_then_webhook_fulfils_the_cart (items : list CartItem.t) (env : Env)
  (w w1 : World) (res : CheckoutResult) :
  createCheckoutSession items env w = (Ok res, w1) →
  success res = true →
  ids_well_formed w →
  ∃ userId s,
    auth_userId env = Some userId
    ∧ sessions (stripe w1) !! Session.id s = Some s
    ∧ url res = Session.url s
    ∧ ∀ env' delivered,
        (∀ call, unavailable env' call = false) →
        Session.id delivered = Session.id s →
        Session.metadata delivered = Session.metadata s →
        ORDER_BY_STRIPE_PAYMENT_ID_QUERY (Session.payment_intent delivered) (sanity w1)
        = None →
        ∃ o docs,
          handleCheckoutCompleted delivered env' w1
          = (Ok tt, stock_adjusted docs (order_created o w1))
          ∧ Order.clerkUserId o = userId
          ∧ Order.stripePaymentId o = Session.payment_intent delivered
          ∧ order_lines o
            = (λ item, (CartItem.productId item, Some (JS.Num (CartItem.quantity item))))
                <$> items
          ∧ (NoDup (CartItem.productId <$> items) →
             (∀ item, item ∈ items →
                ∃ doc stock,
                  products (sanity w) !! CartItem.productId item = Some doc
                  ∧ ProductDoc.stock doc = Some stock
                  ∧ CartItem.quantity item ≤ stock
                  ∧ ProductDoc.stock <$> docs !! CartItem.productId item
                    = Some (Some (stock - CartItem.quantity item)))
             ∧ ∀ id, id ∉ CartItem.productId <$> items
                     → docs !! id = products (sanity w) !! id).
Proof.
  intros Hrun Hok Hids.
  destruct (createCheckoutSession_success _ _ _ _ _ Hrun Hok)
    as (userId & user & ids & w0 & vs & Hauth & Hne & Huser & Hitems & Hval & Hcust
        & -> & ->).
  set (md := session_metadata userId (user_email user) ids.2 vs).
  set (s := created_session (session_params env ids.1 md vs) w0).
  pose proof (getOrCreate_keeps_inventory (user_email user)
                (user_name user (user_email user)) userId env w) as Hinv.
  rewrite Hcust in Hinv. simpl in Hinv. destruct Hinv as (_ & Hprod & _).
  assert (Hprod1 : products (sanity (session_created s w0)) = products (sanity w))
    by (rewrite <- Hprod; reflexivity).
  rewrite validate_cart_spec in Hval. injection Hval as Hfail Hvs.
  set (P := PRODUCTS_BY_IDS_QUERY (CartItem.productId <$> items) (sanity w)) in *.
  pose proof (validated_each P items Hfail) as Heach. rewrite Hvs in Heach.
  assert (Hstore : ∀ item, item ∈ items →
            ∃ doc stock, products (sanity w) !! CartItem.productId item = Some doc
                         ∧ ProductDoc.stock doc = Some stock
                         ∧ CartItem.quantity item ≤ stock).
  { intros item [i Hi]%list_elem_of_lookup.
    destruct (Forall2_lookup_l _ _ _ _ _ Heach Hi) as (v & _ & Hc).
    destruct (checked_item_in_store _ _ _ _ Hc) as (doc & stock & ? & ? & ? & ? & _).
    eauto. }
  assert (Hpairs : (λ v, (Product._id (product v), Some (JS.Num (quantity v)))) <$> vs
                   = (λ item, (CartItem.productId item,
                               Some (JS.Num (CartItem.quantity item)))) <$> items).
  { exact (checked_pairs _ _ _ _ Heach). }
  assert (Hwf : Forall (λ v, Product._id (product v) ≠ ""
                             ∧ comma_free (Product._id (product v))) vs).
  { exact (checked_ids_well_formed _ _ _ _ Hids Heach). }
  assert (Hvne : vs ≠ []).
  { intros ->. apply Forall2_nil_inv_r in Heach. done. }
  destruct (decode_session_metadata userId (user_email user) ids.2 vs Hvne)
    as [Hdp Hdq].
  { eapply Forall_impl; [exact Hwf|]. by intros v [_ ?]. }
  fold md in Hdp, Hdq.
  exists userId, s. split; [done|]. split.
  { unfold session_created. simpl. apply lookup_insert_eq. }
  split; [reflexivity|].
  intros env' delivered Hup Hid Hmd Hnone.
  assert (Hmd' : session_metadata_or_empty delivered = md).
  { unfold session_metadata_or_empty. by rewrite Hmd. }
  assert (Htx : stock_transaction (decode_productIds (session_metadata_or_empty delivered))
                  (decode_quantities (session_metadata_or_empty delivered))
                = (λ item, (CartItem.productId item,
                            Some (JS.Num (CartItem.quantity item)))) <$> items).
  { rewrite Hmd', Hdp, Hdq, <- Hpairs. apply stock_transaction_fmap. }
  destruct (apply_transaction_succeeds
              ((λ item, (CartItem.productId item,
                         Some (JS.Num (CartItem.quantity item)))) <$> items)
              (products (sanity (session_created s w0)))) as [docs Hdocs].
  { intros patch (item & -> & Hin)%list_elem_of_fmap. cbn [fst snd].
    destruct (Hstore item Hin) as (doc & stock & Hdoc & _).
    rewrite Hprod1, Hdoc. eauto. }
  exists (new_order env' delivered (first_page (Session.line_items s))
            (fresh_doc_id (sanity (session_created s w0)))), docs.
  split.
  { apply handle_materialized; try apply Hup; try done.
    - rewrite Hmd'. unfold metadata_complete, md, session_metadata.
      cbn [Metadata.clerkUserId Metadata.productIds Metadata.quantities].
      destruct vs as [|v vs]; [done|]. apply Forall_cons_1 in Hwf as [[Hv _] _].
      rewrite !fmap_cons, !join_nonempty by (done || apply toString_nonempty).
      by destruct userId.
    - rewrite Hid. unfold session_created. simpl. apply lookup_insert_eq.
    - by rewrite Htx. }
  split; [unfold new_order; simpl; by rewrite Hmd'|].
  split; [reflexivity|].
  split; [by rewrite order_lines_new_order|].
  intros Hnd.
  assert (Hfst : ((λ item, (CartItem.productId item,
                            Some (JS.Num (CartItem.quantity item)))) <$> items).*1
                 = CartItem.productId <$> items)
    by (by rewrite <- list_fmap_compose).
  destruct (apply_transaction_lookup _ _ _ ltac:(rewrite Hfst; exact Hnd) Hdocs)
    as [Hin Hout].
  rewrite Hprod1 in Hin, Hout. split.
  - intros item Hitem. destruct (Hstore item Hitem) as (doc & stock & Hdoc & Hstock & Hle).
    exists doc, stock. repeat split; try done.
    rewrite (Hin (CartItem.productId item) (Some (JS.Num (CartItem.quantity item)))).
    + rewrite Hdoc. simpl. by rewrite Hstock.
    + apply list_elem_of_fmap. eauto.
  - intros id Hid'. apply Hout. by rewrite Hfst.
Qed.

(** Ann buys two of the five chairs; three are left. *)
Lemma checkout_then_webhook_fulfils_the_cart_witness :
  createCheckoutSession Demo.cart Demo.env Demo.world
  = (Ok (mkCheckoutResult true (Some "https://checkout.stripe.com/c/pay/cs_1") None),
     Demo.world_checked_out)
  ∧ ids_well_formed Demo.world
  ∧ ∃ s o docs,
      sessions (stripe Demo.world_checked_out) !! Session.id s = Some s
      ∧ handleCheckoutCompleted s Demo.env_webhook Demo.world_checked_out
        = (Ok tt, stock_adjusted docs (order_created o Demo.world_checked_out))
      ∧ Order.clerkUserId o = "user_ann"
      ∧ order_lines o = [("p1", Some (JS.Num 2))]
      ∧ ProductDoc.stock <$> docs !! "p1" = Some (Some 3).
Proof.
  assert (Hrun : createCheckoutSession Demo.cart Demo.env Demo.world
                 = (Ok (mkCheckoutResult true
                          (Some "https://checkout.stripe.com/c/pay/cs_1") None),
                    Demo.world_checked_out)) by (vm_compute; reflexivity).
  assert (Hids : ids_well_formed Demo.world).
  { intros id doc Hdoc. unfold Demo.world, Demo.catalog in Hdoc. simpl in Hdoc.
    rewrite !lookup_insert_Some, lookup_empty in Hdoc.
    destruct Hdoc as [[<- _]|[_ [[<- _]|[_ [[<- _]|[_ [[<- _]|[_ Hdoc]]]]]]]];
      [split; [discriminate|reflexivity]..|discriminate Hdoc]. }
  split; [exact Hrun|]. split; [exact Hids|].
  destruct (checkout_then_webhook_fulfils_the_cart _ _ _ _ _ Hrun eq_refl Hids)
    as (userId & s & Hu & Hs & _ & Hweb).
  injection Hu as <-.
  destruct (Hweb Demo.env_webhook s) as (o & docs & Hh & Ho & _ & Hlines & Hstock);
    try reflexivity.
  exists s, o, docs. split; [exact Hs|]. split; [exact Hh|]. split; [exact Ho|].
  split; [exact Hlines|].
  destruct Hstock as [Hstock _]; [apply NoDup_singleton|].
  destruct (Hstock (CartItem.mk "p1" "Chair" (1 # 100)%Q 2 None)) as
    (doc & stock & Hdoc & Hst & _ & Hleft); [left|].
  vm_compute in Hdoc. injection Hdoc as <-. injection Hst as <-. exact Hleft.
Defined.
(** ** A checkout that fails *)

Ltac checkout_case :=
  do 2 eexists; (split; [reflexivity|]); simpl in *;
  (split; [intros ?; by eauto|]);
  (split; [intros ?; done|]);
  split; intros; destruct_or?; by simplify_eq/=.

(** X9. [createCheckoutSession] always returns a result. A failed one
    carries an error and no URL and has created no session at the
    provider; a successful one carries a URL and no error and has stored
    exactly one more session. With the identity service up, a visitor who
    is not signed in is told to sign in, and a signed-in user with an
    empty cart is told so, both before any store is asked and with nothing
    changed. *)
Theorem failed_checkout_creates_no_session (items : list CartItem.t) (env : Env)
  (w : World) :
  ∃ res w1,
    createCheckoutSession items env w = (Ok res, w1)
    ∧ (success res = false →
       url res = None ∧ is_Some (error res)
       ∧ sessions (stripe w1) = sessions (stripe w))
    ∧ (success res = true →
       error res = None ∧ is_Some (url res)
       ∧ ∃ s, url res = Session.url s
              ∧ sessions (stripe w1) = <[Session.id s := s]> (sessions (stripe w)))
    ∧ (unavailable env clerk_auth = false →
       unavailable env clerk_currentUser = false →
       JS.truthy (auth_userId env) = false ∨ clerk_user env = None →
       res = failure "Please sign in to checkout" ∧ w1 = w)
    ∧ (unavailable env clerk_auth = false →
       unavailable env clerk_currentUser = false →
       JS.truthy (auth_userId env) = true →
       is_Some (clerk_user env) →
       items = [] →
       res = failure "Your cart is empty" ∧ w1 = w).
Proof.
  unfold createCheckoutSession, createCheckoutSession_try, client_fetch,
    stripe_sessions_create_call.
  unfold try_catch, mbind, M_bind, mret, M_ret, ask, await. cbn beta iota.
  destruct (unavailable env clerk_auth) eqn:Hauth; [checkout_case|].
  destruct (unavailable env clerk_currentUser) eqn:Huser; [checkout_case|].
  destruct (auth_userId env) as [[|c u]|] eqn:Hid; [checkout_case| |checkout_case].
  destruct (clerk_user env) as [user|] eqn:Hu; [|checkout_case].
  destruct items as [|item items]; [checkout_case|].
  destruct (unavailable env sanity_fetch); [checkout_case|].
  destruct (validate_cart _ (item :: items)) as [errs vs].
  destruct errs; [|checkout_case].
  pose proof (getOrCreate_keeps_inventory
                (JS.nullish (head (ClerkUser.emailAddresses user)) "")
                (user_name user (JS.nullish (head (ClerkUser.emailAddresses user)) ""))
                (String c u) env w) as (_ & _ & Hs).
  destruct (getOrCreateStripeCustomer _ _ _ env w) as [[ids|e] w0]; [|checkout_case].
  destruct (unavailable env stripe_sessions_create); [checkout_case|].
  eexists _, _. split; [reflexivity|]. simpl in *.
  split; [done|]. split.
  - intros _. split; [done|]. split; [eauto|].
    eexists (Session.mk _ _ _ _ _ _ _ _ _). split; [reflexivity|].
    simpl. by rewrite Hs.
  - split; [intros _ _ [?|?]; done|]. intros _ _ _ _ ?. done.
Qed.

(** ** Prices from pounds to pence and back *)

Lemma pounds_plus (a b : Z) : (pounds (a + b) == pounds a + pounds b)%Q.
Proof. unfold pounds. rewrite inject_Z_plus. field. Qed.

Lemma price_at_purchase_head (li : LineItem.t) (lineItems : list LineItem.t) :
  (price_at_purchase (li :: lineItems) 0 == pounds (LineItem.amount_total li))%Q.
Proof.
  unfold price_at_purchase. simpl.
  destruct (LineItem.amount_total li =? 0) eqn:H0; [|reflexivity].
  apply Z.eqb_eq in H0. by rewrite H0.
Qed.

Lemma prices_total_imap (lineItems : list LineItem.t) (productIds : list string)
  (key : nat → string) (qty : nat → option JS.number) :
  (prices_total (imap (λ index productId,
                         OrderItem.mk (key index) productId (qty index)
                                      (price_at_purchase lineItems index)) productIds)
   == pounds (sum_amounts (take (length productIds) lineItems)))%Q.
Proof.
  revert lineItems key qty.
  induction productIds as [|pid productIds IH]; intros lineItems key qty; [reflexivity|].
  rewrite imap_cons. cbn [prices_total foldr OrderItem.priceAtPurchase length].
  destruct lineItems as [|li lineItems].
  - specialize (IH [] (key ∘ S) (qty ∘ S)). rewrite take_nil in *.
    change (prices_total ?l) with (foldr (λ item acc, (OrderItem.priceAtPurchase item + acc)%Q) 0%Q l) in IH.
    etransitivity; [apply Qplus_comp; [reflexivity|exact IH]|]. reflexivity.
  - specialize (IH lineItems (key ∘ S) (qty ∘ S)).
    change (prices_total ?l) with (foldr (λ item acc, (OrderItem.priceAtPurchase item + acc)%Q) 0%Q l) in IH.
    etransitivity; [apply Qplus_comp; [apply price_at_purchase_head|exact IH]|].
    cbn [take sum_amounts foldr]. by rewrite pounds_plus.
Qed.

(** X10. What the webhook stores as the price of a line is the
    provider's total for that line, converted from pence to pounds; so
    when the session total is the sum of the listed lines, and there is a
    product id for every line, the stored line prices add up to the stored
    order total. *)
Theorem order_line_prices_add_up (env : Env) (session : Session.t)
  (lineItems : list LineItem.t) (id : string) :
  Session.amount_total session = Some (sum_amounts lineItems) →
  (length lineItems ≤ length (decode_productIds (session_metadata_or_empty session)))%nat →
  let o := new_order env session lineItems id in
  (prices_total (Order.items o) == Order.total o)%Q
  ∧ ∀ i item li,
      Order.items o !! i = Some item →
      lineItems !! i = Some li →
      (OrderItem.priceAtPurchase item == pounds (LineItem.amount_total li))%Q.
Proof.
  intros Htotal Hlen o. split.
  - unfold o, new_order, order_items. cbn [Order.items Order.total].
    rewrite prices_total_imap, Htotal, firstn_all2 by done. reflexivity.
  - intros i item li. unfold o, new_order, order_items. cbn [Order.items].
    rewrite list_lookup_imap.
    destruct (decode_productIds _ !! i) as [pid|]; [|done].
    intros [= <-] Hli. cbn [OrderItem.priceAtPurchase].
    unfold price_at_purchase. rewrite Hli.
    destruct (LineItem.amount_total li =? 0) eqn:H0; [|reflexivity].
    apply Z.eqb_eq in H0. by rewrite H0.
Qed.

(** Ann's two chairs: one line of 2000 pence, stored as 20 pounds. *)
Lemma order_line_prices_add_up_witness :
  Session.amount_total Demo.session = Some (sum_amounts (Session.line_items Demo.session))
  ∧ (length (Session.line_items Demo.session)
     ≤ length (decode_productIds (session_metadata_or_empty Demo.session)))%nat
  ∧ (prices_total (Order.items (new_order Demo.env_webhook Demo.session
                                          (Session.line_items Demo.session) "doc-0"))
     == 20 # 1)%Q.
Proof.
  assert (H1 : Session.amount_total Demo.session
               = Some (sum_amounts (Session.line_items Demo.session)))
    by (vm_compute; reflexivity).
  assert (H2 : (length (Session.line_items Demo.session)
                ≤ length (decode_productIds (session_metadata_or_empty Demo.session)))%nat)
    by (vm_compute; lia).
  split; [exact H1|]. split; [exact H2|].
  destruct (order_line_prices_add_up Demo.env_webhook Demo.session
              (Session.line_items Demo.session) "doc-0" H1 H2) as [Hsum _].
  rewrite Hsum. vm_compute. reflexivity.
Defined.

(** X11. A catalogue price of whole pence, up to 2^50 pence, survives
    the trip through the provider: although neither the price nor its
    hundredfold need be exact in binary64, the line item charges exactly
    that many pence per unit, the provider's line total is that times the
    quantity, and the price the webhook stores for the line is the
    catalogue price times the quantity. *)
Theorem whole_pence_price_round_trip (v : ValidatedItem) (pence : Z) :
  (JS.nullish (Product.price (product v)) 0 == pounds pence)%Q →
  - 2 ^ 50 ≤ pence ≤ 2 ^ 50 →
  let line := provider_line (to_line_item v) in
  SessionCreateParams.unit_amount (SessionCreateParams.price_data (to_line_item v)) = pence
  ∧ LineItem.amount_total line = pence * quantity v
  ∧ (price_at_purchase [line] 0
     == JS.nullish (Product.price (product v)) 0 * inject_Z (quantity v))%Q.
Proof.
  intros Hprice Hrange line.
  assert (Hunit : SessionCreateParams.unit_amount
                    (SessionCreateParams.price_data (to_line_item v)) = pence).
  { unfold to_line_item. cbn [SessionCreateParams.unit_amount SessionCreateParams.price_data].
    by apply mul_whole_pence. }
  assert (Hline : LineItem.amount_total line = pence * quantity v).
  { unfold line, provider_line. cbn [LineItem.amount_total]. by rewrite Hunit. }
  split; [done|]. split; [done|].
  rewrite price_at_purchase_head, Hline, Hprice.
  unfold pounds. rewrite inject_Z_mult. field.
Qed.

(** Three lamps at 19.99 pounds, a price that is not a double: 1999 pence
    a unit, 5997 pence the line. *)
Lemma whole_pence_price_round_trip_witness :
  (JS.nullish (Product.price (snapshot ("p2", Demo.lamp))) 0 == pounds 1999)%Q
  ∧ - 2 ^ 50 ≤ 1999 ≤ 2 ^ 50
  ∧ SessionCreateParams.unit_amount
      (SessionCreateParams.price_data
         (to_line_item (mkValidatedItem (snapshot ("p2", Demo.lamp)) 3)))
    = 1999
  ∧ LineItem.amount_total
      (provider_line (to_line_item (mkValidatedItem (snapshot ("p2", Demo.lamp)) 3)))
    = 5997.
Proof.
  assert (H : (JS.nullish (Product.price (snapshot ("p2", Demo.lamp))) 0
               == pounds 1999)%Q) by (vm_compute; reflexivity).
  assert (Hr : - 2 ^ 50 ≤ 1999 ≤ 2 ^ 50) by (split; vm_compute; discriminate).
  split; [exact H|]. split; [exact Hr|].
  destruct (whole_pence_price_round_trip
              (mkValidatedItem (snapshot ("p2", Demo.lamp)) 3) 1999 H Hr)
    as (Hunit & Hline & _).
  split; [exact Hunit|exact Hline].
Defined.

(** ** The dashboard after the webhook *)






(** ** The order and its customer *)

Lemma getOrCreate_document_id (email name clerkUserId sid cid : string) (env : Env)
  (w w' : World) :
  Forall (λ c, Customer._id c ≠ "") (customers (sanity w)) →
  getOrCreateStripeCustomer email name clerkUserId env w = (Ok (sid, cid), w') →
  cid ≠ "".
Proof.
  intros Hids. rewrite getOrCreate_run.
  destruct (unavailable env sanity_fetch); [done|].
  destruct (CUSTOMER_BY_EMAIL_QUERY email (sanity w)) as [c|] eqn:Hq.
  - assert (Hc : Customer._id c ≠ "").
    { apply find_some in Hq as [Hin _]. rewrite Forall_forall in Hids.
      by apply Hids, list_elem_of_In. }
    destruct (JS.truthy (Customer.stripeCustomerId c)); [by intros [= _ <- _]|].
    destruct (resolve_stripe_customer email name clerkUserId env w) as [[sid'|e] w1];
      [|done].
    destruct (unavailable env sanity_patch); [done|].
    destruct (existsb _ _); [|done]. by intros [= _ <- _].
  - destruct (resolve_stripe_customer email name clerkUserId env w) as [[sid'|e] w1];
      [|done].
    destruct (unavailable env sanity_create); [done|]. by intros [= _ <- _].
Qed.

(** X13. The order points at the buyer's customer document. After a
    successful checkout the content store holds a customer document for
    the buyer's email that carries the provider's customer id the session
    was created for; and the order the webhook builds from a delivery with
    the session's metadata references that document, with the buyer's
    email and user id. *)
Theorem order_references_the_buyers_customer (items : list CartItem.t) (env : Env)
  (w w1 : World) (res : CheckoutResult) :
  createCheckoutSession items env w = (Ok res, w1) →
  success res = true →
  stripe_ids_nonempty w →
  Forall (λ c, Customer._id c ≠ "") (customers (sanity w)) →
  ∃ userId user s c sid,
    auth_userId env = Some userId
    ∧ clerk_user env = Some user
    ∧ sessions (stripe w1) !! Session.id s = Some s
    ∧ CUSTOMER_BY_EMAIL_QUERY (user_email user) (sanity w1) = Some c
    ∧ Customer.stripeCustomerId c = Some sid ∧ sid ≠ ""
    ∧ Session.customer s = Some sid
    ∧ ∀ env' delivered lineItems id,
        Session.metadata delivered = Session.metadata s →
        let o := new_order env' delivered lineItems id in
        Order.customer_ref o = Some (Customer._id c)
        ∧ Order.email o = user_email user
        ∧ Order.clerkUserId o = userId.
Proof.
  intros Hrun Hok Hsids Hcids.
  destruct (createCheckoutSession_success _ _ _ _ _ Hrun Hok)
    as (userId & user & [sid cid] & w0 & vs & Hauth & Hne & Huser & Hitems & Hval & Hcust
        & -> & ->).
  destruct (getOrCreate_links _ _ _ _ _ _ _ _ Hsids Hcust) as (c & Hq & Hid & Hsid & Hsne).
  pose proof (getOrCreate_document_id _ _ _ _ _ _ _ _ Hcids Hcust) as Hcne.
  set (md := session_metadata userId (user_email user) cid vs).
  set (s := created_session (session_params env sid md vs) w0).
  exists userId, user, s, c, sid.
  split; [done|]. split; [done|]. split.
  { unfold session_created. simpl. apply lookup_insert_eq. }
  split; [exact Hq|]. split; [done|]. split; [done|]. split; [reflexivity|].
  intros env' delivered lineItems id Hmd o.
  unfold o, new_order, session_metadata_or_empty. rewrite Hmd. simpl.
  rewrite Hid. by destruct cid.
Qed.

(** Ann's checkout of two chairs. *)
Lemma order_references_the_buyers_customer_witness :
  createCheckoutSession Demo.cart Demo.env Demo.world
  = (Ok (mkCheckoutResult true (Some "https://checkout.stripe.com/c/pay/cs_1") None),
     Demo.world_checked_out)
  ∧ stripe_ids_nonempty Demo.world
  ∧ Forall (λ c, Customer._id c ≠ "") (customers (sanity Demo.world))
  ∧ ∃ s c,
      sessions (stripe Demo.world_checked_out) !! Session.id s = Some s
      ∧ CUSTOMER_BY_EMAIL_QUERY "ann@shop.test" (sanity Demo.world_checked_out) = Some c
      ∧ is_Some (Customer.stripeCustomerId c)
      ∧ Order.customer_ref (new_order Demo.env_webhook s [] "doc-9")
        = Some (Customer._id c)
      ∧ Order.clerkUserId (new_order Demo.env_webhook s [] "doc-9") = "user_ann".
Proof.
  assert (Hrun : createCheckoutSession Demo.cart Demo.env Demo.world
                 = (Ok (mkCheckoutResult true
                          (Some "https://checkout.stripe.com/c/pay/cs_1") None),
                    Demo.world_checked_out)) by (vm_compute; reflexivity).
  assert (Hs : stripe_ids_nonempty Demo.world) by constructor.
  assert (Hc : Forall (λ c, Customer._id c ≠ "") (customers (sanity Demo.world)))
    by constructor.
  split; [exact Hrun|]. split; [exact Hs|]. split; [exact Hc|].
  destruct (order_references_the_buyers_customer _ _ _ _ _ Hrun eq_refl Hs Hc)
    as (userId & user & s & c & sid & Ha & Hu & Hsess & Hq & Hsid & _ & _ & Ho).
  injection Hu as <-. injection Ha as <-.
  exists s, c. split; [exact Hsess|]. split; [exact Hq|]. split; [by rewrite Hsid|].
  destruct (Ho Demo.env_webhook s [] "doc-9" eq_refl) as (Hr & _ & Hid).
  split; [exact Hr|exact Hid].
Defined.

(** ** Orders of more than ten lines *)

(** X14. The webhook prices an order from the first page of the
    session's lines. When it creates the order (lookup, listing and
    creation succeed, whatever the stock transaction does), the order has
    one item per product id of the metadata; an item among the first ten
    is stored at its line's total in pounds, and every item from the
    eleventh on is stored at the price 0, although the session has a line
    for it. *)
Theorem lines_beyond_the_first_page_are_stored_at_zero (env : Env) (w : World)
  (session s : Session.t) :
  unavailable env sanity_fetch = false →
  ORDER_BY_STRIPE_PAYMENT_ID_QUERY (Session.payment_intent session) (sanity w) = None →
  metadata_complete (session_metadata_or_empty session) = true →
  unavailable env stripe_listLineItems = false →
  sessions (stripe w) !! Session.id session = Some s →
  unavailable env sanity_create = false →
  ∃ o,
    orders (sanity (handleCheckoutCompleted session env w).2) = orders (sanity w) ++ [o]
    ∧ length (Order.items o)
      = length (decode_productIds (session_metadata_or_empty session))
    ∧ ∀ i item,
        Order.items o !! i = Some item →
        ((i < 10)%nat →
         ∀ li, Session.line_items s !! i = Some li →
               (OrderItem.priceAtPurchase item == inject_Z (LineItem.amount_total li) / 100)%Q)
        ∧ ((10 ≤ i)%nat → OrderItem.priceAtPurchase item = 0%Q).
Proof.
  intros Hf Hnone Hmd Hl Hs Hc.
  set (o := new_order env session (first_page (Session.line_items s))
                      (fresh_doc_id (sanity w))).
  exists o. split.
  { destruct (unavailable env sanity_transaction) eqn:Hu.
    { destruct (handle_commit_fails env w session s) as [e ->]; auto. }
    destruct (apply_transaction
                (stock_transaction (decode_productIds (session_metadata_or_empty session))
                                   (decode_quantities (session_metadata_or_empty session)))
                (products (sanity w))) as [docs|] eqn:Ht.
    - by rewrite (handle_materialized env w session s docs).
    - destruct (handle_commit_fails env w session s) as [e ->]; auto. }
  split.
  { unfold o, new_order, order_items. cbn [Order.items]. by rewrite length_imap. }
  intros i item. unfold o, new_order, order_items. cbn [Order.items].
  rewrite list_lookup_imap.
  destruct (decode_productIds _ !! i) as [pid|]; [|done].
  intros [= <-]. cbn [OrderItem.priceAtPurchase]. unfold price_at_purchase, first_page.
  split.
  - intros Hi li Hli. rewrite lookup_take_lt, Hli by done.
    destruct (LineItem.amount_total li =? 0) eqn:H0; [|reflexivity].
    apply Z.eqb_eq in H0. by rewrite H0.
  - intros Hi. by rewrite lookup_take_ge.
Qed.

(** Eleven chairs in eleven lines of 1000 pence: the eleventh item of the
    order has the price 0. *)
Lemma lines_beyond_the_first_page_are_stored_at_zero_witness :
  sessions (stripe Demo3.world_checked_out) !! Session.id Demo3.session = Some Demo3.session
  ∧ LineItem.amount_total <$> Session.line_items Demo3.session !! 10%nat = Some 1000
  ∧ ∃ o,
      orders (sanity (handleCheckoutCompleted Demo3.session Demo.env_webhook
                                              Demo3.world_checked_out).2) = [o]
      ∧ length (Order.items o) = 11%nat
      ∧ ∀ item, Order.items o !! 10%nat = Some item → OrderItem.priceAtPurchase item = 0%Q.
Proof.
  assert (Hs : sessions (stripe Demo3.world_checked_out) !! Session.id Demo3.session
               = Some Demo3.session) by (vm_compute; reflexivity).
  split; [exact Hs|]. split; [vm_compute; reflexivity|].
  destruct (lines_beyond_the_first_page_are_stored_at_zero
              Demo.env_webhook Demo3.world_checked_out Demo3.session Demo3.session)
    as (o & Ho & Hlen & Hitems); try reflexivity; try exact Hs;
    try (vm_compute; reflexivity).
  exists o. split; [exact Ho|]. split; [rewrite Hlen; vm_compute; reflexivity|].
  intros item Hitem. apply (Hitems 10%nat item Hitem). lia.
Defined.
